(** * A shallow embedding of the MATLAB Level-5 [.mat] decoder (package [matlab])

    The Go sources are embedded function by function.  Conventions:

    - a byte is [Byte.byte]; a [[]byte] slice is a [list byte] whose capacity
      equals its length (every slice the decoder indexes is freshly built by
      [readAllBytes], [make] or a sub-slice of those).  An index or slice
      expression that Go's bounds check rejects is a [Panic]; the messages
      of run-time panics are shortened to their fixed part;
    - Go's [int] is 64 bits wide and is embedded in [Z]; the fixed-width
      unsigned types are embedded in [Z] with their range written out;
    - an [error] is identified with the text of [err.Error()], which is the
      only thing the decoder ever inspects ([err.Error() == "EOF"]);
    - an [io.Reader] is a byte queue that fills the slice handed to [Read]
      whenever enough bytes remain (as [bytes.Buffer] and regular files do)
      and reports its terminal error once it is drained;
    - a function that returns [(T, error)] returns a [res T]; a function that
      also advances a reader returns the reader next to it. *)

From Stdlib Require Import ZArith Strings.String Strings.Ascii Strings.Byte.
From Stdlib Require Import DecimalString Lists.List.
From stdpp Require Import base option list gmap strings.

Local Open Scope string_scope.
Local Open Scope list_scope.
Local Open Scope Z_scope.

(** ** Bytes, strings and errors *)

Abbreviation byte := Byte.byte.

Definition byte_to_Z (b : byte) : Z := Z.of_N (Byte.to_N b).

(** [byte(v)] for an integer [v]: the low eight bits. *)
Definition byte_of_Z (z : Z) : byte :=
  match Byte.of_N (Z.to_N (z mod 256)) with
  | Some b => b
  | None => Byte.x00
  end.

(** [string(b)] for a byte slice [b]. *)
Definition string_of_bytes (l : list byte) : string :=
  string_of_list_ascii (List.map ascii_of_byte l).

(** [[]byte(s)] for a string [s]. *)
Definition bytes_of_string (s : string) : list byte :=
  List.map byte_of_ascii (list_ascii_of_string s).

(** The verb [%d] of [fmt]. *)
Definition fmt_d (z : Z) : string := NilZero.string_of_int (Z.to_int z).

Definition error := string.
Definition EOF : error := "EOF".

(** [make([]byte, n)]. *)
Definition make_bytes (n : Z) : list byte := repeat Byte.x00 (Z.to_nat n).

(** ** Results

    [Ok a] is a return with a nil error, [Error e] a return with the non-nil
    error [e], and [Panic m] a run-time panic with message [m]. *)

Inductive res (A : Type) : Type :=
| Ok (a : A)
| Error (e : error)
| Panic (msg : string).

Arguments Ok {A} a.
Arguments Error {A} e.
Arguments Panic {A} msg.

Definition res_bind {A B} (m : res A) (k : A -> res B) : res B :=
  match m with
  | Ok a => k a
  | Error e => Error e
  | Panic msg => Panic msg
  end.

Notation "'let*' x ':=' m 'in' k" := (res_bind m (fun x => k))
  (at level 10, x pattern, m at level 100, k at level 200).

(** The same for a computation that advances a reader. *)
Definition rd_bind {A B S} (m : res A * S) (k : A -> S -> res B * S) : res B * S :=
  match m with
  | (Ok a, s) => k a s
  | (Error e, s) => (Error e, s)
  | (Panic msg, s) => (Panic msg, s)
  end.

Notation "'let+' ( x , r ) ':=' m 'in' k" := (rd_bind m (fun x r => k))
  (at level 10, x pattern, r name, m at level 100, k at level 200).

(** The element reader, the matrix decoder and the functions above them are
    mutually recursive through compressed and cell elements; the embedding
    gives them a recursion budget, and [None] is its exhaustion (it has no
    counterpart in Go). *)
Definition fuel_bind {A B S} (m : option (res A * S))
    (k : A -> S -> option (res B * S)) : option (res B * S) :=
  match m with
  | None => None
  | Some (Ok a, s) => k a s
  | Some (Error e, s) => Some (Error e, s)
  | Some (Panic msg, s) => Some (Panic msg, s)
  end.

Notation "'let++' ( x , r ) ':=' m 'in' k" := (fuel_bind m (fun x r => k))
  (at level 10, x pattern, r name, m at level 100, k at level 200).

Definition is_failure {A} (m : res A) : Prop :=
  match m with
  | Error _ | Panic _ => True
  | Ok _ => False
  end.

(** Go's slice expression [l[lo:hi]] and index expression [l[i]]. *)
Definition slice (lo hi : Z) (l : list byte) : res (list byte) :=
  if (0 <=? lo) && (lo <=? hi) && (hi <=? Z.of_nat (length l))
  then Ok (firstn (Z.to_nat (hi - lo)) (skipn (Z.to_nat lo) l))
  else Panic "runtime error: slice bounds out of range".

Definition index (i : Z) (l : list byte) : res byte :=
  if (0 <=? i)
  then match nth_error l (Z.to_nat i) with
       | Some b => Ok b
       | None => Panic "runtime error: index out of range"
       end
  else Panic "runtime error: index out of range".

(** ** [io.Reader] *)

(** The interface [io.Reader].  [io_Read n rdr] is [rdr.Read(r)] for a slice
    [r] of length [n > 0]: the bytes copied into the front of [r] (their
    number is Go's [n]), the error, and the reader afterwards.  A reader may
    hand out fewer bytes than the slice holds, and may report its error
    together with its last bytes.  The two laws are the contract of
    [io.Reader] as the readers of the standard library keep it: no more bytes
    than the slice holds, and at least one byte in a call that reports no
    error. *)
Class io_Reader (R : Type) : Type := {
  io_Read : Z -> R -> list byte * option error * R;
  io_Read_fits : forall n rdr got err rdr',
    0 < n -> io_Read n rdr = (got, err, rdr') -> Z.of_nat (length got) <= n;
  io_Read_progress : forall n rdr got rdr',
    0 < n -> io_Read n rdr = (got, None, rdr') -> got <> []
}.

(** A [bytes.Buffer], and a regular file alike: a queue of bytes, read from
    the front, that fills every slice as far as its bytes go and reports its
    error only once it is drained. *)
Record Reader : Type := mkReader {
  rd_buf : list byte;   (* the bytes not yet delivered *)
  rd_err : error        (* the error reported once [rd_buf] is drained *)
}.

(** [bytes.NewBuffer(data)]: drained, it reports [io.EOF]. *)
Definition NewBuffer (data : list byte) : Reader := mkReader data EOF.

(** [rdr.Read(r)] with [len(r) = n > 0] for such a queue: the bytes copied
    into [r] (their number is Go's [n]), the error, and the reader afterwards. *)
Definition Read (n : Z) (rdr : Reader) : list byte * option error * Reader :=
  match rd_buf rdr with
  | [] => ([], Some (rd_err rdr), rdr)
  | _ :: _ =>
      (firstn (Z.to_nat n) (rd_buf rdr), None,
       mkReader (skipn (Z.to_nat n) (rd_buf rdr)) (rd_err rdr))
  end.

#[export] Instance Reader_io : io_Reader Reader.
Proof.
  refine {| io_Read := Read |}.
  - intros n [buf e] got err rdr' Hn. unfold Read. cbn [rd_buf rd_err].
    destruct buf as [|b buf]; intros H; injection H as <- _ _.
    + cbn [length]. lia.
    + rewrite length_firstn. lia.
  - intros n [buf e] got rdr' Hn. unfold Read. cbn [rd_buf rd_err].
    destruct buf as [|b buf]; intros H; [discriminate H|].
    injection H as <- _.
    destruct (Z.to_nat n) as [|k] eqn:Hk; [lia | discriminate].
Defined.

#[export] Hint Mode io_Reader ! : typeclass_instances.

(** The loop of [readAllBytes]; [r] of the source is [got ++ make_bytes (p - n)]. *)
Fixpoint readAllBytes_loop {R : Type} {HR : io_Reader R} (fuel : nat) (p remaining : Z)
    (buf : list byte) (rdr : R) : list byte * option error * R :=
  if remaining >? 0 then
    match fuel with
    | O => (buf, None, rdr)
    | S fuel =>
        let '(got, err, rdr') := io_Read p rdr in
        let n := Z.of_nat (length got) in
        let r := got ++ make_bytes (p - n) in
        match err with
        | Some e =>
            if String.eqb e "EOF" then
              if remaining - n =? 0 then (buf ++ got, None, rdr')
              else if p =? remaining then (r, Some e, rdr')
              else (r, Some ("EOF reached but we're supposed to read "
                             +:+ fmt_d remaining +:+ " more bytes"), rdr')
            else (buf, Some e, rdr')
        | None => readAllBytes_loop fuel p (remaining - n) (buf ++ got) rdr'
        end
    end
  else (buf, None, rdr).

(** [readAllBytes(p, rdr)].  Every pass that does not return takes at least
    one byte ([io_Read_progress]), so [p] passes are enough. *)
Definition readAllBytes {R : Type} {HR : io_Reader R} (p : Z) (rdr : R)
    : list byte * option error * R :=
  readAllBytes_loop (Z.to_nat p) p p [] rdr.

(** ** The type table *)

(** [type DataType uint32]. *)
Definition DataType := Z.

Definition DataTypeUnknown : DataType := 0.
Definition DTmiINT8 : DataType := 1.
Definition DTmiUINT8 : DataType := 2.
Definition DTmiINT16 : DataType := 3.
Definition DTmiUINT16 : DataType := 4.
Definition DTmiINT32 : DataType := 5.
Definition DTmiUINT32 : DataType := 6.
Definition DTmiSINGLE : DataType := 7.
Definition DTmiDOUBLE : DataType := 9.
Definition DTmiINT64 : DataType := 12.
Definition DTmiUINT64 : DataType := 13.
Definition DTmiMATRIX : DataType := 14.
Definition DTmiCOMPRESSED : DataType := 15.
Definition DTmiUTF8 : DataType := 16.
Definition DTmiUTF16 : DataType := 17.
Definition DTmiUTF32 : DataType := 18.

Definition DataType_String (d : DataType) : string :=
  match d with
  | 1 => "miINT8"
  | 2 => "miUINT8"
  | 3 => "miINT16"
  | 4 => "miUINT16"
  | 5 => "miINT32"
  | 6 => "miUINT32"
  | 7 => "miSINGLE"
  | 9 => "miDOUBLE"
  | 12 => "miINT64"
  | 13 => "miUINT64"
  | 14 => "miMATRIX"
  | 15 => "miCOMPRESSED"
  | 16 => "miUTF8"
  | 17 => "miUTF16"
  | 18 => "miUTF32"
  | _ => "unknown"
  end.

(** [NumBytes]: the cases for [DTmiMATRIX], [DTmiCOMPRESSED] and [default]
    are empty and fall out of the [switch] onto the [panic]. *)
Definition NumBytes (d : DataType) : res Z :=
  match d with
  | 1 => Ok 1
  | 2 => Ok 1
  | 16 => Ok 1
  | 3 => Ok 2
  | 4 => Ok 2
  | 17 => Ok 2
  | 5 => Ok 4
  | 6 => Ok 4
  | 18 => Ok 4
  | 7 => Ok 4
  | 9 => Ok 8
  | 12 => Ok 8
  | 13 => Ok 8
  | _ => Panic ("Cannot get NumBytes of variable length type: " +:+ DataType_String d)
  end.

(** [type mxClass uint8]. *)
Definition mxClass := Z.

Definition mxUNKNOWN : mxClass := 0.
Definition mxCELL : mxClass := 1.
Definition mxSTRUCT : mxClass := 2.
Definition mxOBJECT : mxClass := 3.
Definition mxCHAR : mxClass := 4.
Definition mxSPARSE : mxClass := 5.
Definition mxDOUBLE : mxClass := 6.
Definition mxSINGLE : mxClass := 7.
Definition mxINT8 : mxClass := 8.
Definition mxUINT8 : mxClass := 9.
Definition mxINT16 : mxClass := 10.
Definition mxUINT16 : mxClass := 11.
Definition mxINT32 : mxClass := 12.
Definition mxUINT32 : mxClass := 13.
Definition mxINT64 : mxClass := 14.
Definition mxUINT64 : mxClass := 15.

(** ** [encoding/binary] *)

(** A [binary.ByteOrder] is an interface value: [nil] until the header has
    resolved it. *)
Inductive ByteOrder : Type := NilByteOrder | LittleEndian | BigEndian.

Definition ByteOrder_eqb (a b : ByteOrder) : bool :=
  match a, b with
  | NilByteOrder, NilByteOrder | LittleEndian, LittleEndian
  | BigEndian, BigEndian => true
  | _, _ => false
  end.

Definition resolved (bo : ByteOrder) : Prop := bo = LittleEndian \/ bo = BigEndian.

(** [b[0] | b[1]<<8 | ...] and [... | b[n-2]<<8 | b[n-1]]. *)
Fixpoint le_uint (bs : list byte) : Z :=
  match bs with
  | [] => 0
  | b :: bs => Z.lor (byte_to_Z b) (Z.shiftl (le_uint bs) 8)
  end.

Definition be_uint (bs : list byte) : Z :=
  fold_left (fun acc b => Z.lor (Z.shiftl acc 8) (byte_to_Z b)) bs 0.

(** [binary.LittleEndian.UintN(b)] and [binary.BigEndian.UintN(b)] for
    [N = 8 * n]: the bounds check [_ = b[n-1]], then the first [n] bytes. *)
Definition LittleEndian_Uint (n : nat) (b : list byte) : res Z :=
  let* _ := index (Z.of_nat n - 1) b in Ok (le_uint (firstn n b)).

Definition BigEndian_Uint (n : nat) (b : list byte) : res Z :=
  let* _ := index (Z.of_nat n - 1) b in Ok (be_uint (firstn n b)).

Definition nil_dereference : string :=
  "runtime error: invalid memory address or nil pointer dereference".

Definition ByteOrder_Uint (n : nat) (bo : ByteOrder) (b : list byte) : res Z :=
  match bo with
  | NilByteOrder => Panic nil_dereference
  | LittleEndian => LittleEndian_Uint n b
  | BigEndian => BigEndian_Uint n b
  end.

Definition Uint16 := ByteOrder_Uint 2.
Definition Uint32 := ByteOrder_Uint 4.
Definition Uint64 := ByteOrder_Uint 8.

(** The conversion [intN(x)] of an unsigned [N]-bit [x]. *)
Definition to_signed (bits : Z) (x : Z) : Z :=
  if x <? 2 ^ (bits - 1) then x else x - 2 ^ bits.

(** ** [unicode/utf8] and [unicode/utf16] *)

Definition RuneError : Z := 0xFFFD.

Definition between (lo hi b : Z) : bool := (lo <=? b) && (b <=? hi).

(** The rune of [utf8.DecodeRune(p)]: the first well-formed UTF-8 sequence
    of [p], or [RuneError] when [p] is empty or starts with an ill-formed one. *)
Definition DecodeRune (p : list byte) : Z :=
  match List.map byte_to_Z p with
  | [] => RuneError
  | b0 :: tl =>
      if b0 <? 0x80 then b0
      else if b0 <? 0xC2 then RuneError
      else if b0 <? 0xE0 then
        match tl with
        | b1 :: _ =>
            if between 0x80 0xBF b1
            then Z.lor (Z.shiftl (Z.land b0 0x1F) 6) (Z.land b1 0x3F)
            else RuneError
        | _ => RuneError
        end
      else if b0 <? 0xF0 then
        let lo := if b0 =? 0xE0 then 0xA0 else 0x80 in
        let hi := if b0 =? 0xED then 0x9F else 0xBF in
        match tl with
        | b1 :: b2 :: _ =>
            if between lo hi b1 && between 0x80 0xBF b2
            then Z.lor (Z.shiftl (Z.land b0 0x0F) 12)
                   (Z.lor (Z.shiftl (Z.land b1 0x3F) 6) (Z.land b2 0x3F))
            else RuneError
        | _ => RuneError
        end
      else if b0 <? 0xF5 then
        let lo := if b0 =? 0xF0 then 0x90 else 0x80 in
        let hi := if b0 =? 0xF4 then 0x8F else 0xBF in
        match tl with
        | b1 :: b2 :: b3 :: _ =>
            if between lo hi b1 && between 0x80 0xBF b2 && between 0x80 0xBF b3
            then Z.lor (Z.shiftl (Z.land b0 0x07) 18)
                   (Z.lor (Z.shiftl (Z.land b1 0x3F) 12)
                      (Z.lor (Z.shiftl (Z.land b2 0x3F) 6) (Z.land b3 0x3F)))
            else RuneError
        | _ => RuneError
        end
      else RuneError
  end.

(** [utf16.Decode([]uint16{u})[0]]: a lone surrogate decodes to U+FFFD. *)
Definition utf16_Decode1 (u : Z) : Z :=
  if between 0xD800 0xDFFF u then RuneError else u.

(** ** Decoded values *)

Record Flags : Type := mkFlags {
  isLogical : bool;
  isComplex : bool;
  isGlobal : bool
}.

(** The dynamic values held in an [interface{}]: the scalars of
    [parseContent] ([rune] is [int32]; a float is kept as its bit pattern),
    a [[]interface{}], and a [*Matrix]. *)
Local Unset Elimination Schemes.

Inductive Value : Type :=
| Vint8 (z : Z)
| Vuint8 (z : Z)
| Vint16 (z : Z)
| Vuint16 (z : Z)
| Vint32 (z : Z)
| Vuint32 (z : Z)
| Vint64 (z : Z)
| Vuint64 (z : Z)
| Vfloat32 (bits : Z)
| Vfloat64 (bits : Z)
| Vslice (l : list Value)
| VMatrix (m : Matrix)
with Matrix : Type :=
| mkMatrix (Name : string) (Dimension : list Z) (flags : Flags)
    (Class : mxClass) (value : list Value).

Local Set Elimination Schemes.

Definition Name (m : Matrix) : string := let 'mkMatrix n _ _ _ _ := m in n.
Definition Dimension (m : Matrix) : list Z := let 'mkMatrix _ d _ _ _ := m in d.
Definition flags (m : Matrix) : Flags := let 'mkMatrix _ _ f _ _ := m in f.
Definition Class (m : Matrix) : mxClass := let 'mkMatrix _ _ _ c _ := m in c.
Definition value (m : Matrix) : list Value := let 'mkMatrix _ _ _ _ v := m in v.

Record smallDataElement : Type := mkSmall { sde_typ : DataType; sde_value : Value }.
Record subElement : Type := mkSub { sub_typ : DataType; sub_value : Value }.

(** The dynamic types that implement [Element]. *)
Inductive Element : Type :=
| PtrSmall (p : option smallDataElement)   (* [*smallDataElement], [None] for nil *)
| ValSmall (s : smallDataElement)          (* [smallDataElement] *)
| PtrSub (s : subElement)                  (* [*subElement] *)
| PtrMatrix (m : Matrix).                  (* [*Matrix] *)

(** The import path of the package, as the readme gives it; the run time
    prints the path under which the package was built. *)
Definition import_path : string := "github.com/daniellowtw/matlab".

(** The panic of the run time when a method with a value receiver is called
    through a nil pointer: [smallDataElement] declares [Type] and [Value] on
    the value, and an [Element] can hold a nil pointer to one.  The run time
    writes the import path of the package in front of the type. *)
Definition nil_value_method (meth : string) : string :=
  "value method " +:+ import_path +:+ ".smallDataElement." +:+ meth
  +:+ " called using nil *smallDataElement pointer".

Definition Element_Type (e : Element) : res DataType :=
  match e with
  | PtrSmall (Some s) | ValSmall s => Ok (sde_typ s)
  | PtrSmall None => Panic (nil_value_method "Type")
  | PtrSub s => Ok (sub_typ s)
  | PtrMatrix _ => Ok DTmiMATRIX
  end.

Definition Element_Value (e : Element) : res Value :=
  match e with
  | PtrSmall (Some s) | ValSmall s => Ok (sde_value s)
  | PtrSmall None => Panic (nil_value_method "Value")
  | PtrSub s => Ok (sub_value s)
  | PtrMatrix m => Ok (Vslice (value m))
  end.

(** ** The payload decoder *)

Definition parseContent (t : DataType) (bo : ByteOrder) (data : list byte) : res Value :=
  match t with
  | 1 => let* b := index 0 data in Ok (Vint8 (to_signed 8 (byte_to_Z b)))
  | 2 => let* b := index 0 data in Ok (Vuint8 (byte_to_Z b))
  | 3 => let* u := Uint16 bo data in Ok (Vint16 (to_signed 16 u))
  | 4 => let* u := Uint16 bo data in Ok (Vuint16 u)
  | 5 => let* u := Uint32 bo data in Ok (Vint32 (to_signed 32 u))
  | 6 => let* u := Uint32 bo data in Ok (Vuint32 u)
  | 7 => let* u := Uint32 bo data in Ok (Vfloat32 u)
  | 9 => let* u := Uint64 bo data in Ok (Vfloat64 u)
  | 12 => let* u := Uint64 bo data in Ok (Vint64 (to_signed 64 u))
  | 13 => let* u := Uint64 bo data in Ok (Vuint64 u)
  | 14 => Panic "Should not be parsing matrix here"
  | 16 => Ok (Vint32 (DecodeRune data))
  | 17 => let* u := Uint16 bo data in Ok (Vint32 (utf16_Decode1 u))
  | 18 => Panic "Not supported"
  | 15 => Panic "should not be parsing compressed data type here"
  | _ => Error ("cannot parseContent data type: " +:+ DataType_String t
                +:+ ". Probably just need to implement this")
  end.

(** The loop of [parseMulti], from index [i] for [k] more elements. *)
Fixpoint parseMulti_from (k : nat) (i : Z) (t : DataType) (bo : ByteOrder)
    (data : list byte) : res (list Value) :=
  match k with
  | O => Ok []
  | S k =>
      let* w := NumBytes t in
      let* chunk := slice (i * w) ((i + 1) * w) data in
      let* i2 := parseContent t bo chunk in
      let* rest := parseMulti_from k (i + 1) t bo data in
      Ok (i2 :: rest)
  end.

Definition parseMulti (t : DataType) (bo : ByteOrder) (data : list byte)
    (len : Z) : res (list Value) :=
  if len <? 0 then Panic "runtime error: makeslice: len out of range"
  else parseMulti_from (Z.to_nat len) 0 t bo data.

(** ** The tag reader *)

(** What [readTag] does with the eight bytes of a tag once they are read. *)
Definition decodeTag (bo : ByteOrder) (buf : list byte)
    : res (option smallDataElement * DataType * Z) :=
  let* hi := slice 2 4 buf in
  let* h1 := LittleEndian_Uint 2 hi in
  let* lo := slice 0 2 buf in
  let* h0 := LittleEndian_Uint 2 lo in
  let '(sdeLen, sdeType) :=
    if ByteOrder_eqb bo BigEndian then (h0, h1) else (h1, h0) in
  if negb (sdeLen =? 0) then
    let dt : DataType := sdeType in
    let* w := NumBytes dt in
    let numEl := Z.quot sdeLen w in
    let* payload := slice 4 (Z.of_nat (length buf)) buf in
    let* sdeContent := parseMulti dt bo payload numEl in
    Ok (Some (mkSmall dt (Vslice sdeContent)), DataTypeUnknown, 0)
  else
    let* b03 := slice 0 4 buf in
    let* dataType := Uint32 bo b03 in
    let* b47 := slice 4 (Z.of_nat (length buf)) buf in
    let* len := Uint32 bo b47 in
    Ok (None, dataType, len).

Definition readTag {R : Type} {HR : io_Reader R} (bo : ByteOrder) (r : R)
    : res (option smallDataElement * DataType * Z) * R :=
  let '(buf, err, r) := readAllBytes 8 r in
  match err with
  | Some e => (Error e, r)
  | None => (decodeTag bo buf, r)
  end.

(** ** Sub-elements of a matrix *)

(** Go's [int] is 64 bits wide here: the value of an [int] expression whose
    mathematical result is [z]. *)
Definition int_wrap (z : Z) : Z := to_signed 64 (z mod 2 ^ 64).

Definition padTo64Bit (p : Z) : Z :=
  let offset := if negb (Z.rem p 8 =? 0) then 1 else 0 in
  int_wrap ((Z.quot p 8 + offset) * 8).

Definition arrayFlags {R : Type} {HR : io_Reader R} (bo : ByteOrder) (r : R)
    : res (Flags * mxClass) * R :=
  let+ ((_, dt, p), r) := readTag bo r in
  if negb (dt =? DTmiUINT32) then
    (Error ("invalid matrix, the array flags sub element in a matrix should have tag of type "
            +:+ DataType_String DTmiUINT32 +:+ String "010"%char ""), r)
  else if negb (p =? 8) then
    (Error ("invalid matrix, the size of array tag should be 8 bytes. Got "
            +:+ fmt_d p +:+ " bytes instead"), r)
  else
    let '(buf, err, r) := readAllBytes 8 r in
    match err with
    | Some e => (Error e, r)
    | None =>
        (let* lo := slice 0 4 buf in
         let* h0 := LittleEndian_Uint 2 lo in
         let* hi := slice 4 (Z.of_nat (length buf)) buf in
         let* h1 := LittleEndian_Uint 2 hi in
         let '(flagsAndClass, nonZeroMax) :=
           if ByteOrder_eqb bo BigEndian then (h1, h0) else (h0, h1) in
         Ok (mkFlags (Z.shiftr flagsAndClass 9 =? 1)
                     (Z.shiftr flagsAndClass 11 =? 1)
                     (Z.shiftr flagsAndClass 10 =? 1),
             Z.land flagsAndClass 0xFF), r)
    end.

(** The loop of [dimensionsArray]: [dimsr.Read(sBuf)] overwrites the front
    of the four-byte scratch slice [sBuf] and leaves the rest of it. *)
Fixpoint dimensions_loop (k : nat) (bo : ByteOrder) (dimsr : Reader)
    (sBuf : list byte) : res (list Z) :=
  match k with
  | O => Ok []
  | S k =>
      let '(got, err, dimsr) := Read 4 dimsr in
      match err with
      | Some e => Error e
      | None =>
          let sBuf := got ++ skipn (length got) sBuf in
          let* u := Uint32 bo sBuf in
          let* rest := dimensions_loop k bo dimsr sBuf in
          Ok (to_signed 32 u :: rest)
      end
  end.

Definition dimensionsArray {R : Type} {HR : io_Reader R} (bo : ByteOrder) (r : R)
    : res (list Z) * R :=
  let+ ((_, dt, p), r) := readTag bo r in
  if negb (dt =? DTmiINT32) then
    (Error ("invalid data type. Expects dimension sub element to have type int32, got "
            +:+ DataType_String dt +:+ " instead"), r)
  else
    let '(buf, err, r) := readAllBytes (padTo64Bit p) r in
    match err with
    | Some e => (Error e, r)
    | None =>
        (dimensions_loop (Z.to_nat (Z.quot p 4)) bo (NewBuffer buf) (make_bytes 4), r)
    end.

(** [n[i] = byte(v.(int8))] for every [v] of [t]. *)
Fixpoint name_bytes (t : list Value) : res (list byte) :=
  match t with
  | [] => Ok []
  | Vint8 z :: t => let* n := name_bytes t in Ok (byte_of_Z z :: n)
  | _ :: _ => Panic "interface conversion: interface {} is not int8"
  end.

(** [arrayName] hands back a string next to its error in every return, and
    [miMatrix] uses the string when the error is [EOF]: [Ok (s, err)] is the
    return of the pair. *)
Definition arrayName {R : Type} {HR : io_Reader R} (bo : ByteOrder) (r : R)
    : res (string * option error) * R :=
  match readTag bo r with
  | (Error e, r) => (Ok ("", Some e), r)
  | (Panic msg, r) => (Panic msg, r)
  | (Ok (Some sde, _, _), r) =>
      match sde_value sde with
      | Vslice t => (let* n := name_bytes t in Ok (string_of_bytes n, None), r)
      | _ => (Panic "interface conversion: interface {} is not []interface {}", r)
      end
  | (Ok (None, dt, p), r) =>
      if negb (dt =? DTmiINT8) then
        (Ok ("", Some ("invalid data type. Expects array name sub element to have type int8, got "
                       +:+ DataType_String dt +:+ " instead")), r)
      else
        let '(data, err, r) := readAllBytes (padTo64Bit p) r in
        (let* name := slice 0 p data in Ok (string_of_bytes name, err), r)
  end.

Definition readNumericalData {R : Type} {HR : io_Reader R} (bo : ByteOrder) (r : R)
    : res Element * R :=
  let+ ((sde, dt, numBytes), r) := readTag bo r in
  if numBytes =? 0 then (Ok (PtrSmall sde), r)
  else
    let '(data, err, r) := readAllBytes numBytes r in
    match err with
    | Some e => (Error e, r)
    | None =>
        (let* w := NumBytes dt in
         let numElements := Z.quot numBytes w in
         let* multi := parseMulti dt bo data numElements in
         Ok (ValSmall (mkSmall dt (Vslice multi))), r)
    end.

(** ** [bytes], [bufio] and [strings] as the header reader uses them *)

Fixpoint bytes_Equal (a b : list byte) : bool :=
  match a, b with
  | [], [] => true
  | x :: a, y :: b => Byte.eqb x y && bytes_Equal a b
  | _, _ => false
  end.

(** A [bufio.Reader] over a [bytes.Buffer] that fits its internal buffer is a
    queue [br] of bytes.  [br.ReadBytes(delim)]: the bytes up to and with the
    first [delim]; without one, all the bytes and [io.EOF]. *)
Fixpoint bufio_ReadBytes (delim : byte) (br : list byte)
    : list byte * option error * list byte :=
  match br with
  | [] => ([], Some EOF, [])
  | b :: br =>
      if Byte.eqb b delim then ([b], None, br)
      else let '(line, err, br) := bufio_ReadBytes delim br in (b :: line, err, br)
  end.

Definition bufio_ReadString (delim : byte) (br : list byte)
    : string * option error * list byte :=
  let '(line, err, br) := bufio_ReadBytes delim br in (string_of_bytes line, err, br).

(** [br.Discard(n)]. *)
Definition bufio_Discard (n : Z) (br : list byte) : option error * list byte :=
  if Z.of_nat (length br) <? n then (Some EOF, [])
  else (None, skipn (Z.to_nat n) br).

(** [br.Read(p)] for the fresh slice [p = make([]byte, n)]: [p] afterwards. *)
Definition bufio_Read (n : Z) (br : list byte) : list byte * option error * list byte :=
  match br with
  | [] => (make_bytes n, Some EOF, [])
  | _ :: _ =>
      let got := firstn (Z.to_nat n) br in
      (got ++ make_bytes (n - Z.of_nat (length got)), None, skipn (Z.to_nat n) br)
  end.

(** [strings.TrimRight(s, c)] for a cutset of the single ASCII character [c]. *)
Fixpoint TrimRight (s : string) (c : ascii) : string :=
  match s with
  | EmptyString => EmptyString
  | String a s =>
      match TrimRight s c with
      | EmptyString => if Ascii.eqb a c then EmptyString else String a EmptyString
      | t => String a t
      end
  end.

Definition headerLen : Z := 128.
Definition headerTextLen : Z := 116.
Definition headerSubsystemOffsetLen : Z := 8.
Definition headerFlagLen : Z := 4.

(** [time.ANSIC]. *)
Definition ANSIC : string := "Mon Jan _2 15:04:05 2006".

(** ** The element reader, the matrix decoder and the registry *)

(** The test [err != nil && err.Error() != "EOF"]: the error that passes it. *)
Definition not_EOF (err : option error) : option error :=
  match err with
  | Some e => if negb (String.eqb e "EOF") then Some e else None
  | None => None
  end.

(** The type assertion of [e] to a pointer to [Matrix]; its panic names the
    dynamic type of [e]. *)
Definition not_Matrix (dynamic : string) : string :=
  "interface conversion: matlab.Element is " +:+ dynamic +:+ ", not *matlab.Matrix".

Definition assert_Matrix (e : Element) : res Matrix :=
  match e with
  | PtrMatrix m => Ok m
  | PtrSmall _ => Panic (not_Matrix "*matlab.smallDataElement")
  | ValSmall _ => Panic (not_Matrix "matlab.smallDataElement")
  | PtrSub _ => Panic (not_Matrix "*matlab.subElement")
  end.

(** The loop that appends every [e] of [elements], asserted to be a matrix. *)
Fixpoint cell_values (elements : list Element) : res (list Value) :=
  match elements with
  | [] => Ok []
  | e :: elements =>
      let* m := assert_Matrix e in
      let* res := cell_values elements in
      Ok (VMatrix m :: res)
  end.

Section Decoder.

(** Library collaborators that the decoder calls and that are not part of
    the package: [zlib.NewReader(bytes.NewBuffer(buf))], which hands back
    the reader of the inflated stream, an [io.Reader] of a type [ZR] of its
    own, or an error; the type [time.Time] with its zero value and
    [time.Parse]; and [strings.TrimSpace]. *)
Context {ZR : Type} {HZR : io_Reader ZR}.
Variable zlib_NewReader : list byte -> ZR + error.
Variable Time : Type.
Variable Time_zero : Time.
Variable time_Parse : string -> string -> Time + error.
Variable strings_TrimSpace : string -> string.

(** The element reader runs on every [io.Reader]: on the reader [r] of the
    file, of type [R], on the [bytes.Buffer] of a matrix payload, and on the
    reader of an inflated stream. *)
Fixpoint readElement (fuel : nat) {R : Type} {HR : io_Reader R} (bo : ByteOrder) (r : R)
    {struct fuel} : option (res Element * R) :=
  match fuel with
  | O => None
  | S fuel =>
      let++ ((sde, dt, p), r) := Some (readTag bo r) in
      match sde with
      | Some s => Some (Ok (PtrSmall (Some s)), r)
      | None =>
          if dt =? DTmiCOMPRESSED then
            let '(buf, err, r) := readAllBytes p r in
            match err with
            | Some e => Some (Error e, r)
            | None =>
                match zlib_NewReader buf with
                | inr e => Some (Error e, r)
                | inl cr =>
                    match readAllElements_loop fuel bo cr [] with
                    | None => None
                    | Some (Ok [el], _) => Some (Ok el, r)
                    | Some (Ok _, _) =>
                        Some (Panic "This library assumes compressed elements have exactly one sub element", r)
                    | Some (Error e, _) => Some (Error e, r)
                    | Some (Panic msg, _) => Some (Panic msg, r)
                    end
                end
            end
          else if dt =? DTmiMATRIX then
            let '(data, err, r) := readAllBytes p r in
            match err with
            | Some e => Some (Error e, r)
            | None =>
                match miMatrix fuel bo data with
                | None => None
                | Some m => Some (let* m := m in Ok (PtrMatrix m), r)
                end
            end
          else
            let p := padTo64Bit p in
            let '(buf, err, r) := readAllBytes p r in
            match err with
            | Some e => Some (Error e, r)
            | None =>
                Some (let* content := parseContent dt bo buf in
                      Ok (PtrSub (mkSub dt content)), r)
            end
      end
  end

(** The loop of [readAllElements], entered with the elements [acc] read so
    far (the slice [res] of the source). *)
with readAllElements_loop (fuel : nat) {R : Type} {HR : io_Reader R} (bo : ByteOrder)
    (r : R) (acc : list Element) {struct fuel} : option (res (list Element) * R) :=
  match fuel with
  | O => None
  | S fuel =>
      match readElement fuel bo r with
      | None => None
      | Some (Ok el, r) => readAllElements_loop fuel bo r (acc ++ [el])
      | Some (Error e, r) =>
          if String.eqb e "EOF" then Some (Ok acc, r) else Some (Error e, r)
      | Some (Panic msg, r) => Some (Panic msg, r)
      end
  end

with miMatrix (fuel : nat) (bo : ByteOrder) (data : list byte) {struct fuel}
    : option (res Matrix) :=
  match fuel with
  | O => None
  | S fuel =>
      let r := NewBuffer data in
      option_map fst (
      let++ ((flags, class), r) := Some (arrayFlags bo r) in
      let++ (dim, r) := Some (dimensionsArray bo r) in
      let++ ((name, err), r) := Some (arrayName bo r) in
      match not_EOF err with
      | Some e => Some (Error e, r)
      | None =>
        let++ (val, r) :=
          if class =? mxSPARSE then Some (Panic "Sparse matrix unsupported", r)
          else if class =? mxCELL then
            let++ (elements, r) := readAllElements_loop fuel bo r [] in
            Some (cell_values elements, r)
          else if class =? mxSTRUCT then Some (Panic "Struct matrix unsupported", r)
          else if class =? mxOBJECT then Some (Panic "Object matrix unsupported", r)
          else
            Some (
            let+ (pr, r) := readNumericalData bo r in
            let+ (_, r) :=
              if isComplex flags then
                match readNumericalData bo r with
                | (Error e, r) =>
                    match not_EOF (Some e) with
                    | Some e => (Error e, r)
                    | None => (Ok tt, r)
                    end
                | (Ok _, r) => (Ok tt, r)
                | (Panic msg, r) => (Panic msg, r)
                end
              else (Ok tt, r) in
            (let* v := Element_Value pr in
             match v with
             | Vslice l => Ok l
             | _ => Panic "interface conversion: interface {} is not []interface {}"
             end, r))
        in
        Some (Ok (mkMatrix name dim flags class val), r)
      end)
  end.

Definition readAllElements (fuel : nat) {R : Type} {HR : io_Reader R} (bo : ByteOrder)
    (r : R) : option (res (list Element) * R) :=
  readAllElements_loop fuel bo r [].

(** *** The file and its registry *)

Record Header : Type := mkHeader {
  Level : string;
  Platform : string;
  Created : Time;
  Endianess : ByteOrder
}.

(** The writer [w] of the source is never used and is left out. *)
Record File : Type := mkFile {
  File_Header : Header;
  File_r : Reader;
  hasReadAll : bool;
  vars : gmap string Matrix
}.

Definition set_Header (h : Header) (f : File) : File :=
  mkFile h (File_r f) (hasReadAll f) (vars f).
Definition set_r (r : Reader) (f : File) : File :=
  mkFile (File_Header f) r (hasReadAll f) (vars f).
Definition set_hasReadAll (b : bool) (f : File) : File :=
  mkFile (File_Header f) (File_r f) b (vars f).
Definition set_vars (m : gmap string Matrix) (f : File) : File :=
  mkFile (File_Header f) (File_r f) (hasReadAll f) m.

(** The loop of [readAll] over the decoded elements. *)
Fixpoint readAll_register (elements : list Element) (f : File) : res unit * File :=
  match elements with
  | [] => (Ok tt, f)
  | v :: elements =>
      match Element_Type v with
      | Ok t =>
          if negb (t =? DTmiMATRIX) then
            (Panic "This library assumes top level elements are either Matrix or Compressed. Please file an issue", f)
          else
            match assert_Matrix v with
            | Ok m => readAll_register elements (set_vars (<[Name m := m]> (vars f)) f)
            | Error e => (Error e, f)
            | Panic msg => (Panic msg, f)
            end
      | Error e => (Error e, f)
      | Panic msg => (Panic msg, f)
      end
  end.

Definition readAll (fuel : nat) (f : File) : option (res unit * File) :=
  if hasReadAll f then Some (Ok tt, f)
  else
    let f := set_hasReadAll true f in
    match readAllElements fuel (Endianess (File_Header f)) (File_r f) with
    | None => None
    | Some (Ok elements, r) => Some (readAll_register elements (set_r r f))
    | Some (Error e, r) => Some (Error e, set_r r f)
    | Some (Panic msg, r) => Some (Panic msg, set_r r f)
    end.

(** [GetVar] has no error result: it returns the pair [(vars, found)]. *)
Definition GetVar (fuel : nat) (f : File) (name : string)
    : option (res (option Matrix * bool) * File) :=
  let lookup (f : File) : option (res (option Matrix * bool) * File) :=
    Some (Ok (vars f !! name, bool_decide (is_Some (vars f !! name))), f) in
  if negb (hasReadAll f) then
    match readAll fuel f with
    | None => None
    | Some (Ok _, f) => lookup f
    | Some (Error _, f) => Some (Ok (None, false), f)
    | Some (Panic msg, f) => Some (Panic msg, f)
    end
  else lookup f.

(** [GetVarsNames]: Go leaves the order of a [range] over a map open; the
    names are listed here in the order of [map_to_list]. *)
Definition GetVarsNames (fuel : nat) (f : File)
    : option (res (list string) * File) :=
  let names (f : File) : option (res (list string) * File) :=
    Some (Ok ((map_to_list (vars f)).*1), f) in
  if negb (hasReadAll f) then
    match readAll fuel f with
    | None => None
    | Some (Ok _, f) => names f
    | Some (Error _, f) => Some (Ok [], f)
    | Some (Panic msg, f) => Some (Panic msg, f)
    end
  else names f.

(** *** The header *)

Definition set_Level (s : string) (h : Header) : Header :=
  mkHeader s (Platform h) (Created h) (Endianess h).
Definition set_Platform (s : string) (h : Header) : Header :=
  mkHeader (Level h) s (Created h) (Endianess h).
Definition set_Created (t : Time) (h : Header) : Header :=
  mkHeader (Level h) (Platform h) t (Endianess h).
Definition set_Endianess (bo : ByteOrder) (h : Header) : Header :=
  mkHeader (Level h) (Platform h) (Created h) bo.

(** The description text of the header (the [bufio] part of [readHeader]):
    the header [h] as far as it was filled in, next to the error. *)
Definition readDescription (buf : list byte) (h : Header) : res unit * Header :=
  let '(prefix, err, br) := bufio_ReadBytes " "%byte buf in
  match err with
  | Some e => (Error e, h)
  | None =>
  if negb (bytes_Equal prefix (bytes_of_string "MATLAB ")) then
    (Error "not a valid .mat file", h)
  else
  let '(level, err, br) := bufio_ReadString " "%byte br in
  let h := set_Level level h in
  match err with
  | Some e => (Error e, h)
  | None =>
  let h := set_Level (strings_TrimSpace (Level h)) h in
  if negb (String.eqb (Level h) "5.0") then
    (Error "can only read matlab level 5 files", h)
  else
  let '(err, br) := bufio_Discard (Z.of_nat (String.length "MAT-file Platform: ")) br in
  match err with
  | Some e => (Error e, h)
  | None =>
  let '(platform, err, br) := bufio_ReadString ","%byte br in
  let h := set_Platform platform h in
  match err with
  | Some e => (Error e, h)
  | None =>
  let h := set_Platform (TrimRight (Platform h) ","%char) h in
  let '(err, br) := bufio_Discard (Z.of_nat (String.length " Created on: ")) br in
  match err with
  | Some e => (Error e, h)
  | None =>
  let '(date, err, br) := bufio_Read 24 br in
  match err with
  | Some e => (Error e, h)
  | None =>
  (* a date that does not parse is tolerated and leaves the zero time *)
  let h :=
    match time_Parse ANSIC (strings_TrimSpace (string_of_bytes date)) with
    | inl t => set_Created t h
    | inr _ => set_Created Time_zero h
    end in
  (Ok tt, h)
  end end end end end end.

Definition readHeader (f : File) : res unit * File :=
  let h := mkHeader "" "" Time_zero NilByteOrder in
  let f := set_Header h f in
  let '(buf, err, r) := readAllBytes headerTextLen (File_r f) in
  let f := set_r r f in
  match err with
  | Some e => (Error e, f)
  | None =>
  match readDescription buf h with
  | (Error e, h) => (Error e, set_Header h f)
  | (Panic msg, h) => (Panic msg, set_Header h f)
  | (Ok _, h) =>
  let f := set_Header h f in
  let '(_, err, r) := readAllBytes headerSubsystemOffsetLen (File_r f) in
  let f := set_r r f in
  match err with
  | Some e => (Error e, f)
  | None =>
  let '(buf, err, r) := readAllBytes headerFlagLen (File_r f) in
  let f := set_r r f in
  match err with
  | Some e => (Error e, f)
  | None =>
  match slice 2 4 buf with
  | Ok marker =>
      let byteOrder := string_of_bytes marker in
      if String.eqb byteOrder "MI" then
        (Ok tt, set_Header (set_Endianess BigEndian h) f)
      else if String.eqb byteOrder "IM" then
        (Ok tt, set_Header (set_Endianess LittleEndian h) f)
      else (Error ("invalid byte order setting: " +:+ byteOrder), f)
  | Error e => (Error e, f)
  | Panic msg => (Panic msg, f)
  end
  end end end end.

(** [NewFileFromReader] returns the file next to the error of [readHeader]. *)
Definition NewFileFromReader (r : Reader) : res unit * File :=
  readHeader (mkFile (mkHeader "" "" Time_zero NilByteOrder) r false ∅).

End Decoder.

Arguments mkHeader {Time}.
Arguments Level {Time}.
Arguments Platform {Time}.
Arguments Created {Time}.
Arguments Endianess {Time}.
Arguments mkFile {Time}.
Arguments File_Header {Time}.
Arguments File_r {Time}.
Arguments hasReadAll {Time}.
Arguments vars {Time}.
Arguments set_Header {Time}.
Arguments set_r {Time}.
Arguments set_hasReadAll {Time}.
Arguments set_vars {Time}.
Arguments set_Level {Time}.
Arguments set_Platform {Time}.
Arguments set_Created {Time}.
Arguments set_Endianess {Time}.
Arguments readAll_register {Time}.
Arguments readAll {ZR HZR} zlib_NewReader {Time}.
Arguments GetVar {ZR HZR} zlib_NewReader {Time}.
Arguments GetVarsNames {ZR HZR} zlib_NewReader {Time}.
Arguments readDescription {Time}.
Arguments readHeader {Time}.
Arguments NewFileFromReader {Time}.

(** ** Conversions of a decoded matrix ([matrix.go]) *)

(** A [float64] is kept as the bit pattern it was made from: of a [float64]
    itself, or of the [float32] that was widened to it. *)
Inductive float64 : Type :=
| float64_frombits (bits : Z)
| float64_of_float32 (bits : Z).

(** The panic of a failed type assertion [e.(T)].  The message of the run
    time names the dynamic type of [e] and [T]; one text stands for all of
    them here. *)
Definition interface_conversion : string :=
  "interface conversion: interface {} is of another type".

(** One pass of the loop of [IntArray]: the switch on the class, the type
    assertion on the element and the conversion to [int64]. *)
Definition IntArray_item (class : mxClass) (e : Value) : res Z :=
  match class with
  | 8 => match e with Vint8 z => Ok z | _ => Panic interface_conversion end
  | 10 => match e with Vint16 z => Ok z | _ => Panic interface_conversion end
  | 12 => match e with Vint32 z => Ok z | _ => Panic interface_conversion end
  | 14 => match e with Vint64 z => Ok z | _ => Panic interface_conversion end
  | 9 => match e with Vuint8 z => Ok z | _ => Panic interface_conversion end
  | 11 => match e with Vuint16 z => Ok z | _ => Panic interface_conversion end
  | 13 => match e with Vuint32 z => Ok z | _ => Panic interface_conversion end
  | 15 =>
      match e with
      | Vuint64 z => Ok (to_signed 64 z)
      | _ => Panic interface_conversion
      end
  | _ => Panic "unable to convert matrix to int64 array"
  end.

Fixpoint IntArray_loop (class : mxClass) (vs : list Value) : res (list Z) :=
  match vs with
  | [] => Ok []
  | e :: vs =>
      let* z := IntArray_item class e in
      let* rest := IntArray_loop class vs in
      Ok (z :: rest)
  end.

Definition IntArray (m : Matrix) : res (list Z) :=
  IntArray_loop (Class m) (value m).

Definition DoubleArray_item (class : mxClass) (e : Value) : res float64 :=
  match class with
  | 6 =>
      match e with
      | Vfloat64 b => Ok (float64_frombits b)
      | _ => Panic interface_conversion
      end
  | 7 =>
      match e with
      | Vfloat32 b => Ok (float64_of_float32 b)
      | _ => Panic interface_conversion
      end
  | _ => Panic "unable to convert matrix to double array"
  end.

Fixpoint DoubleArray_loop (class : mxClass) (vs : list Value) : res (list float64) :=
  match vs with
  | [] => Ok []
  | e :: vs =>
      let* x := DoubleArray_item class e in
      let* rest := DoubleArray_loop class vs in
      Ok (x :: rest)
  end.

Definition DoubleArray (m : Matrix) : res (list float64) :=
  DoubleArray_loop (Class m) (value m).

(** ** Concrete byte strings *)

Definition byte_of_N (n : N) : byte := byte_of_Z (Z.of_N n).

(** The byte string with the given byte values. *)
Definition bytes_of (l : list N) : list byte := List.map byte_of_N l.

(** ** A reader of an inflated stream *)

(** A reader that behaves as the reader of [compress/zlib] does: it holds
    the inflated bytes in the windows in which the decompressor flushes them,
    a call hands out bytes of the current window only, however long the slice,
    and the last bytes of the stream come together with [io.EOF]. *)
Record Inflated : Type := mkInflated { inf_windows : list (list byte) }.

Fixpoint Inflated_Read (n : Z) (ws : list (list byte))
    : list byte * option error * Inflated :=
  match ws with
  | [] => ([], Some EOF, mkInflated [])
  | [] :: ws => Inflated_Read n ws
  | (b :: w) :: ws =>
      let rest :=
        match skipn (Z.to_nat n) (b :: w) with
        | [] => ws
        | c :: w' => (c :: w') :: ws
        end in
      (firstn (Z.to_nat n) (b :: w),
       match concat rest with [] => Some EOF | _ :: _ => None end,
       mkInflated rest)
  end.

#[export] Instance Inflated_io : io_Reader Inflated.
Proof.
  refine {| io_Read := fun n rdr => Inflated_Read n (inf_windows rdr) |}.
  - intros n [ws] got err rdr' Hn. cbn [inf_windows].
    induction ws as [|[|b w] ws IH]; cbn [Inflated_Read]; intros H.
    + injection H as <- _ _. cbn [length]. lia.
    + apply IH. exact H.
    + injection H as <- _ _. rewrite length_firstn. lia.
  - intros n [ws] got rdr' Hn. cbn [inf_windows].
    induction ws as [|[|b w] ws IH]; cbn [Inflated_Read]; intros H.
    + discriminate H.
    + apply IH. exact H.
    + injection H as <- _ _.
      destruct (Z.to_nat n) as [|k] eqn:Hk; [lia | discriminate].
Defined.

(** Stand-ins for the library collaborators, used where a statement is run
    on concrete bytes: a [zlib.NewReader] that takes its input for the
    inflated stream and hands it out as a buffer does ([zlib_verbatim]) or as
    the reader of [compress/zlib] does, in one window ([zlib_stored]); a
    [time.Parse] that keeps the text it is given; and a [strings.TrimSpace]
    for ASCII blanks. *)
Definition zlib_verbatim (buf : list byte) : Reader + error := inl (NewBuffer buf).

Definition zlib_stored (buf : list byte) : Inflated + error :=
  inl (mkInflated [buf]).

Definition time_text (layout value : string) : string + error := inl value.

Definition is_blank (a : ascii) : bool :=
  let n := Z.of_N (N_of_ascii a) in between 9 13 n || (n =? 32).

Fixpoint trim_left (s : string) : string :=
  match s with
  | String a s' => if is_blank a then trim_left s' else s
  | EmptyString => EmptyString
  end.

Fixpoint trim_right (s : string) : string :=
  match s with
  | EmptyString => EmptyString
  | String a s =>
      match trim_right s with
      | EmptyString => if is_blank a then EmptyString else String a EmptyString
      | t => String a t
      end
  end.

Definition trim_blanks (s : string) : string := trim_right (trim_left s).

(** ** Vocabulary of the statements *)

(** The little-endian 16-bit word at bytes [2i] and [2i+1] of a tag. *)
Definition half (i : nat) (tag : list byte) : Z :=
  le_uint (firstn 2 (skipn (2 * i) tag)).

(** The halves that the resolved byte order assigns to the length and to the
    type of a small element. *)
Definition lengthHalf (bo : ByteOrder) (tag : list byte) : Z :=
  if ByteOrder_eqb bo BigEndian then half 0 tag else half 1 tag.

Definition typeHalf (bo : ByteOrder) (tag : list byte) : Z :=
  if ByteOrder_eqb bo BigEndian then half 1 tag else half 0 tag.

(** The 32-bit value of four bytes in a resolved byte order. *)
Definition uint_in (bo : ByteOrder) (bs : list byte) : Z :=
  match bo with
  | BigEndian => be_uint bs
  | _ => le_uint bs
  end.

(** The half of the array-flags payload that holds the flags and the class:
    the little-endian word at bytes 0-1, or at bytes 4-5 under big-endian. *)
Definition flagsAndClass (bo : ByteOrder) (payload : list byte) : Z :=
  if ByteOrder_eqb bo BigEndian then half 2 payload else half 0 payload.

(** [advanced r r']: the reader [r'] is [r] after some of its bytes were taken. *)
Definition advanced (r r' : Reader) : Prop :=
  rd_err r' = rd_err r /\ exists pre, rd_buf r = pre ++ rd_buf r'.

(** A matrix that holds the double 123.0, a character matrix that holds the
    text "hi", and the payload of the cell matrix [Z] that holds the two. *)
Definition matrix_123 : Matrix :=
  mkMatrix "" [1; 1] (mkFlags false false false) mxDOUBLE [Vfloat64 0x405EC00000000000].

Definition matrix_hi : Matrix :=
  mkMatrix "" [1; 2] (mkFlags false false false) mxCHAR [Vuint8 104; Vuint8 105].

Definition cell_sub_elements : list byte :=
  bytes_of [6; 0; 0; 0; 8; 0; 0; 0; 1; 0; 0; 0; 0; 0; 0; 0;
            5; 0; 0; 0; 8; 0; 0; 0; 1; 0; 0; 0; 2; 0; 0; 0;
            1; 0; 1; 0; 90; 0; 0; 0]%N.

Definition cell_children : list byte :=
  bytes_of [14; 0; 0; 0; 48; 0; 0; 0;
            6; 0; 0; 0; 8; 0; 0; 0; 4; 0; 0; 0; 0; 0; 0; 0;
            5; 0; 0; 0; 8; 0; 0; 0; 1; 0; 0; 0; 2; 0; 0; 0;
            1; 0; 0; 0; 0; 0; 0; 0;
            2; 0; 2; 0; 104; 105; 0; 0;
            14; 0; 0; 0; 56; 0; 0; 0;
            6; 0; 0; 0; 8; 0; 0; 0; 6; 0; 0; 0; 0; 0; 0; 0;
            5; 0; 0; 0; 8; 0; 0; 0; 1; 0; 0; 0; 1; 0; 0; 0;
            1; 0; 0; 0; 0; 0; 0; 0;
            9; 0; 0; 0; 8; 0; 0; 0; 0; 0; 0; 0; 0; 192; 94; 64]%N.

Definition cell_payload : list byte := cell_sub_elements ++ cell_children.

(** The two children as elements of a stream, each with its tag, and a
    matrix element of declared length zero: a tag and no body. *)
Definition element_hi : list byte := firstn 56 cell_children.

Definition element_123 : list byte := skipn 56 cell_children.

Definition element_empty : list byte := bytes_of [14; 0; 0; 0; 0; 0; 0; 0]%N.

(** A [miUINT8] element that holds the bytes 7 and 9. *)
Definition element_bytes : list byte :=
  bytes_of [2; 0; 0; 0; 2; 0; 0; 0; 7; 9; 0; 0; 0; 0; 0; 0]%N.

(** The tag of a compressed element of declared length [L < 256]. *)
Definition compressed_tag (L : N) : list byte :=
  bytes_of [15; 0; 0; 0; L; 0; 0; 0]%N.

(** The description text of the test file [qm7.mat], padded with blanks to
    the 116 bytes of the field. *)
Definition qm7_description : list byte :=
  let text := bytes_of_string
    "MATLAB 5.0 MAT-file, Platform: posix, Created on: Mon Feb 18 17:12:08 2013" in
  text ++ repeat " "%byte (116 - length text).

(** The signed 32-bit integers held by the four-byte groups of [l]. *)
Fixpoint int32s (bo : ByteOrder) (l : list byte) : list Z :=
  match l with
  | a :: b :: c :: d :: l => to_signed 32 (uint_in bo [a; b; c; d]) :: int32s bo l
  | _ => []
  end.

(** The mapping after the matrices [ms] are registered in order. *)
Definition register_all (ms : list Matrix) (m : gmap string Matrix)
    : gmap string Matrix :=
  fold_left (fun acc x => <[Name x := x]> acc) ms m.

(** The range of the Go type of a decoded scalar. *)
Definition in_range (v : Value) : Prop :=
  match v with
  | Vint8 z => - 2 ^ 7 <= z < 2 ^ 7
  | Vuint8 z => 0 <= z < 2 ^ 8
  | Vint16 z => - 2 ^ 15 <= z < 2 ^ 15
  | Vuint16 z => 0 <= z < 2 ^ 16
  | Vint32 z => - 2 ^ 31 <= z < 2 ^ 31
  | Vuint32 z => 0 <= z < 2 ^ 32
  | Vint64 z => - 2 ^ 63 <= z < 2 ^ 63
  | Vuint64 z => 0 <= z < 2 ^ 64
  | Vfloat32 b => 0 <= b < 2 ^ 32
  | Vfloat64 b => 0 <= b < 2 ^ 64
  | Vslice _ | VMatrix _ => True
  end.

(** The dynamic type that [IntArray] asserts for the elements of a class. *)
Definition int_constructor (class : mxClass) : option (Z -> Value) :=
  match class with
  | 8 => Some Vint8
  | 10 => Some Vint16
  | 12 => Some Vint32
  | 14 => Some Vint64
  | 9 => Some Vuint8
  | 11 => Some Vuint16
  | 13 => Some Vuint32
  | 15 => Some Vuint64
  | _ => None
  end.

(** The payload of an empty matrix [x] of class double: array flags,
    dimensions 0 by 0, the name, and a data sub-element of length zero. *)
Definition empty_double_payload : list byte :=
  bytes_of [6; 0; 0; 0; 8; 0; 0; 0; 6; 0; 0; 0; 0; 0; 0; 0;
            5; 0; 0; 0; 8; 0; 0; 0; 0; 0; 0; 0; 0; 0; 0; 0;
            1; 0; 0; 0; 1; 0; 0; 0; 120; 0; 0; 0; 0; 0; 0; 0;
            9; 0; 0; 0; 0; 0; 0; 0]%N.

(** * Properties *)

(** ** Reading a block of bytes *)

Lemma readAllBytes_nonpos {R : Type} {HR : io_Reader R} p (rdr : R) :
  p <= 0 -> readAllBytes p rdr = ([], None, rdr).
Proof.
  intros Hp. unfold readAllBytes.
  destruct (Z.to_nat p); simpl; destruct (Z.gtb_spec p 0); try lia; reflexivity.
Qed.

(** A reader that still holds [p] bytes hands over exactly those. *)
Lemma readAllBytes_exact p pre rest e :
  Z.of_nat (length pre) = p ->
  readAllBytes p (mkReader (pre ++ rest) e) = (pre, None, mkReader rest e).
Proof.
  intros Hlen. destruct (Z.le_gt_cases p 0) as [Hp|Hp].
  - rewrite readAllBytes_nonpos by lia.
    destruct pre; [reflexivity | simpl in Hlen; lia].
  - unfold readAllBytes.
    destruct (Z.to_nat p) as [|k] eqn:Hk; [lia|].
    cbn [readAllBytes_loop].
    destruct (Z.gtb_spec p 0); [|lia].
    change (@io_Read Reader Reader_io) with Read; unfold Read; cbn [rd_buf rd_err].
    destruct pre as [|b pre]; [simpl in Hlen; lia|].
    cbn [app].
    assert (Hn : Z.to_nat p = length (b :: pre)) by lia.
    rewrite Hn.
    change (b :: pre ++ rest) with ((b :: pre) ++ rest).
    rewrite firstn_app, Nat.sub_diag, firstn_all, firstn_O, app_nil_r.
    rewrite skipn_app, Nat.sub_diag, skipn_all, skipn_O.
    cbn [app]. rewrite Hlen, Z.sub_diag.
    destruct k; reflexivity.
Qed.

(** A reader that holds fewer than [p] bytes is drained and an error comes back. *)
Lemma readAllBytes_short p rdr :
  Z.of_nat (length (rd_buf rdr)) < p ->
  exists buf e, readAllBytes p rdr = (buf, Some e, mkReader [] (rd_err rdr)).
Proof.
  intros Hlen. destruct rdr as [l e]. cbn [rd_buf rd_err] in *.
  assert (Hp : 0 < p) by lia.
  unfold readAllBytes.
  destruct (Z.to_nat p) as [|k] eqn:Hk; [lia|].
  cbn [readAllBytes_loop]. destruct (Z.gtb_spec p 0); [|lia].
  change (@io_Read Reader Reader_io) with Read; unfold Read at 1; cbn [rd_buf rd_err].
  destruct l as [|b l].
  - change (Z.of_nat (length (@nil byte))) with 0. rewrite Z.sub_0_r.
    destruct (String.eqb e "EOF").
    + destruct (Z.eqb_spec p 0); [lia|]. rewrite Z.eqb_refl.
      do 2 eexists; reflexivity.
    + do 2 eexists; reflexivity.
  - rewrite firstn_all2 by lia. rewrite skipn_all2 by lia.
    remember (Z.of_nat (length (b :: l))) as n eqn:Hn.
    assert (0 < n) by (subst n; simpl; lia).
    destruct k as [|k]; [lia|].
    cbn [readAllBytes_loop].
    destruct (Z.gtb_spec (p - n) 0); [|lia].
    change (@io_Read Reader Reader_io) with Read; unfold Read; cbn [rd_buf rd_err].
    change (Z.of_nat (length (@nil byte))) with 0. rewrite Z.sub_0_r.
    destruct (String.eqb e "EOF").
    + destruct (Z.eqb_spec (p - n) 0); [lia|].
      destruct (Z.eqb_spec p (p - n)); do 2 eexists; reflexivity.
    + do 2 eexists; reflexivity.
Qed.

(** A successful read of [p] bytes took exactly the next [p] bytes. *)
Lemma readAllBytes_Some p rdr buf rdr' :
  readAllBytes p rdr = (buf, None, rdr') ->
  rd_buf rdr = buf ++ rd_buf rdr' /\ rd_err rdr' = rd_err rdr
  /\ Z.of_nat (length buf) = Z.max 0 p.
Proof.
  intros H. destruct (Z.le_gt_cases p 0) as [Hp|Hp].
  - rewrite readAllBytes_nonpos in H by lia. inversion H; subst.
    split; [reflexivity|]. split; [reflexivity|]. simpl. lia.
  - destruct (Z.lt_ge_cases (Z.of_nat (length (rd_buf rdr))) p) as [Hs|Hs].
    + destruct (readAllBytes_short p rdr Hs) as (b & e & Hb). congruence.
    + destruct rdr as [l e]. cbn [rd_buf rd_err] in *.
      rewrite <- (firstn_skipn (Z.to_nat p) l) in H.
      rewrite readAllBytes_exact in H by (rewrite length_firstn; lia).
      inversion H; subst. cbn [rd_buf rd_err].
      rewrite firstn_skipn. split; [reflexivity|]. split; [reflexivity|].
      rewrite length_firstn. lia.
Qed.

(** Whatever the outcome, [readAllBytes] only takes bytes off the front. *)
Lemma readAllBytes_suffix p rdr buf err rdr' :
  readAllBytes p rdr = (buf, err, rdr') ->
  rd_err rdr' = rd_err rdr /\ exists pre, rd_buf rdr = pre ++ rd_buf rdr'.
Proof.
  intros H. destruct err as [e|].
  - destruct (Z.lt_ge_cases (Z.of_nat (length (rd_buf rdr))) p) as [Hs|Hs].
    + destruct (readAllBytes_short p rdr Hs) as (b & e' & Hb).
      rewrite Hb in H. inversion H; subst. cbn [rd_buf rd_err].
      split; [reflexivity|]. exists (rd_buf rdr). now rewrite app_nil_r.
    + destruct rdr as [l e0]. cbn [rd_buf rd_err] in *.
      destruct (Z.le_gt_cases p 0) as [Hp|Hp].
      * rewrite readAllBytes_nonpos in H by lia. discriminate.
      * rewrite <- (firstn_skipn (Z.to_nat p) l) in H.
        rewrite readAllBytes_exact in H by (rewrite length_firstn; lia).
        discriminate.
  - apply readAllBytes_Some in H as (H1 & H2 & _). eauto.
Qed.

(** ** The tag reader *)

Ltac explode_list l H :=
  repeat (let b := fresh "b" in destruct l as [|b l]; [discriminate H|]);
  try (destruct l; [clear H | discriminate H]).

Lemma slice_ok lo hi (l : list byte) :
  0 <= lo -> lo <= hi -> hi <= Z.of_nat (length l) ->
  slice lo hi l = Ok (firstn (Z.to_nat (hi - lo)) (skipn (Z.to_nat lo) l)).
Proof.
  intros H1 H2 H3. unfold slice.
  destruct (Z.leb_spec 0 lo); [|lia].
  destruct (Z.leb_spec lo hi); [|lia].
  destruct (Z.leb_spec hi (Z.of_nat (length l))); [|lia].
  reflexivity.
Qed.

Lemma decodeTag_unfold bo tag :
  length tag = 8%nat ->
  decodeTag bo tag =
    if negb (lengthHalf bo tag =? 0) then
      let* w := NumBytes (typeHalf bo tag) in
      let* sdeContent :=
        parseMulti (typeHalf bo tag) bo (skipn 4 tag) (Z.quot (lengthHalf bo tag) w) in
      Ok (Some (mkSmall (typeHalf bo tag) (Vslice sdeContent)), DataTypeUnknown, 0)
    else
      let* dataType := Uint32 bo (firstn 4 tag) in
      let* len := Uint32 bo (skipn 4 tag) in
      Ok (None, dataType, len).
Proof.
  intros H. explode_list tag H.
  unfold decodeTag, lengthHalf, typeHalf, half.
  destruct bo; reflexivity.
Qed.

Lemma readTag_exact bo tag rest e :
  length tag = 8%nat ->
  readTag bo (mkReader (tag ++ rest) e) = (decodeTag bo tag, mkReader rest e).
Proof.
  intros H. unfold readTag. rewrite readAllBytes_exact by (rewrite H; reflexivity).
  reflexivity.
Qed.


(** Every outcome of [readTag] other than the error of a failed read comes
    from decoding the next eight bytes, which are consumed. *)
Lemma readTag_inv bo r out r' :
  readTag bo r = (out, r') ->
  rd_err r' = rd_err r /\
  ((exists e pre, out = Error e /\ rd_buf r = pre ++ rd_buf r') \/
   (exists tag, length tag = 8%nat /\ rd_buf r = tag ++ rd_buf r'
                /\ out = decodeTag bo tag)).
Proof.
  unfold readTag. destruct (readAllBytes 8 r) as [[buf err] r1] eqn:Hr.
  destruct err as [e|]; intros H; inversion H; subst.
  - apply readAllBytes_suffix in Hr as (He & pre & Hpre). split; [exact He|].
    left. eauto.
  - apply readAllBytes_Some in Hr as (Hb & He & Hl). split; [exact He|].
    right. exists buf. split; [lia|]. split; [exact Hb | reflexivity].
Qed.

(** ** The payload decoder *)

(** The type codes that have a byte width. *)
Lemma NumBytes_Ok t w :
  NumBytes t = Ok w ->
  In (t, w) [(1, 1); (2, 1); (16, 1); (3, 2); (4, 2); (17, 2); (5, 4); (6, 4);
             (18, 4); (7, 4); (9, 8); (12, 8); (13, 8)].
Proof.
  intros H. unfold NumBytes in H.
  destruct t as [|p|p]; try discriminate H.
  do 5 (try (destruct p as [p|p|]; try discriminate H));
    inversion H; subst; simpl; tauto.
Qed.

Lemma NumBytes_pos t w : NumBytes t = Ok w -> 0 < w.
Proof.
  intros H. apply NumBytes_Ok in H. simpl in H.
  repeat (destruct H as [H|H]; [inversion H; lia|]). contradiction.
Qed.

Lemma parseContent_ok t bo w chunk :
  NumBytes t = Ok w -> t <> DTmiUTF32 -> resolved bo ->
  Z.of_nat (length chunk) = w ->
  exists v, parseContent t bo chunk = Ok v.
Proof.
  intros H Ht Hbo Hlen. apply NumBytes_Ok in H. simpl in H.
  repeat (destruct H as [H|H];
    [injection H as <- <-;
     try (exfalso; apply Ht; reflexivity);
     assert (Hn : length chunk = Z.to_nat (Z.of_nat (length chunk))) by lia;
     rewrite Hlen in Hn; simpl in Hn; explode_list chunk Hn;
     destruct Hbo; subst bo; eexists; reflexivity|]).
  contradiction.
Qed.

Lemma length_slice lo hi (l chunk : list byte) :
  slice lo hi l = Ok chunk -> Z.of_nat (length chunk) = hi - lo.
Proof.
  unfold slice.
  destruct (Z.leb_spec 0 lo); [|discriminate].
  destruct (Z.leb_spec lo hi); [|discriminate].
  destruct (Z.leb_spec hi (Z.of_nat (length l))); [|discriminate].
  cbn [andb]. intros Heq; inversion Heq; subst.
  rewrite length_firstn, length_skipn. lia.
Qed.

(** [k] chunks of [w] bytes from index [i] on decode when they fit in [data]. *)
Lemma parseMulti_from_ok t bo w data k : forall i,
  NumBytes t = Ok w -> t <> DTmiUTF32 -> resolved bo -> 0 <= i ->
  (i + Z.of_nat k) * w <= Z.of_nat (length data) ->
  exists vals, parseMulti_from k i t bo data = Ok vals /\ length vals = k.
Proof.
  induction k as [|k IH]; intros i Hw Ht Hbo Hi Hfit.
  - exists []. split; reflexivity.
  - pose proof (NumBytes_pos _ _ Hw) as Hpos.
    cbn [parseMulti_from]. rewrite Hw. cbn [res_bind].
    rewrite slice_ok by nia. cbn [res_bind].
    destruct (parseContent_ok t bo w
                (firstn (Z.to_nat ((i + 1) * w - i * w)) (skipn (Z.to_nat (i * w)) data)))
      as [v Hv]; try assumption.
    { rewrite length_firstn, length_skipn. nia. }
    rewrite Hv. cbn [res_bind].
    destruct (IH (i + 1)) as (vals & Hvals & Hl); try assumption; try lia.
    rewrite Hvals. cbn [res_bind]. exists (v :: vals). split; [reflexivity|].
    simpl. now rewrite Hl.
Qed.

(** The [j]-th scalar of [parseMulti] is [parseContent] of the [j]-th chunk. *)
Lemma parseMulti_from_nth t bo w data k : forall i vals,
  NumBytes t = Ok w ->
  parseMulti_from k i t bo data = Ok vals ->
  length vals = k /\
  forall j v, nth_error vals j = Some v ->
    exists chunk,
      slice ((i + Z.of_nat j) * w) ((i + Z.of_nat j + 1) * w) data = Ok chunk
      /\ parseContent t bo chunk = Ok v.
Proof.
  induction k as [|k IH]; intros i vals Hw H.
  - inversion H; subst. split; [reflexivity|]. intros [|j] v Hj; discriminate.
  - cbn [parseMulti_from] in H. rewrite Hw in H. cbn [res_bind] in H.
    destruct (slice (i * w) ((i + 1) * w) data) as [chunk| |] eqn:Hs;
      try discriminate H. cbn [res_bind] in H.
    destruct (parseContent t bo chunk) as [v0| |] eqn:Hv; try discriminate H.
    cbn [res_bind] in H.
    destruct (parseMulti_from k (i + 1) t bo data) as [rest| |] eqn:Hr;
      try discriminate H.
    inversion H; subst. destruct (IH (i + 1) rest Hw Hr) as [Hl Hn].
    split; [simpl; now rewrite Hl|].
    intros [|j] v Hj.
    + inversion Hj; subst. exists chunk. rewrite Z.add_0_r. auto.
    + destruct (Hn j v Hj) as (c & Hc1 & Hc2). exists c.
      replace (i + Z.of_nat (S j)) with (i + 1 + Z.of_nat j) by lia. auto.
Qed.

Lemma le_uint_nonneg bs : 0 <= le_uint bs.
Proof.
  induction bs as [|b bs IH]; [reflexivity|]. cbn [le_uint].
  apply Z.lor_nonneg. split.
  - unfold byte_to_Z. lia.
  - apply Z.shiftl_nonneg. exact IH.
Qed.

Lemma lengthHalf_nonneg bo tag : 0 <= lengthHalf bo tag.
Proof. unfold lengthHalf, half. destruct (ByteOrder_eqb _ _); apply le_uint_nonneg. Qed.

Lemma NumBytes_Panic t :
  (forall w, NumBytes t <> Ok w) ->
  NumBytes t =
    Panic ("Cannot get NumBytes of variable length type: " +:+ DataType_String t).
Proof.
  intros H. unfold NumBytes in *.
  destruct t as [|p|p]; try reflexivity;
  do 5 (try (destruct p as [p|p|]; try reflexivity));
    exfalso; eapply H; reflexivity.
Qed.

Lemma Uint32_resolved bo (bs : list byte) :
  resolved bo -> length bs = 4%nat -> Uint32 bo bs = Ok (uint_in bo bs).
Proof.
  intros Hbo H. explode_list bs H. destruct Hbo; subst bo; reflexivity.
Qed.

(** ** The equations of the element reader *)

Section Equations.

Context {ZR : Type} {HZR : io_Reader ZR}.
Variable zlib_NewReader : list byte -> ZR + error.

Lemma readElement_S fuel {R : Type} {HR : io_Reader R} bo (r : R) :
  readElement zlib_NewReader (S fuel) bo r =
      let++ ((sde, dt, p), r) := Some (readTag bo r) in
      match sde with
      | Some s => Some (Ok (PtrSmall (Some s)), r)
      | None =>
          if dt =? DTmiCOMPRESSED then
            let '(buf, err, r) := readAllBytes p r in
            match err with
            | Some e => Some (Error e, r)
            | None =>
                match zlib_NewReader buf with
                | inr e => Some (Error e, r)
                | inl cr =>
                    match readAllElements_loop zlib_NewReader fuel bo cr [] with
                    | None => None
                    | Some (Ok [el], _) => Some (Ok el, r)
                    | Some (Ok _, _) =>
                        Some (Panic "This library assumes compressed elements have exactly one sub element", r)
                    | Some (Error e, _) => Some (Error e, r)
                    | Some (Panic msg, _) => Some (Panic msg, r)
                    end
                end
            end
          else if dt =? DTmiMATRIX then
            let '(data, err, r) := readAllBytes p r in
            match err with
            | Some e => Some (Error e, r)
            | None =>
                match miMatrix zlib_NewReader fuel bo data with
                | None => None
                | Some m => Some (let* m := m in Ok (PtrMatrix m), r)
                end
            end
          else
            let p := padTo64Bit p in
            let '(buf, err, r) := readAllBytes p r in
            match err with
            | Some e => Some (Error e, r)
            | None =>
                Some (let* content := parseContent dt bo buf in
                      Ok (PtrSub (mkSub dt content)), r)
            end
      end.
Proof. reflexivity. Qed.

Lemma readAllElements_loop_S fuel {R : Type} {HR : io_Reader R} bo (r : R) acc :
  readAllElements_loop zlib_NewReader (S fuel) bo r acc =
      match readElement zlib_NewReader fuel bo r with
      | None => None
      | Some (Ok el, r) => readAllElements_loop zlib_NewReader fuel bo r (acc ++ [el])
      | Some (Error e, r) =>
          if String.eqb e "EOF" then Some (Ok acc, r) else Some (Error e, r)
      | Some (Panic msg, r) => Some (Panic msg, r)
      end.
Proof. reflexivity. Qed.

Lemma miMatrix_S fuel bo data :
  miMatrix zlib_NewReader (S fuel) bo data =
      option_map fst (
      let++ ((flags, class), r) := Some (arrayFlags bo (NewBuffer data)) in
      let++ (dim, r) := Some (dimensionsArray bo r) in
      let++ ((name, err), r) := Some (arrayName bo r) in
      match not_EOF err with
      | Some e => Some (Error e, r)
      | None =>
        let++ (val, r) :=
          if class =? mxSPARSE then Some (Panic "Sparse matrix unsupported", r)
          else if class =? mxCELL then
            let++ (elements, r) := readAllElements_loop zlib_NewReader fuel bo r [] in
            Some (cell_values elements, r)
          else if class =? mxSTRUCT then Some (Panic "Struct matrix unsupported", r)
          else if class =? mxOBJECT then Some (Panic "Object matrix unsupported", r)
          else
            Some (
            let+ (pr, r) := readNumericalData bo r in
            let+ (_, r) :=
              if isComplex flags then
                match readNumericalData bo r with
                | (Error e, r) =>
                    match not_EOF (Some e) with
                    | Some e => (Error e, r)
                    | None => (Ok tt, r)
                    end
                | (Ok _, r) => (Ok tt, r)
                | (Panic msg, r) => (Panic msg, r)
                end
              else (Ok tt, r) in
            (let* v := Element_Value pr in
             match v with
             | Vslice l => Ok l
             | _ => Panic "interface conversion: interface {} is not []interface {}"
             end, r))
        in
        Some (Ok (mkMatrix name dim flags class val), r)
      end).
Proof. reflexivity. Qed.

End Equations.

(** C1 (amended).  A tag of eight bytes is split into the little-endian
    halves of bytes 0-1 and 2-3, assigned (type, length) and swapped under
    big-endian.  With a zero length half the reader returns the normal tag
    made of bytes 0-3 and 4-7 as 32-bit values in the resolved byte order.
    With a nonzero length half, a type half that has a byte width [w], and a
    payload of [count = length / w] scalars that fits the four inline bytes
    (no UTF-32 scalar among them), it returns the small element of that type
    whose value is the [count] scalars decoded chunk by chunk from bytes 4-7.
    In both cases exactly the eight bytes of the tag are consumed. *)
Theorem readTag_small_or_normal bo tag rest e :
  resolved bo -> length tag = 8%nat ->
  let r := mkReader (tag ++ rest) e in
  let r' := mkReader rest e in
  (lengthHalf bo tag = 0 ->
     readTag bo r =
       (Ok (None, uint_in bo (firstn 4 tag), uint_in bo (skipn 4 tag)), r')) /\
  (lengthHalf bo tag <> 0 ->
     forall w, NumBytes (typeHalf bo tag) = Ok w ->
     let count := Z.quot (lengthHalf bo tag) w in
     count * w <= 4 ->
     typeHalf bo tag <> DTmiUTF32 \/ count = 0 ->
     exists vals,
       readTag bo r =
         (Ok (Some (mkSmall (typeHalf bo tag) (Vslice vals)), DataTypeUnknown, 0), r')
       /\ Z.of_nat (length vals) = count
       /\ forall j v, nth_error vals j = Some v ->
            exists chunk,
              slice (Z.of_nat j * w) ((Z.of_nat j + 1) * w) (skipn 4 tag) = Ok chunk
              /\ parseContent (typeHalf bo tag) bo chunk = Ok v).
Proof.
  intros Hbo Hlen r r'. subst r r'.
  rewrite readTag_exact by exact Hlen.
  rewrite decodeTag_unfold by exact Hlen.
  split.
  - intros H0. rewrite H0. cbn [Z.eqb negb].
    rewrite !Uint32_resolved; try assumption.
    + reflexivity.
    + rewrite length_skipn, Hlen. reflexivity.
    + rewrite length_firstn, Hlen. reflexivity.
  - intros Hne w Hw count Hfit Hutf.
    destruct (Z.eqb_spec (lengthHalf bo tag) 0) as [|_]; [contradiction|].
    cbn [negb]. rewrite Hw. cbn [res_bind]. fold count.
    pose proof (NumBytes_pos _ _ Hw) as Hpos.
    pose proof (lengthHalf_nonneg bo tag) as Hnn.
    assert (Hc : 0 <= count) by (subst count; apply Z.quot_pos; lia).
    unfold parseMulti. destruct (Z.ltb_spec count 0) as [|_]; [lia|].
    assert (Hok : exists vals,
               parseMulti_from (Z.to_nat count) 0 (typeHalf bo tag) bo (skipn 4 tag)
                 = Ok vals).
    { destruct (Z.eq_dec count 0) as [Hz|Hz].
      - rewrite Hz. exists []. reflexivity.
      - destruct Hutf as [Hutf|Hutf]; [|contradiction].
        destruct (parseMulti_from_ok (typeHalf bo tag) bo w (skipn 4 tag)
                    (Z.to_nat count) 0 Hw Hutf Hbo) as (vals & Hv & _).
        + lia.
        + rewrite length_skipn, Hlen. simpl. lia.
        + eauto. }
    destruct Hok as [vals Hvals]. exists vals. rewrite Hvals. cbn [res_bind].
    split; [reflexivity|].
    destruct (parseMulti_from_nth _ _ _ _ _ _ _ Hw Hvals) as [Hl Hn].
    split; [lia|]. intros j v Hj. destruct (Hn j v Hj) as (chunk & H1 & H2).
    exists chunk. rewrite !Z.add_0_l in H1. auto.
Qed.

Lemma readTag_small_or_normal_witness :
  exists vals,
    readTag LittleEndian (NewBuffer (bytes_of [1; 0; 4; 0; 65; 66; 67; 255; 9]%N)) =
      (Ok (Some (mkSmall DTmiINT8 (Vslice vals)), DataTypeUnknown, 0),
       NewBuffer (bytes_of [9]%N))
    /\ Z.of_nat (length vals) = 4.
Proof.
  destruct (readTag_small_or_normal LittleEndian
              (bytes_of [1; 0; 4; 0; 65; 66; 67; 255]%N) (bytes_of [9]%N) EOF
              (or_introl eq_refl) eq_refl) as [_ Hsmall].
  assert (H1 : lengthHalf LittleEndian (bytes_of [1; 0; 4; 0; 65; 66; 67; 255]%N) <> 0)
    by (vm_compute; discriminate).
  assert (H2 : NumBytes (typeHalf LittleEndian (bytes_of [1; 0; 4; 0; 65; 66; 67; 255]%N))
               = Ok 1)
    by (vm_compute; reflexivity).
  destruct (Hsmall H1 1 H2) as (vals & Hread & Hlen & _).
  - vm_compute. discriminate.
  - left. vm_compute. discriminate.
  - exists vals. vm_compute in Hread, Hlen. vm_compute.
    split; [exact Hread | exact Hlen].
Defined.

(** C1 as stated fails: the length half of this little-endian tag is 4 and
    its type half is the matrix code, and the reader panics instead of
    returning a small element. *)
Lemma readTag_small_matrix_tag_panics :
  lengthHalf LittleEndian (bytes_of [14; 0; 4; 0; 0; 0; 0; 0]%N) = 4 /\
  typeHalf LittleEndian (bytes_of [14; 0; 4; 0; 0; 0; 0; 0]%N) = DTmiMATRIX /\
  readTag LittleEndian (NewBuffer (bytes_of [14; 0; 4; 0; 0; 0; 0; 0]%N)) =
    (Panic "Cannot get NumBytes of variable length type: miMATRIX", NewBuffer []).
Proof. repeat split; vm_compute; reflexivity. Qed.

(** A small element that announces more than its four inline bytes runs the
    payload decoder off the end of the tag. *)
Example readTag_small_overlong_panics :
  readTag LittleEndian (NewBuffer (bytes_of [1; 0; 8; 0; 65; 66; 67; 68]%N)) =
    (Panic "runtime error: slice bounds out of range", NewBuffer []).
Proof. vm_compute. reflexivity. Qed.

(** Under big-endian the halves swap roles but are still read little-endian:
    the type half of a big-endian small [miINT8] element reads as 256. *)
Example readTag_big_endian_small :
  typeHalf BigEndian (bytes_of [0; 1; 0; 1; 65; 0; 0; 0]%N) = 256 /\
  readTag BigEndian (NewBuffer (bytes_of [1; 0; 1; 0; 65; 0; 0; 0]%N)) =
    (Ok (Some (mkSmall DTmiINT8 (Vslice [Vint8 65])), DataTypeUnknown, 0),
     NewBuffer []).
Proof. split; vm_compute; reflexivity. Qed.

(** C10.  When the length half of a tag is nonzero and its type half has no
    byte width, [readTag] panics with the message of [NumBytes]; the panic is
    what [readElement], [readAllElements] and the lookups [GetVar] and
    [GetVarsNames] of an unread file produce when the tag is the next thing
    in the stream. *)
Theorem readTag_small_without_width_panics
    {ZR : Type} {HZR : io_Reader ZR} (zlib_NewReader : list byte -> ZR + error)
    Time fuel bo tag rest e (f : File Time) name :
  length tag = 8%nat ->
  lengthHalf bo tag <> 0 ->
  (forall w, NumBytes (typeHalf bo tag) <> Ok w) ->
  let r := mkReader (tag ++ rest) e in
  let r' := mkReader rest e in
  let msg := "Cannot get NumBytes of variable length type: "
             +:+ DataType_String (typeHalf bo tag) in
  readTag bo r = (Panic msg, r') /\
  readElement zlib_NewReader (S fuel) bo r = Some (Panic msg, r') /\
  readAllElements zlib_NewReader (S (S fuel)) bo r = Some (Panic msg, r') /\
  (hasReadAll f = false -> File_r f = r ->
   Endianess (File_Header f) = bo ->
   GetVar zlib_NewReader (S (S fuel)) f name =
     Some (Panic msg, set_r r' (set_hasReadAll true f)) /\
   GetVarsNames zlib_NewReader (S (S fuel)) f =
     Some (Panic msg, set_r r' (set_hasReadAll true f))).
Proof.
  intros Hlen Hne Hw r r' msg.
  assert (Htag : readTag bo r = (Panic msg, r')).
  { subst r r' msg. rewrite readTag_exact by exact Hlen.
    rewrite decodeTag_unfold by exact Hlen.
    destruct (Z.eqb_spec (lengthHalf bo tag) 0) as [|_]; [contradiction|].
    cbn [negb]. rewrite (NumBytes_Panic _ Hw). reflexivity. }
  assert (Hel : readElement zlib_NewReader (S fuel) bo r = Some (Panic msg, r')).
  { rewrite readElement_S. rewrite Htag. reflexivity. }
  assert (Hall : readAllElements zlib_NewReader (S (S fuel)) bo r = Some (Panic msg, r')).
  { unfold readAllElements. rewrite readAllElements_loop_S. rewrite Hel. reflexivity. }
  split; [exact Htag|]. split; [exact Hel|]. split; [exact Hall|].
  intros Hunread Hr Hbo. unfold GetVar, GetVarsNames, readAll.
  rewrite Hunread. cbn [negb].
  cbn [set_hasReadAll File_Header File_r]. rewrite Hr, Hbo, Hall.
  split; reflexivity.
Qed.

Lemma readTag_small_without_width_panics_witness :
  let f := mkFile (mkHeader "5.0" "posix" tt LittleEndian)
             (NewBuffer (bytes_of [14; 0; 4; 0; 0; 0; 0; 0]%N)) false ∅ in
  readTag LittleEndian (File_r f) =
    (Panic "Cannot get NumBytes of variable length type: miMATRIX", NewBuffer [])
  /\ GetVar zlib_verbatim 2 f "x" =
       Some (Panic "Cannot get NumBytes of variable length type: miMATRIX",
             set_r (NewBuffer []) (set_hasReadAll true f)).
Proof.
  intros f.
  assert (H1 : lengthHalf LittleEndian (bytes_of [14; 0; 4; 0; 0; 0; 0; 0]%N) <> 0)
    by (vm_compute; discriminate).
  assert (H2 : forall w, NumBytes (typeHalf LittleEndian
                                     (bytes_of [14; 0; 4; 0; 0; 0; 0; 0]%N)) <> Ok w)
    by (intros w; vm_compute; discriminate).
  destruct (readTag_small_without_width_panics zlib_verbatim unit 0 LittleEndian
              (bytes_of [14; 0; 4; 0; 0; 0; 0; 0]%N) [] EOF f "x" eq_refl H1 H2)
    as (Htag & _ & _ & Hget).
  destruct (Hget eq_refl eq_refl eq_refl) as [Hvar _].
  vm_compute in Htag, Hvar. vm_compute. split; [exact Htag | exact Hvar].
Defined.

(** ** The array flags *)

(** What [arrayFlags] returns on a well-formed sub-element, in terms of the
    flags word. *)
Lemma arrayFlags_exact bo tag payload rest e :
  length tag = 8%nat -> length payload = 8%nat ->
  decodeTag bo tag = Ok (None, DTmiUINT32, 8) ->
  arrayFlags bo (mkReader (tag ++ payload ++ rest) e) =
    (Ok (mkFlags (Z.shiftr (flagsAndClass bo payload) 9 =? 1)
                 (Z.shiftr (flagsAndClass bo payload) 11 =? 1)
                 (Z.shiftr (flagsAndClass bo payload) 10 =? 1),
         Z.land (flagsAndClass bo payload) 0xFF),
     mkReader rest e).
Proof.
  intros Ht Hp Hd. unfold arrayFlags.
  rewrite readTag_exact by exact Ht. rewrite Hd. cbn [rd_bind].
  change (negb (DTmiUINT32 =? DTmiUINT32)) with false. cbn [negb Z.eqb Pos.eqb].
  rewrite readAllBytes_exact by (rewrite Hp; reflexivity).
  explode_list payload Hp. destruct bo; reflexivity.
Qed.

(** The test [x>>k == 1] holds when bit [k] is the highest bit set in [x]:
    a set bit above it switches the flag off. *)
Lemma shiftr_eqb_1 x k :
  0 <= x -> 0 <= k ->
  (Z.shiftr x k =? 1) = true <-> Z.testbit x k = true /\ x < 2 ^ (k + 1).
Proof.
  intros Hx Hk. rewrite Z.eqb_eq, Z.shiftr_div_pow2 by lia.
  rewrite Z.testbit_true by lia.
  assert (Hpow : 2 ^ (k + 1) = 2 ^ k * 2)
    by (rewrite Z.pow_add_r by lia; reflexivity).
  rewrite Hpow. remember (2 ^ k) as m eqn:Hm.
  assert (H2k : 0 < m) by (subst m; apply Z.pow_pos_nonneg; lia).
  pose proof (Z.div_mod x m ltac:(lia)) as Hdm.
  pose proof (Z.mod_pos_bound x m H2k) as Hr.
  assert (Hq : 0 <= x / m) by (apply Z.div_pos; lia).
  remember (x / m) as q. split.
  - intros H. subst q. rewrite H in *. split; [reflexivity | nia].
  - intros [Hbit Hlt].
    assert (q = 0 \/ q = 1) as [H0|H1] by nia; [|exact H1].
    rewrite H0 in Hbit. discriminate.
Qed.

(** C3 (the code departs from it).  The flags word [0x0609] of a global
    logical [uint8] array has bits 9 and 10 set; [arrayFlags] reports the
    array as global but not as logical, because it compares the whole shifted
    word with 1 instead of testing one bit.  The class is the low byte. *)
Theorem arrayFlags_global_logical_array :
  flagsAndClass LittleEndian (bytes_of [9; 6; 0; 0; 0; 0; 0; 0]%N) = 0x0609 /\
  Z.testbit 0x0609 9 = true /\ Z.testbit 0x0609 10 = true /\
  Z.testbit 0x0609 11 = false /\
  arrayFlags LittleEndian
    (NewBuffer (bytes_of [6; 0; 0; 0; 8; 0; 0; 0; 9; 6; 0; 0; 0; 0; 0; 0]%N)) =
    (Ok (mkFlags false false true, mxUINT8), NewBuffer []).
Proof. repeat split; vm_compute; reflexivity. Qed.

(** ** Padding *)

Lemma int_wrap_small z : 0 <= z < 2 ^ 63 -> int_wrap z = z.
Proof.
  intros Hz. unfold int_wrap, to_signed.
  change (2 ^ 63) with 9223372036854775808 in Hz.
  change (2 ^ 64) with 18446744073709551616.
  change (2 ^ (64 - 1)) with 9223372036854775808.
  rewrite Z.mod_small by lia.
  destruct (Z.ltb_spec z 9223372036854775808); [reflexivity | lia].
Qed.

(** Where the multiplication does not overflow, up to [MaxInt64 - 7]. *)
Lemma padTo64Bit_spec p :
  0 <= p <= 2 ^ 63 - 8 -> padTo64Bit p mod 8 = 0 /\ p <= padTo64Bit p < p + 8.
Proof.
  intros Hp. unfold padTo64Bit.
  rewrite Z.rem_mod_nonneg, Z.quot_div_nonneg by lia.
  pose proof (Z.div_mod p 8 ltac:(lia)). pose proof (Z.mod_pos_bound p 8 ltac:(lia)).
  assert (Hq : forall offset, (offset = 0 /\ p mod 8 = 0) \/ (offset = 1 /\ p mod 8 <> 0) ->
            int_wrap ((p / 8 + offset) * 8) = (p / 8 + offset) * 8).
  { intros offset Ho. apply int_wrap_small.
    change (2 ^ 63) with 9223372036854775808 in *. lia. }
  destruct (Z.eqb_spec (p mod 8) 0); cbn [negb];
    (rewrite Hq by (auto; lia)); (split; [apply Z.mod_mul; lia | lia]).
Qed.

(** The declared lengths of tags are below [2 ^ 32] and far from it. *)
Lemma padTo64Bit_spec32 p :
  0 <= p < 2 ^ 32 -> padTo64Bit p mod 8 = 0 /\ p <= padTo64Bit p < p + 8.
Proof.
  intros Hp. apply padTo64Bit_spec.
  change (2 ^ 32) with 4294967296 in Hp. change (2 ^ 63) with 9223372036854775808.
  lia.
Qed.

(** ** The element reader on a plain element *)

Section ElementReader.

Context {ZR : Type} {HZR : io_Reader ZR}.
Variable zlib_NewReader : list byte -> ZR + error.

(** On a normal tag of a type other than matrix and compressed, the element
    reader takes the padded block off the stream and hands the whole block
    to [parseContent], which decodes one scalar from its front. *)
Lemma readElement_plain fuel bo tag dt L block rest e :
  length tag = 8%nat ->
  decodeTag bo tag = Ok (None, dt, L) ->
  dt <> DTmiCOMPRESSED -> dt <> DTmiMATRIX ->
  Z.of_nat (length block) = padTo64Bit L ->
  readElement zlib_NewReader (S fuel) bo (mkReader (tag ++ block ++ rest) e) =
    Some (let* content := parseContent dt bo block in Ok (PtrSub (mkSub dt content)),
          mkReader rest e).
Proof.
  intros Ht Hd Hc Hm Hb. rewrite readElement_S.
  rewrite readTag_exact by exact Ht. rewrite Hd. cbn [fuel_bind].
  destruct (Z.eqb_spec dt DTmiCOMPRESSED); [contradiction|].
  destruct (Z.eqb_spec dt DTmiMATRIX); [contradiction|].
  rewrite readAllBytes_exact by exact Hb. reflexivity.
Qed.

End ElementReader.

(** C2 (the code departs from it).  A [miUINT8] element of declared length 2
    with payload bytes 7 and 9: the element reader consumes the padded block
    of eight bytes, but its value is the single scalar 7 and not the sequence
    of [L / w = 2] scalars that the payload decoder yields on the first [L]
    bytes. *)
Theorem readElement_plain_decodes_one_scalar :
  let stream := bytes_of [2; 0; 0; 0; 2; 0; 0; 0; 7; 9; 0; 0; 0; 0; 0; 0; 1]%N in
  readTag LittleEndian (NewBuffer stream) =
    (Ok (None, DTmiUINT8, 2), NewBuffer (bytes_of [7; 9; 0; 0; 0; 0; 0; 0; 1]%N)) /\
  padTo64Bit 2 = 8 /\
  readElement zlib_verbatim 1 LittleEndian (NewBuffer stream) =
    Some (Ok (PtrSub (mkSub DTmiUINT8 (Vuint8 7))), NewBuffer (bytes_of [1]%N)) /\
  parseMulti DTmiUINT8 LittleEndian (bytes_of [7; 9]%N) 2 = Ok [Vuint8 7; Vuint8 9].
Proof. repeat split; vm_compute; reflexivity. Qed.

(** With a declared length smaller than the width, the scalar is decoded from
    padding bytes; with a declared length of zero, from no byte at all. *)
Example readElement_plain_reads_padding :
  readElement zlib_verbatim 1 LittleEndian
    (NewBuffer (bytes_of [5; 0; 0; 0; 1; 0; 0; 0; 7; 1; 1; 1; 0; 0; 0; 0]%N)) =
    Some (Ok (PtrSub (mkSub DTmiINT32 (Vint32 0x01010107))), NewBuffer []).
Proof. vm_compute. reflexivity. Qed.

Example readElement_plain_empty_panics :
  readElement zlib_verbatim 1 LittleEndian
    (NewBuffer (bytes_of [2; 0; 0; 0; 0; 0; 0; 0]%N)) =
    Some (Panic "runtime error: index out of range", NewBuffer []).
Proof. vm_compute. reflexivity. Qed.

(** ** The recursion budget *)

Section Budget.

Context {ZR : Type} {HZR : io_Reader ZR}.
Variable zlib_NewReader : list byte -> ZR + error.

(** A result obtained with some budget is the result with one more. *)
Lemma budget_step fuel :
  (forall (R : Type) (HR : io_Reader R) bo (r : R) x,
     readElement zlib_NewReader fuel bo r = Some x ->
     readElement zlib_NewReader (S fuel) bo r = Some x) /\
  (forall (R : Type) (HR : io_Reader R) bo (r : R) acc x,
     readAllElements_loop zlib_NewReader fuel bo r acc = Some x ->
     readAllElements_loop zlib_NewReader (S fuel) bo r acc = Some x) /\
  (forall bo data x,
     miMatrix zlib_NewReader fuel bo data = Some x ->
     miMatrix zlib_NewReader (S fuel) bo data = Some x).
Proof.
  induction fuel as [|fuel (IHel & IHloop & IHmat)].
  - repeat split; intros; discriminate.
  - remember (S fuel) as n eqn:Hn. split; [|split].
    + intros R HR bo r x H. rewrite readElement_S. rewrite Hn in H.
      rewrite readElement_S in H.
      destruct (readTag bo r) as [[[[sde dt] p]|e|msg] r1]; cbn [fuel_bind] in *;
        try exact H.
      destruct sde; [exact H|].
      destruct (dt =? DTmiCOMPRESSED).
      * destruct (readAllBytes p r1) as [[buf err] r2]. destruct err; [exact H|].
        destruct (zlib_NewReader buf) as [cr|e]; [|exact H].
        destruct (readAllElements_loop zlib_NewReader fuel bo cr []) as [y|] eqn:E;
          [|discriminate H].
        rewrite (IHloop _ _ _ _ _ _ E). exact H.
      * destruct (dt =? DTmiMATRIX); [|exact H].
        destruct (readAllBytes p r1) as [[buf err] r2]. destruct err; [exact H|].
        destruct (miMatrix zlib_NewReader fuel bo buf) as [y|] eqn:E; [|discriminate H].
        rewrite (IHmat _ _ _ E). exact H.
    + intros R HR bo r acc x H. rewrite readAllElements_loop_S.
      rewrite Hn in H. rewrite readAllElements_loop_S in H.
      destruct (readElement zlib_NewReader fuel bo r) as [y|] eqn:E; [|discriminate H].
      rewrite (IHel _ _ _ _ _ E). destruct y as [[el|e|msg] r1]; try exact H.
      apply IHloop. exact H.
    + intros bo data x H. rewrite miMatrix_S. rewrite Hn in H. rewrite miMatrix_S in H.
      destruct (arrayFlags bo (NewBuffer data)) as [[[flags class]|e|msg] r1];
        cbn [fuel_bind] in *; try exact H.
      destruct (dimensionsArray bo r1) as [[dim|e|msg] r2];
        cbn [fuel_bind] in *; try exact H.
      destruct (arrayName bo r2) as [[[name err]|e|msg] r3];
        cbn [fuel_bind] in *; try exact H.
      destruct (not_EOF err); [exact H|].
      destruct (class =? mxSPARSE); [exact H|].
      destruct (class =? mxCELL); [|exact H].
      destruct (readAllElements_loop zlib_NewReader fuel bo r3 []) as [y|] eqn:E;
        [|discriminate H].
      rewrite (IHloop _ _ _ _ _ _ E). exact H.
Qed.

Lemma readElement_budget fuel fuel' {R : Type} {HR : io_Reader R} bo (r : R) x :
  (fuel <= fuel')%nat ->
  readElement zlib_NewReader fuel bo r = Some x ->
  readElement zlib_NewReader fuel' bo r = Some x.
Proof.
  induction 1 as [|fuel' _ IH]; [trivial|].
  intros H. apply budget_step, IH, H.
Qed.

Lemma readAllElements_budget fuel fuel' {R : Type} {HR : io_Reader R} bo (r : R) x :
  (fuel <= fuel')%nat ->
  readAllElements zlib_NewReader fuel bo r = Some x ->
  readAllElements zlib_NewReader fuel' bo r = Some x.
Proof.
  unfold readAllElements. induction 1 as [|fuel' _ IH]; [trivial|].
  intros H. apply budget_step, IH, H.
Qed.

Lemma miMatrix_budget fuel fuel' bo data x :
  (fuel <= fuel')%nat ->
  miMatrix zlib_NewReader fuel bo data = Some x ->
  miMatrix zlib_NewReader fuel' bo data = Some x.
Proof.
  induction 1 as [|fuel' _ IH]; [trivial|].
  intros H. apply budget_step, IH, H.
Qed.

End Budget.

(** ** The matrix decoder *)

Section MatrixDecoder.

Context {ZR : Type} {HZR : io_Reader ZR}.
Variable zlib_NewReader : list byte -> ZR + error.

Lemma miMatrix_unsupported_fails fuel bo data flags class r1 :
  arrayFlags bo (NewBuffer data) = (Ok (flags, class), r1) ->
  class = mxSTRUCT \/ class = mxOBJECT \/ class = mxSPARSE ->
  exists out, miMatrix zlib_NewReader (S fuel) bo data = Some out /\ is_failure out.
Proof.
  intros Hflags Hclass. rewrite miMatrix_S. rewrite Hflags. cbn [fuel_bind].
  destruct (dimensionsArray bo r1) as [[dim|e|msg] r2]; cbn [fuel_bind option_map fst];
    [|eexists; split; [reflexivity|exact I]..].
  destruct (arrayName bo r2) as [[[name err]|e|msg] r3];
    cbn [fuel_bind option_map fst];
    [|eexists; split; [reflexivity|exact I]..].
  destruct (not_EOF err); cbn [fuel_bind option_map fst];
    [eexists; split; [reflexivity|exact I]|].
  destruct Hclass as [-> | [-> | ->]]; cbn; eexists; (split; [reflexivity|exact I]).
Qed.

End MatrixDecoder.

(** C6.  A matrix whose array flags carry the class struct, object or sparse
    is never decoded: with any budget that lets the decoder run, it ends in an
    error or a panic, and with no budget at all does it return a [Matrix]. *)
Theorem miMatrix_unsupported_class {ZR : Type} {HZR : io_Reader ZR} (zlib_NewReader : list byte -> ZR + error)
    bo data flags class r1 :
  arrayFlags bo (NewBuffer data) = (Ok (flags, class), r1) ->
  class = mxSTRUCT \/ class = mxOBJECT \/ class = mxSPARSE ->
  (forall fuel, exists out,
     miMatrix zlib_NewReader (S fuel) bo data = Some out /\ is_failure out) /\
  (forall fuel m, miMatrix zlib_NewReader fuel bo data <> Some (Ok m)).
Proof.
  intros Hflags Hclass. split.
  - intros fuel. eapply miMatrix_unsupported_fails; eassumption.
  - intros [|fuel] m; [discriminate|].
    destruct (miMatrix_unsupported_fails zlib_NewReader fuel bo data flags class r1
                Hflags Hclass) as (out & Hout & Hfail).
    rewrite Hout. intros Heq. inversion Heq; subst. exact Hfail.
Qed.

Lemma miMatrix_unsupported_class_witness :
  let data := bytes_of [6; 0; 0; 0; 8; 0; 0; 0; 2; 0; 0; 0; 0; 0; 0; 0;
                        5; 0; 0; 0; 8; 0; 0; 0; 1; 0; 0; 0; 1; 0; 0; 0;
                        1; 0; 1; 0; 115; 0; 0; 0]%N in
  miMatrix zlib_verbatim 1 LittleEndian data = Some (Panic "Struct matrix unsupported")
  /\ forall fuel m, miMatrix zlib_verbatim fuel LittleEndian data <> Some (Ok m).
Proof.
  intros data.
  assert (Hflags : arrayFlags LittleEndian (NewBuffer data) =
                     (Ok (mkFlags false false false, mxSTRUCT),
                      NewBuffer (skipn 16 data)))
    by (vm_compute; reflexivity).
  destruct (miMatrix_unsupported_class zlib_verbatim LittleEndian data _ _ _ Hflags
              (or_introl eq_refl)) as [_ Hnever].
  split; [vm_compute; reflexivity | exact Hnever].
Defined.

(** ** Readers only move forward *)

Lemma advanced_refl r : advanced r r.
Proof. split; [reflexivity|]. exists []. reflexivity. Qed.

Lemma advanced_trans r1 r2 r3 : advanced r1 r2 -> advanced r2 r3 -> advanced r1 r3.
Proof.
  intros [He1 [p1 Hp1]] [He2 [p2 Hp2]]. split; [congruence|].
  exists (p1 ++ p2). rewrite Hp1, Hp2. now rewrite app_assoc.
Qed.

Lemma readAllBytes_advanced p r buf err r' :
  readAllBytes p r = (buf, err, r') -> advanced r r'.
Proof. intros H. apply readAllBytes_suffix in H. exact H. Qed.

Lemma readTag_advanced bo r out r' : readTag bo r = (out, r') -> advanced r r'.
Proof.
  intros H. apply readTag_inv in H as [He [(e & pre & _ & Hp)|(tag & _ & Hp & _)]];
    (split; [exact He | eauto]).
Qed.

Lemma arrayFlags_advanced bo r out r' : arrayFlags bo r = (out, r') -> advanced r r'.
Proof.
  unfold arrayFlags. destruct (readTag bo r) as [[[[sde dt] p]|e|msg] r1] eqn:Ht;
    cbn [rd_bind]; apply readTag_advanced in Ht.
  - destruct (negb (dt =? DTmiUINT32)); [intros H; inversion H; subst; exact Ht|].
    destruct (negb (p =? 8)); [intros H; inversion H; subst; exact Ht|].
    destruct (readAllBytes 8 r1) as [[buf err] r2] eqn:Hb.
    apply readAllBytes_advanced in Hb.
    destruct err; intros H; inversion H; subst; eapply advanced_trans; eassumption.
  - intros H; inversion H; subst; exact Ht.
  - intros H; inversion H; subst; exact Ht.
Qed.

Lemma dimensionsArray_advanced bo r out r' :
  dimensionsArray bo r = (out, r') -> advanced r r'.
Proof.
  unfold dimensionsArray. destruct (readTag bo r) as [[[[sde dt] p]|e|msg] r1] eqn:Ht;
    cbn [rd_bind]; apply readTag_advanced in Ht.
  - destruct (negb (dt =? DTmiINT32)); [intros H; inversion H; subst; exact Ht|].
    destruct (readAllBytes (padTo64Bit p) r1) as [[buf err] r2] eqn:Hb.
    apply readAllBytes_advanced in Hb.
    destruct err; intros H; inversion H; subst; eapply advanced_trans; eassumption.
  - intros H; inversion H; subst; exact Ht.
  - intros H; inversion H; subst; exact Ht.
Qed.

Lemma arrayName_advanced bo r out r' : arrayName bo r = (out, r') -> advanced r r'.
Proof.
  unfold arrayName. destruct (readTag bo r) as [[[[sde dt] p]|e|msg] r1] eqn:Ht;
    apply readTag_advanced in Ht.
  - destruct sde as [sde|].
    + destruct (sde_value sde); intros H; inversion H; subst; exact Ht.
    + destruct (negb (dt =? DTmiINT8)); [intros H; inversion H; subst; exact Ht|].
      destruct (readAllBytes (padTo64Bit p) r1) as [[buf err] r2] eqn:Hb.
      apply readAllBytes_advanced in Hb.
      intros H; inversion H; subst; eapply advanced_trans; eassumption.
  - intros H; inversion H; subst; exact Ht.
  - intros H; inversion H; subst; exact Ht.
Qed.

(** ** Cell matrices *)

Lemma cell_values_matrices ms :
  cell_values (List.map PtrMatrix ms) = Ok (List.map VMatrix ms).
Proof.
  induction ms as [|m ms IH]; [reflexivity|].
  cbn [List.map cell_values assert_Matrix res_bind]. rewrite IH. reflexivity.
Qed.

Lemma cell_values_other elements e :
  In e elements -> (forall m, e <> PtrMatrix m) ->
  exists dynamic, cell_values elements = Panic (not_Matrix dynamic).
Proof.
  induction elements as [|x elements IH]; intros Hin Hne; [contradiction|].
  cbn [cell_values]. destruct x as [p|s|s|m]; try (eexists; reflexivity).
  cbn [assert_Matrix res_bind]. destruct Hin as [Heq|Hin].
  - exfalso. eapply Hne. symmetry. exact Heq.
  - destruct (IH Hin Hne) as [dynamic ->]. eexists; reflexivity.
Qed.

(** The cell matrix in terms of the run over the rest of its payload: once
    the array flags (of class cell), the dimensions and the name are read,
    the element reader runs over the bytes that remain.  When the run yields
    matrices only, the value of the decoded matrix is those matrices in
    order; when one of the elements it yields is not a matrix, decoding
    panics; and the failures of the run are those of the decoding.  The
    outcome is the same with every larger budget.  What the run yields on
    the children that the payload holds is another matter. *)
Lemma miMatrix_cell_run {ZR : Type} {HZR : io_Reader ZR}
    (zlib_NewReader : list byte -> ZR + error)
    fuel bo data flags r1 dim r2 name err r3 :
  arrayFlags bo (NewBuffer data) = (Ok (flags, mxCELL), r1) ->
  dimensionsArray bo r1 = (Ok dim, r2) ->
  arrayName bo r2 = (Ok (name, err), r3) ->
  not_EOF err = None ->
  advanced (NewBuffer data) r3 /\
  match readAllElements zlib_NewReader fuel bo r3 with
  | None => miMatrix zlib_NewReader (S fuel) bo data = None
  | Some (out, _) =>
      forall fuel', (fuel < fuel')%nat ->
      match out with
      | Ok elements =>
          (forall ms, elements = List.map PtrMatrix ms ->
             miMatrix zlib_NewReader fuel' bo data =
               Some (Ok (mkMatrix name dim flags mxCELL (List.map VMatrix ms)))) /\
          (forall e, In e elements -> (forall m, e <> PtrMatrix m) ->
             exists msg, miMatrix zlib_NewReader fuel' bo data = Some (Panic msg))
      | Error e => miMatrix zlib_NewReader fuel' bo data = Some (Error e)
      | Panic msg => miMatrix zlib_NewReader fuel' bo data = Some (Panic msg)
      end
  end.
Proof.
  intros Hflags Hdim Hname Herr. split.
  - eapply advanced_trans; [eapply arrayFlags_advanced; eassumption|].
    eapply advanced_trans; [eapply dimensionsArray_advanced; eassumption|].
    eapply arrayName_advanced; eassumption.
  - assert (Hrun : miMatrix zlib_NewReader (S fuel) bo data =
              match readAllElements zlib_NewReader fuel bo r3 with
              | None => None
              | Some (Ok elements, _) =>
                  Some (let* val := cell_values elements in
                        Ok (mkMatrix name dim flags mxCELL val))
              | Some (Error e, _) => Some (Error e)
              | Some (Panic msg, _) => Some (Panic msg)
              end).
    { rewrite miMatrix_S. rewrite Hflags. cbn [fuel_bind]. rewrite Hdim. cbn [fuel_bind].
      rewrite Hname. cbn [fuel_bind]. rewrite Herr.
      change (mxCELL =? mxSPARSE) with false. change (mxCELL =? mxCELL) with true.
      cbn match. unfold readAllElements.
      destruct (readAllElements_loop zlib_NewReader fuel bo r3 [])
        as [[[elements|e|msg] r4]|]; cbn [fuel_bind option_map fst]; try reflexivity.
      destruct (cell_values elements); reflexivity. }
    destruct (readAllElements zlib_NewReader fuel bo r3) as [[out r4]|];
      [|exact Hrun].
    intros fuel' Hfuel.
    assert (Hmore : forall x, miMatrix zlib_NewReader (S fuel) bo data = Some x ->
                              miMatrix zlib_NewReader fuel' bo data = Some x)
      by (intros x; apply miMatrix_budget; lia).
    destruct out as [elements|e|msg]; try (apply Hmore; exact Hrun).
    split.
    + intros ms ->. apply Hmore. rewrite Hrun, cell_values_matrices. reflexivity.
    + intros e Hin Hne. destruct (cell_values_other _ _ Hin Hne) as [dynamic Hv].
      eexists. apply Hmore. rewrite Hrun, Hv. reflexivity.
Qed.

(** C5 (the code departs from it).  The payload of the cell matrix [Z]
    with three children in its stream: the character matrix "hi", a matrix
    element of declared length zero, and the matrix that holds 123.  Each of
    the three has a well-formed tag of type matrix, and the first and the
    last decode on their own.  The matrix decoder reports [EOF] for the empty
    body of the second, and the loop of [readAllElements] takes that error
    for the end of the stream: the cell is decoded, without an error, to a
    value that holds the first child only; with the empty element in front
    the value holds no child at all.  Without such an element the value is
    the children in stream order, be they two or three, and a child that is
    not a matrix is a panic.  The outcomes are those of every budget from six
    on, with whatever zlib reader. *)
Theorem miMatrix_cell_drops_children {ZR : Type} {HZR : io_Reader ZR}
    (zlib_NewReader : list byte -> ZR + error) fuel :
  let element children :=
    readElement zlib_NewReader (6 + fuel) LittleEndian (NewBuffer children) in
  let cell children :=
    miMatrix zlib_NewReader (6 + fuel) LittleEndian (cell_sub_elements ++ children) in
  let Z_of val :=
    Some (Ok (mkMatrix "Z" [1; 2] (mkFlags false false false) mxCELL val)) in
  (element element_hi = Some (Ok (PtrMatrix matrix_hi), NewBuffer []) /\
   element element_123 = Some (Ok (PtrMatrix matrix_123), NewBuffer []) /\
   readTag LittleEndian (NewBuffer element_empty) =
     (Ok (None, DTmiMATRIX, 0), NewBuffer []) /\
   element element_empty = Some (Error EOF, NewBuffer [])) /\
  (cell (element_hi ++ element_empty ++ element_123) = Z_of [VMatrix matrix_hi] /\
   cell (element_empty ++ element_hi ++ element_123) = Z_of []) /\
  (cell (element_hi ++ element_123) = Z_of [VMatrix matrix_hi; VMatrix matrix_123] /\
   cell (element_123 ++ element_hi ++ element_123) =
     Z_of [VMatrix matrix_123; VMatrix matrix_hi; VMatrix matrix_123] /\
   cell (element_hi ++ element_bytes) =
     Some (Panic "interface conversion: matlab.Element is *matlab.subElement, not *matlab.Matrix")).
Proof.
  cbv zeta.
  assert (Hel : forall children x,
            readElement zlib_NewReader 6 LittleEndian (NewBuffer children) = Some x ->
            readElement zlib_NewReader (6 + fuel) LittleEndian (NewBuffer children) =
              Some x)
    by (intros children x; apply readElement_budget; lia).
  assert (Hcell : forall data x,
            miMatrix zlib_NewReader 6 LittleEndian data = Some x ->
            miMatrix zlib_NewReader (6 + fuel) LittleEndian data = Some x)
    by (intros data x; apply miMatrix_budget; lia).
  repeat split;
    first [ apply Hel; vm_compute; reflexivity
          | apply Hcell; vm_compute; reflexivity
          | vm_compute; reflexivity ].
Qed.

(** A cell whose payload goes on with an element that is not a matrix. *)
Example miMatrix_cell_with_scalar :
  miMatrix zlib_verbatim 4 LittleEndian
    (cell_sub_elements ++ bytes_of [2; 0; 2; 0; 104; 105; 0; 0]%N) =
    Some (Panic "interface conversion: matlab.Element is *matlab.smallDataElement, not *matlab.Matrix").
Proof. vm_compute. reflexivity. Qed.

(** ** Compressed elements *)

(** The compressed element in terms of the run over the inflated stream:
    on a normal tag of type compressed and declared length [L], the element
    reader takes exactly the next [L] bytes off a buffer, without padding,
    and hands them to the zlib reader; it runs the element reader over the
    reader of the inflated stream, of whatever kind; a run that yields one
    element makes it the element returned, a run that yields any other number
    is a panic, and the failures of the zlib reader and of the run are
    failures of the element.  The outcome is the same with every larger
    budget.  What the run yields on the elements that the inflated stream
    holds is another matter. *)
Lemma readElement_compressed_run {ZR : Type} {HZR : io_Reader ZR}
    (zlib_NewReader : list byte -> ZR + error)
    fuel bo tag raw rest e L :
  length tag = 8%nat ->
  decodeTag bo tag = Ok (None, DTmiCOMPRESSED, L) ->
  Z.of_nat (length raw) = L ->
  let r := mkReader (tag ++ raw ++ rest) e in
  let r' := mkReader rest e in
  match zlib_NewReader raw with
  | inr err =>
      forall fuel', readElement zlib_NewReader (S fuel') bo r = Some (Error err, r')
  | inl cr =>
      match readAllElements zlib_NewReader fuel bo cr with
      | None => readElement zlib_NewReader (S fuel) bo r = None
      | Some (out, _) =>
          forall fuel', (fuel < fuel')%nat ->
          match out with
          | Ok elements =>
              (forall el, elements = [el] ->
                 readElement zlib_NewReader fuel' bo r = Some (Ok el, r')) /\
              (length elements <> 1%nat ->
                 readElement zlib_NewReader fuel' bo r =
                   Some (Panic "This library assumes compressed elements have exactly one sub element", r'))
          | Error err => readElement zlib_NewReader fuel' bo r = Some (Error err, r')
          | Panic msg => readElement zlib_NewReader fuel' bo r = Some (Panic msg, r')
          end
      end
  end.
Proof.
  intros Ht Hd Hraw r r'.
  assert (Hrun : forall n, readElement zlib_NewReader (S n) bo r =
            match zlib_NewReader raw with
            | inr err => Some (Error err, r')
            | inl cr =>
                match readAllElements zlib_NewReader n bo cr with
                | None => None
                | Some (Ok [el], _) => Some (Ok el, r')
                | Some (Ok _, _) =>
                    Some (Panic "This library assumes compressed elements have exactly one sub element", r')
                | Some (Error err, _) => Some (Error err, r')
                | Some (Panic msg, _) => Some (Panic msg, r')
                end
            end).
  { intros n. subst r r'. rewrite readElement_S.
    rewrite readTag_exact by exact Ht. rewrite Hd. cbn [fuel_bind].
    change (DTmiCOMPRESSED =? DTmiCOMPRESSED) with true. cbn match.
    rewrite readAllBytes_exact by exact Hraw. reflexivity. }
  destruct (zlib_NewReader raw) as [cr|err]; [|exact Hrun].
  specialize (Hrun fuel).
  destruct (readAllElements zlib_NewReader fuel bo cr) as [[out r4]|]; [|exact Hrun].
  intros fuel' Hfuel.
  assert (Hmore : forall x, readElement zlib_NewReader (S fuel) bo r = Some x ->
                            readElement zlib_NewReader fuel' bo r = Some x)
    by (intros x; apply readElement_budget; lia).
  destruct out as [elements|err|msg]; try (apply Hmore; exact Hrun).
  split.
  - intros el ->. apply Hmore. exact Hrun.
  - intros Hlen. apply Hmore. rewrite Hrun.
    destruct elements as [|el [|el' elements]];
      [reflexivity | exfalso; apply Hlen; reflexivity | reflexivity].
Qed.

(** C4 (the code departs from it).  A compressed element of declared
    length [L = length raw] whose [L] raw bytes a zlib reader inflates to the
    stream [inflated], which it hands out as the reader of [compress/zlib]
    does a stream that fits its window.  When the stream holds three elements,
    the matrix that holds 123, a matrix element of declared length zero and
    the character matrix "hi", the element reader returns the first of them
    and no error: the matrix decoder reports [EOF] for the empty body of the
    second, and the loop of [readAllElements] takes that error for the end of
    the stream.  When the stream holds the empty element and then the matrix,
    the run yields no element and the outcome is the panic.  Without such an
    element a stream of two elements or of none is the panic, and a stream of
    one element yields that element.  In each case exactly the [L] raw bytes
    are taken off the outer stream, and the outcome is that of every budget
    from five on. *)
Theorem readElement_compressed_accepts_three
    (zlib_NewReader : list byte -> Inflated + error) fuel tag raw rest e inflated :
  length tag = 8%nat ->
  decodeTag LittleEndian tag = Ok (None, DTmiCOMPRESSED, Z.of_nat (length raw)) ->
  zlib_NewReader raw = inl (mkInflated [inflated]) ->
  let out :=
    readElement zlib_NewReader (5 + fuel) LittleEndian
      (mkReader (tag ++ raw ++ rest) e) in
  let one_sub_element :=
    Panic "This library assumes compressed elements have exactly one sub element" in
  (inflated = element_123 ++ element_empty ++ element_hi ->
     out = Some (Ok (PtrMatrix matrix_123), mkReader rest e)) /\
  (inflated = element_empty ++ element_123 ->
     out = Some (one_sub_element, mkReader rest e)) /\
  (inflated = element_123 ++ element_hi ->
     out = Some (one_sub_element, mkReader rest e)) /\
  (inflated = element_123 ->
     out = Some (Ok (PtrMatrix matrix_123), mkReader rest e)) /\
  (inflated = [] ->
     out = Some (one_sub_element, mkReader rest e)).
Proof.
  intros Ht Hd Hz. cbv zeta.
  pose proof (readElement_compressed_run zlib_NewReader 4 LittleEndian
                tag raw rest e _ Ht Hd eq_refl) as H.
  cbv zeta in H. rewrite Hz in H.
  assert (Hrun : forall out r1,
            readAllElements zlib_NewReader 4 LittleEndian (mkInflated [inflated]) =
              Some (Ok out, r1) ->
            (forall el, out = [el] ->
               readElement zlib_NewReader (5 + fuel) LittleEndian
                 (mkReader (tag ++ raw ++ rest) e) = Some (Ok el, mkReader rest e)) /\
            (length out <> 1%nat ->
               readElement zlib_NewReader (5 + fuel) LittleEndian
                 (mkReader (tag ++ raw ++ rest) e) =
                 Some (Panic "This library assumes compressed elements have exactly one sub element",
                       mkReader rest e))).
  { intros out r1 Hout. rewrite Hout in H. apply H. lia. }
  clear H. repeat split; intros ->.
  - eapply Hrun; [vm_compute; reflexivity | reflexivity].
  - eapply Hrun; [vm_compute; reflexivity | discriminate].
  - eapply Hrun; [vm_compute; reflexivity | discriminate].
  - eapply Hrun; [vm_compute; reflexivity | reflexivity].
  - eapply Hrun; [vm_compute; reflexivity | discriminate].
Qed.

Lemma readElement_compressed_accepts_three_witness :
  readElement zlib_stored 5 LittleEndian
    (NewBuffer (compressed_tag 128 ++
                (element_123 ++ element_empty ++ element_hi) ++ bytes_of [7]%N)) =
    Some (Ok (PtrMatrix matrix_123), NewBuffer (bytes_of [7]%N)).
Proof.
  assert (Ht : length (compressed_tag 128) = 8%nat) by reflexivity.
  assert (Hd : decodeTag LittleEndian (compressed_tag 128) =
                 Ok (None, DTmiCOMPRESSED,
                     Z.of_nat (length (element_123 ++ element_empty ++ element_hi))))
    by (vm_compute; reflexivity).
  assert (Hz : zlib_stored (element_123 ++ element_empty ++ element_hi) =
                 inl (mkInflated [element_123 ++ element_empty ++ element_hi]))
    by reflexivity.
  pose proof (readElement_compressed_accepts_three zlib_stored 0 (compressed_tag 128)
                (element_123 ++ element_empty ++ element_hi) (bytes_of [7]%N) EOF
                (element_123 ++ element_empty ++ element_hi) Ht Hd Hz) as H.
  cbv zeta in H. destruct H as [H _]. exact (H eq_refl).
Defined.

(** An inflated stream of two elements, and one of none. *)
Example readElement_compressed_two :
  readElement zlib_verbatim 5 LittleEndian
    (NewBuffer (bytes_of [15; 0; 0; 0; 120; 0; 0; 0]%N ++ cell_children)) =
    Some (Panic "This library assumes compressed elements have exactly one sub element",
          NewBuffer []).
Proof. vm_compute. reflexivity. Qed.

Example readElement_compressed_none :
  readElement zlib_verbatim 3 LittleEndian
    (NewBuffer (bytes_of [15; 0; 0; 0; 0; 0; 0; 0]%N)) =
    Some (Panic "This library assumes compressed elements have exactly one sub element",
          NewBuffer []).
Proof. vm_compute. reflexivity. Qed.

(** An inflated stream that breaks off inside its second element.  From the
    reader of [compress/zlib] the last bytes come with [io.EOF], the read of
    the body reports the bare [EOF], and the compressed element is the first
    element, without an error; from a buffer the same bytes are an error. *)
Example readElement_compressed_truncated :
  let stream := element_123 ++ firstn 20 element_hi in
  readElement zlib_stored 5 LittleEndian (NewBuffer (compressed_tag 84 ++ stream)) =
    Some (Ok (PtrMatrix matrix_123), NewBuffer []) /\
  readElement zlib_verbatim 5 LittleEndian (NewBuffer (compressed_tag 84 ++ stream)) =
    Some (Error "EOF reached but we're supposed to read 36 more bytes", NewBuffer []).
Proof. split; vm_compute; reflexivity. Qed.

(** ** The registry *)

Section Registry.

Context {ZR : Type} {HZR : io_Reader ZR}.
Variable zlib_NewReader : list byte -> ZR + error.
Variable Time : Type.
Implicit Type f : File Time.

(** Registering elements does not touch the flag and never returns an error. *)
Lemma readAll_register_inv elements : forall f out f',
  readAll_register elements f = (out, f') ->
  hasReadAll f' = hasReadAll f /\ forall e, out <> Error e.
Proof.
  induction elements as [|v elements IH]; intros f out f' H.
  - inversion H; subst. split; [reflexivity | discriminate].
  - cbn [readAll_register] in H.
    destruct v as [[s|]|s|s|m]; cbn [Element_Type assert_Matrix] in H;
      try (destruct (negb (_ =? DTmiMATRIX)));
      try (inversion H; subst; split; [reflexivity | discriminate]).
    apply IH in H. exact H.
Qed.

Lemma readAll_read fuel f :
  hasReadAll f = true -> readAll zlib_NewReader fuel f = Some (Ok tt, f).
Proof. intros H. unfold readAll. rewrite H. reflexivity. Qed.

Lemma GetVar_read fuel f name :
  hasReadAll f = true ->
  GetVar zlib_NewReader fuel f name =
    Some (Ok (vars f !! name, bool_decide (is_Some (vars f !! name))), f).
Proof. intros H. unfold GetVar. rewrite H. reflexivity. Qed.

Lemma readAll_marks fuel f out f' :
  readAll zlib_NewReader fuel f = Some (out, f') -> hasReadAll f' = true.
Proof.
  unfold readAll. destruct (hasReadAll f) eqn:Hf.
  - intros H; inversion H; subst. exact Hf.
  - destruct (readAllElements _ _ _ _) as [[[elements|e|msg] r]|];
      intros H; inversion H; subst; try reflexivity.
    destruct (readAll_register elements _) as [out' f''] eqn:Hreg.
    apply readAll_register_inv in Hreg as [Hreg _].
    inversion H1; subst. rewrite Hreg. reflexivity.
Qed.

Lemma GetVar_marks fuel f name out f' :
  GetVar zlib_NewReader fuel f name = Some (out, f') -> hasReadAll f' = true.
Proof.
  unfold GetVar. destruct (hasReadAll f) eqn:Hf; cbn [negb].
  - intros H; inversion H; subst. exact Hf.
  - destruct (readAll zlib_NewReader fuel f) as [[[[]|e|msg] f1]|] eqn:Hall;
      intros H; inversion H; subst; eapply readAll_marks; eassumption.
Qed.

(** A pass that returns an error leaves the flag set and the mapping as it was. *)
Lemma readAll_Error fuel f e f' :
  hasReadAll f = false ->
  readAll zlib_NewReader fuel f = Some (Error e, f') ->
  hasReadAll f' = true /\ vars f' = vars f /\ File_Header f' = File_Header f.
Proof.
  intros Hf. unfold readAll. rewrite Hf.
  destruct (readAllElements _ _ _ _) as [[[elements|e0|msg] r]|];
    intros H; inversion H; subst.
  - destruct (readAll_register elements _) as [out' f''] eqn:Hreg.
    apply readAll_register_inv in Hreg as [_ Hreg].
    inversion H1; subst. exfalso. eapply Hreg. reflexivity.
  - repeat split; reflexivity.
Qed.

End Registry.

(** C8.  A file in the read state answers every lookup from its mapping and
    is itself left unchanged, reader included, so that repeated lookups of a
    name return equal values and the pass is not run again; and every lookup
    that comes back leaves the file in the read state. *)
Theorem GetVar_read_once {ZR : Type} {HZR : io_Reader ZR} (zlib_NewReader : list byte -> ZR + error)
    Time (f : File Time) :
  (hasReadAll f = true ->
   forall fuel name,
     GetVar zlib_NewReader fuel f name =
       Some (Ok (vars f !! name, bool_decide (is_Some (vars f !! name))), f)
     /\ readAll zlib_NewReader fuel f = Some (Ok tt, f)) /\
  (forall fuel name out f',
     GetVar zlib_NewReader fuel f name = Some (out, f') -> hasReadAll f' = true).
Proof.
  split.
  - intros Hf fuel name. split; [apply GetVar_read | apply readAll_read]; exact Hf.
  - intros fuel name out f'. apply GetVar_marks.
Qed.

Lemma GetVar_read_once_witness :
  let f := mkFile (mkHeader "5.0" "posix" tt LittleEndian)
             (NewBuffer (bytes_of [1; 2; 3]%N)) true
             (<["Z" := matrix_123]> ∅) in
  GetVar zlib_verbatim 0 f "Z" = Some (Ok (Some matrix_123, true), f)
  /\ GetVar zlib_verbatim 0 f "Y" = Some (Ok (None, false), f).
Proof.
  intros f.
  destruct (GetVar_read_once zlib_verbatim unit f) as [Hread _].
  specialize (Hread eq_refl 0%nat).
  split.
  - destruct (Hread "Z") as [Hget _]. rewrite Hget. vm_compute. reflexivity.
  - destruct (Hread "Y") as [Hget _]. rewrite Hget. vm_compute. reflexivity.
Defined.

(** The first lookup on the cell example decodes the file; the second one is
    answered from the mapping and leaves the drained reader alone. *)
Example GetVar_twice :
  let f := mkFile (mkHeader "5.0" "posix" tt LittleEndian)
             (NewBuffer (bytes_of [14; 0; 0; 0; 160; 0; 0; 0]%N ++ cell_payload))
             false ∅ in
  exists m f',
    GetVar zlib_verbatim 8 f "Z" = Some (Ok (Some m, true), f')
    /\ File_r f' = NewBuffer [] /\ hasReadAll f' = true
    /\ GetVar zlib_verbatim 0 f' "Z" = Some (Ok (Some m, true), f')
    /\ Dimension m = [1; 2] /\ value m = [VMatrix matrix_hi; VMatrix matrix_123].
Proof.
  intros f. do 2 eexists. split; [vm_compute; reflexivity|].
  repeat split; vm_compute; reflexivity.
Qed.

(** C7 (amended).  When the pass of a first lookup returns an error, the
    lookup reports the name as absent, the mapping holds no entry of the
    failed pass, and the file is left in the read state: the flag is set, and
    every later lookup is answered from the unchanged mapping without another
    pass. *)
Theorem readAll_failed_pass {ZR : Type} {HZR : io_Reader ZR} (zlib_NewReader : list byte -> ZR + error)
    Time fuel (f : File Time) e f' :
  hasReadAll f = false ->
  readAll zlib_NewReader fuel f = Some (Error e, f') ->
  hasReadAll f' = true /\ vars f' = vars f /\
  (forall name, GetVar zlib_NewReader fuel f name = Some (Ok (None, false), f')) /\
  (forall fuel' name,
     GetVar zlib_NewReader fuel' f' name =
       Some (Ok (vars f !! name, bool_decide (is_Some (vars f !! name))), f')).
Proof.
  intros Hf Hall.
  destruct (readAll_Error zlib_NewReader Time fuel f e f' Hf Hall) as (Hread & Hvars & _).
  split; [exact Hread|]. split; [exact Hvars|]. split.
  - intros name. unfold GetVar. rewrite Hf. cbn [negb]. rewrite Hall. reflexivity.
  - intros fuel' name. rewrite GetVar_read by exact Hread. rewrite Hvars. reflexivity.
Qed.

Lemma readAll_failed_pass_witness :
  let f := mkFile (mkHeader "5.0" "posix" tt LittleEndian)
             (NewBuffer (bytes_of [14; 0; 0]%N)) false ∅ in
  let f' := mkFile (mkHeader "5.0" "posix" tt LittleEndian) (NewBuffer []) true ∅ in
  hasReadAll f' = true /\
  GetVar zlib_verbatim 2 f "x" = Some (Ok (None, false), f').
Proof.
  intros f f'.
  assert (Hall : readAll zlib_verbatim 2 f =
                   Some (Error "EOF reached but we're supposed to read 5 more bytes", f'))
    by (vm_compute; reflexivity).
  destruct (readAll_failed_pass zlib_verbatim unit 2 f _ f' eq_refl Hall)
    as (Hread & _ & Hget & _).
  split; [exact Hread | exact (Hget "x")].
Defined.

(** C7 as stated fails: the stream of this unread file ends inside its first
    tag, the pass of the lookup returns an error, and the file then reports
    itself as read. *)
Lemma GetVar_failed_pass_is_read :
  let f := mkFile (mkHeader "5.0" "posix" tt LittleEndian)
             (NewBuffer (bytes_of [14; 0; 0]%N)) false ∅ in
  hasReadAll f = false /\
  readAll zlib_verbatim 2 f =
    Some (Error "EOF reached but we're supposed to read 5 more bytes",
          mkFile (mkHeader "5.0" "posix" tt LittleEndian) (NewBuffer []) true ∅) /\
  GetVar zlib_verbatim 2 f "x" =
    Some (Ok (None, false),
          mkFile (mkHeader "5.0" "posix" tt LittleEndian) (NewBuffer []) true ∅).
Proof. repeat split; vm_compute; reflexivity. Qed.

(** ** The header *)

Lemma readDescription_Endianess Time zero parse trim buf (h : Header Time) out h' :
  readDescription zero parse trim buf h = (out, h') -> Endianess h' = Endianess h.
Proof.
  unfold readDescription.
  repeat match goal with
         | |- context [let '(_, _) := ?x in _] => destruct x
         | |- context [match ?x with _ => _ end] => destruct x
         | |- context [if ?x then _ else _] => destruct x
         end;
    intros H; inversion H; subst; reflexivity.
Qed.




(** An unknown marker, and a marker in a file that is not level 5. *)
Example readHeader_bad_marker :
  NewFileFromReader "" time_text trim_blanks
    (NewBuffer (qm7_description ++ bytes_of [0; 0; 0; 0; 0; 0; 0; 0; 0; 1; 77; 77]%N)) =
    (Error "invalid byte order setting: MM",
     mkFile (mkHeader "5.0" " posix" "Mon Feb 18 17:12:08 2013" NilByteOrder)
       (NewBuffer []) false ∅).
Proof. vm_compute. reflexivity. Qed.

(** * Further properties of the decoder *)

(** ** Blocks of bytes *)

Lemma readAllBytes_drained p e :
  0 < p ->
  readAllBytes p (mkReader [] e) =
    if String.eqb e "EOF" then (make_bytes p, Some e, mkReader [] e)
    else ([], Some e, mkReader [] e).
Proof.
  intros Hp. unfold readAllBytes.
  destruct (Z.to_nat p) as [|k] eqn:Hk; [lia|].
  cbn [readAllBytes_loop]. destruct (Z.gtb_spec p 0); [|lia].
  change (@io_Read Reader Reader_io) with Read; unfold Read; cbn [rd_buf rd_err].
  change (Z.of_nat (length (@nil byte))) with 0. rewrite Z.sub_0_r.
  destruct (String.eqb e "EOF"); [|reflexivity].
  destruct (Z.eqb_spec p 0); [lia|]. rewrite Z.eqb_refl. reflexivity.
Qed.

Lemma readAllBytes_truncated p data e :
  data <> [] -> Z.of_nat (length data) < p ->
  readAllBytes p (mkReader data e) =
    if String.eqb e "EOF" then
      (make_bytes p,
       Some ("EOF reached but we're supposed to read "
             +:+ fmt_d (p - Z.of_nat (length data)) +:+ " more bytes"),
       mkReader [] e)
    else (data, Some e, mkReader [] e).
Proof.
  intros Hne Hlen. unfold readAllBytes.
  destruct (Z.to_nat p) as [|k] eqn:Hk; [lia|].
  cbn [readAllBytes_loop]. destruct (Z.gtb_spec p 0); [|lia].
  change (@io_Read Reader Reader_io) with Read; unfold Read at 1; cbn [rd_buf rd_err].
  destruct data as [|b l]; [contradiction|].
  rewrite firstn_all2 by lia. rewrite skipn_all2 by lia.
  remember (Z.of_nat (length (b :: l))) as n eqn:Hn.
  assert (0 < n) by (subst n; simpl; lia).
  destruct k as [|k]; [lia|].
  cbn [readAllBytes_loop].
  destruct (Z.gtb_spec (p - n) 0); [|lia].
  change (@io_Read Reader Reader_io) with Read; unfold Read; cbn [rd_buf rd_err].
  change (Z.of_nat (length (@nil byte))) with 0. rewrite !Z.sub_0_r.
  destruct (String.eqb e "EOF"); [|reflexivity].
  destruct (Z.eqb_spec (p - n) 0); [lia|].
  destruct (Z.eqb_spec p (p - n)); [lia|]. reflexivity.
Qed.

(** Every pass of the loop asks the reader for [p] bytes anew, whatever is
    left to read.  A read that succeeds has thus taken at least [p] bytes and
    fewer than [2 p], from a reader of whatever kind. *)
Lemma readAllBytes_loop_length {R : Type} {HR : io_Reader R} fuel :
  forall p remaining buf (rdr : R) out rdr',
  0 < p -> - p < remaining -> remaining <= Z.of_nat fuel ->
  Z.of_nat (length buf) = p - remaining ->
  readAllBytes_loop fuel p remaining buf rdr = (out, None, rdr') ->
  p <= Z.of_nat (length out) < 2 * p.
Proof.
  induction fuel as [|fuel IH]; intros p remaining buf rdr out rdr' Hp Hlo Hhi Hlen;
    cbn [readAllBytes_loop]; destruct (Z.gtb_spec remaining 0) as [Hr|Hr];
    try lia; try (intros H; injection H as <- _; lia).
  destruct (io_Read p rdr) as [[got err] rdr1] eqn:Hread.
  pose proof (io_Read_fits _ _ _ _ _ Hp Hread) as Hfit.
  destruct err as [e|].
  - destruct (String.eqb e "EOF"); [|discriminate].
    destruct (Z.eqb_spec (remaining - Z.of_nat (length got)) 0) as [Hz|Hz].
    + intros H. injection H as <- _. rewrite length_app. lia.
    + destruct (p =? remaining); discriminate.
  - pose proof (io_Read_progress _ _ _ _ Hp Hread) as Hne.
    assert (Hgot : 0 < Z.of_nat (length got))
      by (destruct got; [contradiction | simpl; lia]).
    intros H. eapply IH in H; [exact H | lia | lia | lia | rewrite length_app; lia].
Qed.

(** X1.  From a byte buffer, which fills the slice that [Read] is handed as
    long as it holds bytes, a read of [p > 0] bytes succeeds exactly when the
    buffer still holds [p] bytes; it then returns the next [p] bytes in order
    and leaves the buffer at the byte after them.  From a reader of any kind
    a read that succeeds returns at least [p] bytes and fewer than [2 p]; a
    reader that cuts its reads short can hand over more than [p], see
    [readAllBytes_short_reads]. *)
Theorem readAllBytes_next_bytes p :
  0 < p ->
  (forall rdr : Reader,
     p <= Z.of_nat (length (rd_buf rdr)) ->
     readAllBytes p rdr =
       (firstn (Z.to_nat p) (rd_buf rdr), None,
        mkReader (skipn (Z.to_nat p) (rd_buf rdr)) (rd_err rdr))) /\
  (forall (rdr : Reader) buf rdr',
     readAllBytes p rdr = (buf, None, rdr') ->
     rd_buf rdr = buf ++ rd_buf rdr' /\ Z.of_nat (length buf) = p
     /\ rd_err rdr' = rd_err rdr) /\
  (forall (R : Type) (HR : io_Reader R) (rdr : R) buf rdr',
     readAllBytes p rdr = (buf, None, rdr') ->
     p <= Z.of_nat (length buf) < 2 * p).
Proof.
  intros Hp. split; [|split].
  - intros rdr Hlen. destruct rdr as [l e]. cbn [rd_buf rd_err] in *.
    rewrite <- (firstn_skipn (Z.to_nat p) l) at 1.
    apply readAllBytes_exact. rewrite length_firstn. lia.
  - intros rdr buf rdr' H. apply readAllBytes_Some in H as (H1 & H2 & H3).
    split; [exact H1|]. split; [lia | exact H2].
  - intros R HR rdr buf rdr' H. unfold readAllBytes in H.
    apply readAllBytes_loop_length in H; [exact H | lia | lia | lia | simpl; lia].
Qed.

Lemma readAllBytes_next_bytes_witness :
  readAllBytes 2 (NewBuffer (bytes_of [7; 8; 9]%N)) =
    (bytes_of [7; 8]%N, None, NewBuffer (bytes_of [9]%N)).
Proof.
  destruct (readAllBytes_next_bytes 2 ltac:(lia)) as [Hread _].
  specialize (Hread (NewBuffer (bytes_of [7; 8; 9]%N))).
  assert (Hlen : 2 <= Z.of_nat (length (rd_buf (NewBuffer (bytes_of [7; 8; 9]%N)))))
    by (vm_compute; discriminate).
  specialize (Hread Hlen). vm_compute in Hread. vm_compute. exact Hread.
Defined.

(** The reader of an inflated stream hands out the rest of its window, three
    bytes, to the first pass of a read of four bytes, and the second pass asks
    for four bytes again: seven bytes come back.  The last bytes of the stream
    come with [io.EOF]: they end a read that they complete, and a read that
    they leave short on its first pass reports the bare [EOF] that a run of
    elements takes for the end of the stream, where a buffer reports the
    number of missing bytes. *)
Example readAllBytes_short_reads :
  readAllBytes 4 (mkInflated [bytes_of [1; 2; 3]%N; bytes_of [4; 5; 6; 7; 8; 9]%N]) =
    (bytes_of [1; 2; 3; 4; 5; 6; 7]%N, None, mkInflated [bytes_of [8; 9]%N]) /\
  readAllBytes 3 (mkInflated [bytes_of [1; 2; 3]%N]) =
    (bytes_of [1; 2; 3]%N, None, mkInflated []) /\
  readAllBytes 8 (mkInflated [bytes_of [1; 2; 3]%N]) =
    (bytes_of [1; 2; 3; 0; 0; 0; 0; 0]%N, Some EOF, mkInflated []) /\
  readAllBytes 8 (NewBuffer (bytes_of [1; 2; 3]%N)) =
    (make_bytes 8, Some "EOF reached but we're supposed to read 5 more bytes",
     NewBuffer []).
Proof. repeat split; vm_compute; reflexivity. Qed.

(** X2.  A buffer that holds fewer than [p] bytes is drained and the read
    fails with a block of [p] zero bytes: with the error [EOF] when the
    buffer held nothing, and with an error other than [EOF], which names the
    number of missing bytes, when it held some. *)
Theorem readAllBytes_short_buffer p data :
  Z.of_nat (length data) < p ->
  (data = [] ->
     readAllBytes p (NewBuffer data) = (make_bytes p, Some EOF, NewBuffer [])) /\
  (data <> [] ->
     exists msg,
       readAllBytes p (NewBuffer data) = (make_bytes p, Some msg, NewBuffer [])
       /\ String.eqb msg "EOF" = false
       /\ msg = "EOF reached but we're supposed to read "
                +:+ fmt_d (p - Z.of_nat (length data)) +:+ " more bytes").
Proof.
  intros Hlen. split.
  - intros ->. unfold NewBuffer. rewrite readAllBytes_drained by (simpl in Hlen; lia).
    reflexivity.
  - intros Hne. eexists. unfold NewBuffer.
    rewrite readAllBytes_truncated by assumption.
    split; [reflexivity|]. split; reflexivity.
Qed.

Lemma readAllBytes_short_buffer_witness :
  readAllBytes 8 (NewBuffer []) = (make_bytes 8, Some EOF, NewBuffer []) /\
  readAllBytes 8 (NewBuffer (bytes_of [1; 2; 3]%N)) =
    (make_bytes 8, Some "EOF reached but we're supposed to read 5 more bytes",
     NewBuffer []).
Proof.
  split.
  - destruct (readAllBytes_short_buffer 8 [] ltac:(simpl; lia)) as [Hempty _].
    exact (Hempty eq_refl).
  - destruct (readAllBytes_short_buffer 8 (bytes_of [1; 2; 3]%N)
                ltac:(vm_compute; reflexivity)) as [_ Hsome].
    destruct (Hsome ltac:(vm_compute; discriminate)) as (msg & Hread & _ & Hmsg).
    rewrite Hread, Hmsg. vm_compute. reflexivity.
Defined.

(** X3.  For a length [0 <= p <= MaxInt64 - 7], where the multiplication of
    the code does not overflow, [padTo64Bit p] is the least multiple of 8
    that is not below [p], and padding a padded length changes nothing. *)
Theorem padTo64Bit_least_multiple p :
  0 <= p <= 2 ^ 63 - 8 ->
  padTo64Bit p mod 8 = 0 /\ p <= padTo64Bit p /\
  (forall m, m mod 8 = 0 -> p <= m -> padTo64Bit p <= m) /\
  padTo64Bit (padTo64Bit p) = padTo64Bit p.
Proof.
  intros Hp. destruct (padTo64Bit_spec p Hp) as [Hmod [Hle Hlt]].
  pose proof (Z.div_mod (padTo64Bit p) 8 ltac:(lia)) as Hdp.
  split; [exact Hmod|]. split; [exact Hle|]. split.
  - intros m Hm Hpm.
    pose proof (Z.div_mod m 8 ltac:(lia)) as Hdm. lia.
  - assert (Hfit : 0 <= padTo64Bit p <= 2 ^ 63 - 8)
      by (change (2 ^ 63) with 9223372036854775808 in *; lia).
    destruct (padTo64Bit_spec (padTo64Bit p) Hfit) as [Hmod' [Hle' Hlt']].
    pose proof (Z.div_mod (padTo64Bit (padTo64Bit p)) 8 ltac:(lia)) as Hd1. lia.
Qed.

Lemma padTo64Bit_least_multiple_witness :
  padTo64Bit 9 mod 8 = 0 /\ 9 <= padTo64Bit 9 /\
  (forall m, m mod 8 = 0 -> 9 <= m -> padTo64Bit 9 <= m) /\
  padTo64Bit (padTo64Bit 9) = padTo64Bit 9.
Proof.
  apply (padTo64Bit_least_multiple 9).
  change (2 ^ 63) with 9223372036854775808. lia.
Defined.

(** Above that the product wraps around: the padded length of [MaxInt64] is
    [MinInt64]. *)
Example padTo64Bit_wraps : padTo64Bit (2 ^ 63 - 1) = - 2 ^ 63.
Proof. vm_compute. reflexivity. Qed.

(** ** Runs of scalars *)

Lemma slice_app lo hi (l extra : list byte) :
  hi <= Z.of_nat (length l) -> slice lo hi (l ++ extra) = slice lo hi l.
Proof.
  intros Hhi. unfold slice. rewrite length_app, Nat2Z.inj_add.
  destruct (Z.leb_spec 0 lo); [|reflexivity].
  destruct (Z.leb_spec lo hi); [|reflexivity].
  destruct (Z.leb_spec hi (Z.of_nat (length l))); [|lia].
  destruct (Z.leb_spec hi (Z.of_nat (length l) + Z.of_nat (length extra))); [|lia].
  cbn [andb]. f_equal.
  rewrite skipn_app, firstn_app, length_skipn.
  replace (Z.to_nat (hi - lo) - (length l - Z.to_nat lo))%nat with 0%nat by lia.
  rewrite firstn_O, app_nil_r. reflexivity.
Qed.

(** Bytes behind the last chunk are never looked at. *)
Lemma parseMulti_from_app t bo w data extra k : forall i,
  NumBytes t = Ok w -> 0 <= i ->
  (i + Z.of_nat k) * w <= Z.of_nat (length data) ->
  parseMulti_from k i t bo (data ++ extra) = parseMulti_from k i t bo data.
Proof.
  induction k as [|k IH]; intros i Hw Hi Hfit; [reflexivity|].
  pose proof (NumBytes_pos _ _ Hw) as Hpos.
  cbn [parseMulti_from]. rewrite Hw. cbn [res_bind].
  rewrite slice_app by nia. rewrite IH by (try assumption; lia). reflexivity.
Qed.

(** X4.  On a block that holds [n] scalars of a fixed-width type other than
    UTF-32, [parseMulti] yields exactly [n] values, the [j]-th of them decoded
    from the [j]-th group of [w] bytes, and bytes that follow the block (the
    padding of a small element, say) have no influence on the result. *)
Theorem parseMulti_chunks t bo w data extra n :
  NumBytes t = Ok w -> t <> DTmiUTF32 -> resolved bo -> 0 <= n ->
  Z.of_nat (length data) = n * w ->
  exists vals,
    parseMulti t bo (data ++ extra) n = Ok vals /\
    parseMulti t bo data n = Ok vals /\
    Z.of_nat (length vals) = n /\
    forall j v, nth_error vals j = Some v ->
      parseContent t bo
        (firstn (Z.to_nat w) (skipn (j * Z.to_nat w) data)) = Ok v.
Proof.
  intros Hw Ht Hbo Hn Hlen.
  pose proof (NumBytes_pos _ _ Hw) as Hpos.
  unfold parseMulti. destruct (Z.ltb_spec n 0); [lia|].
  destruct (parseMulti_from_ok t bo w data (Z.to_nat n) 0 Hw Ht Hbo ltac:(lia))
    as (vals & Hvals & Hl); [lia|].
  exists vals. rewrite parseMulti_from_app with (w := w) by (try assumption; lia).
  split; [exact Hvals|]. split; [exact Hvals|]. split; [lia|].
  intros j v Hj.
  destruct (parseMulti_from_nth t bo w data (Z.to_nat n) 0 vals Hw Hvals) as [_ Hnth].
  destruct (Hnth j v Hj) as (chunk & Hs & Hv).
  assert (Hjn : (j < length vals)%nat) by (apply nth_error_Some; congruence).
  rewrite slice_ok in Hs by nia. injection Hs as <-.
  replace (Z.to_nat ((0 + Z.of_nat j + 1) * w - (0 + Z.of_nat j) * w))
    with (Z.to_nat w) in Hv by lia.
  replace (Z.to_nat ((0 + Z.of_nat j) * w)) with (j * Z.to_nat w)%nat in Hv by nia.
  exact Hv.
Qed.

Lemma parseMulti_chunks_witness :
  parseMulti DTmiUINT16 BigEndian (bytes_of [1; 2; 0; 7; 9; 9]%N) 2
    = Ok [Vuint16 258; Vuint16 7].
Proof.
  destruct (parseMulti_chunks DTmiUINT16 BigEndian 2 (bytes_of [1; 2; 0; 7]%N)
              (bytes_of [9; 9]%N) 2)
    as (vals & Hrun & _ & _ & _).
  - reflexivity.
  - discriminate.
  - right; reflexivity.
  - lia.
  - reflexivity.
  - vm_compute in Hrun. injection Hrun as <-. vm_compute. reflexivity.
Defined.

(** ** Conversions of a decoded matrix *)

Lemma IntArray_item_Ok class e z :
  IntArray_item class e = Ok z ->
  exists c x, int_constructor class = Some c /\ e = c x
              /\ z = (if class =? mxUINT64 then to_signed 64 x else x).
Proof.
  unfold IntArray_item, int_constructor.
  destruct class as [|p|p]; try discriminate;
  do 5 (try destruct p as [p|p|]; try discriminate);
  destruct e; try discriminate; intros H; injection H as <-;
  eexists _, _; (split; [reflexivity|]); split; reflexivity.
Qed.

Lemma IntArray_item_constructor class c x :
  int_constructor class = Some c ->
  IntArray_item class (c x) = Ok (if class =? mxUINT64 then to_signed 64 x else x).
Proof.
  unfold IntArray_item, int_constructor.
  destruct class as [|p|p]; try discriminate;
  do 5 (try destruct p as [p|p|]; try discriminate);
  intros H; injection H as <-; reflexivity.
Qed.

Lemma IntArray_item_other_class class e :
  int_constructor class = None ->
  IntArray_item class e = Panic "unable to convert matrix to int64 array".
Proof.
  unfold IntArray_item, int_constructor.
  destruct class as [|p|p]; try reflexivity;
  do 5 (try destruct p as [p|p|]; try reflexivity); discriminate.
Qed.

Lemma IntArray_loop_Ok class vs : forall zs,
  IntArray_loop class vs = Ok zs ->
  vs = [] /\ zs = [] \/
  exists c xs, int_constructor class = Some c /\ vs = List.map c xs
    /\ zs = List.map (fun x => if class =? mxUINT64 then to_signed 64 x else x) xs.
Proof.
  induction vs as [|e vs IH]; intros zs H.
  - left. split; [reflexivity|]. now inversion H.
  - right. cbn [IntArray_loop] in H.
    destruct (IntArray_item class e) as [z| |] eqn:He; try discriminate H.
    cbn [res_bind] in H.
    destruct (IntArray_loop class vs) as [rest| |] eqn:Hr; try discriminate H.
    injection H as <-.
    apply IntArray_item_Ok in He as (c & x & Hc & -> & ->).
    destruct (IH rest eq_refl) as [[-> ->] | (c' & xs & Hc' & -> & ->)].
    + exists c, [x]. split; [exact Hc|]. split; reflexivity.
    + rewrite Hc in Hc'. injection Hc' as <-.
      exists c, (x :: xs). split; [exact Hc|]. split; reflexivity.
Qed.

(** X5.  [IntArray] returns a slice exactly when the matrix holds no value
    at all, or its class is one of the eight integer classes and every value
    has the Go type of that class; the integers come back unchanged, except
    that a [uint64] is reinterpreted as a signed 64-bit number.  A matrix of
    any other class that holds a value makes it panic. *)
Theorem IntArray_integer_classes m :
  (forall zs,
     IntArray m = Ok zs <->
     (value m = [] /\ zs = []) \/
     exists c xs, int_constructor (Class m) = Some c /\ value m = List.map c xs
       /\ zs = List.map (fun x => if Class m =? mxUINT64
                                  then to_signed 64 x else x) xs) /\
  (int_constructor (Class m) = None -> value m <> [] ->
   IntArray m = Panic "unable to convert matrix to int64 array").
Proof.
  unfold IntArray. split.
  - intros zs. split.
    + apply IntArray_loop_Ok.
    + intros [[-> ->] | (c & xs & Hc & -> & ->)]; [reflexivity|].
      induction xs as [|x xs IH]; [reflexivity|].
      cbn [List.map IntArray_loop].
      rewrite (IntArray_item_constructor _ _ x Hc). cbn [res_bind].
      rewrite IH. reflexivity.
  - intros Hc Hne. destruct (value m) as [|e vs]; [contradiction|].
    cbn [IntArray_loop]. rewrite IntArray_item_other_class by exact Hc.
    reflexivity.
Qed.

Lemma DoubleArray_loop_Ok class vs : forall xs,
  DoubleArray_loop class vs = Ok xs ->
  vs = [] /\ xs = [] \/
  (class = mxDOUBLE /\ exists bs,
     vs = List.map Vfloat64 bs /\ xs = List.map float64_frombits bs) \/
  (class = mxSINGLE /\ exists bs,
     vs = List.map Vfloat32 bs /\ xs = List.map float64_of_float32 bs).
Proof.
  induction vs as [|e vs IH]; intros xs H.
  - left. split; [reflexivity|]. now inversion H.
  - right. cbn [DoubleArray_loop] in H.
    destruct (DoubleArray_item class e) as [x| |] eqn:He; try discriminate H.
    cbn [res_bind] in H.
    destruct (DoubleArray_loop class vs) as [rest| |] eqn:Hr; try discriminate H.
    injection H as <-.
    specialize (IH rest eq_refl). unfold DoubleArray_item in He.
    destruct class as [|p|p]; try discriminate He;
    do 3 (try destruct p as [p|p|]; try discriminate He);
    destruct e; try discriminate He; injection He as <-.
    + right. split; [reflexivity|].
      destruct IH as [[-> ->] | [[Hc _] | [_ (bs & -> & ->)]]];
        [exists [bits]; split; reflexivity
        |discriminate Hc
        |exists (bits :: bs); split; reflexivity].
    + left. split; [reflexivity|].
      destruct IH as [[-> ->] | [[_ (bs & -> & ->)] | [Hc _]]];
        [exists [bits]; split; reflexivity
        |exists (bits :: bs); split; reflexivity
        |discriminate Hc].
Qed.

(** X6.  [DoubleArray] returns a slice exactly when the matrix holds no
    value at all, or its class is double and every value is a [float64], or
    its class is single and every value is a [float32], which is widened.
    It has no error result: in every other case it panics. *)
Theorem DoubleArray_float_classes m :
  (forall xs,
     DoubleArray m = Ok xs <->
     (value m = [] /\ xs = []) \/
     (Class m = mxDOUBLE /\ exists bs,
        value m = List.map Vfloat64 bs /\ xs = List.map float64_frombits bs) \/
     (Class m = mxSINGLE /\ exists bs,
        value m = List.map Vfloat32 bs /\ xs = List.map float64_of_float32 bs)) /\
  (forall e, DoubleArray m <> Error e).
Proof.
  unfold DoubleArray. split.
  - intros xs. split.
    + apply DoubleArray_loop_Ok.
    + intros [[-> ->] | [[-> (bs & -> & ->)] | [-> (bs & -> & ->)]]];
        [reflexivity| |];
        (induction bs as [|b bs IH]; [reflexivity|]);
        cbn [List.map DoubleArray_loop DoubleArray_item mxDOUBLE mxSINGLE res_bind];
        rewrite IH; reflexivity.
  - intros e. generalize (Class m). intros class.
    induction (value m) as [|v vs IH]; [discriminate|].
    cbn [DoubleArray_loop].
    destruct (DoubleArray_item class v) as [x| |] eqn:He; cbn [res_bind].
    + destruct (DoubleArray_loop class vs); cbn [res_bind];
        [discriminate | exact IH | discriminate].
    + exfalso. unfold DoubleArray_item in He.
      destruct class as [|p|p]; try discriminate He;
      do 3 (try destruct p as [p|p|]; try discriminate He);
      destruct v; discriminate He.
    + discriminate.
Qed.

(** ** The element reader *)

(** The bounds of the unsigned integers of [encoding/binary]. *)

Lemma byte_to_Z_range b : 0 <= byte_to_Z b < 256.
Proof. unfold byte_to_Z. pose proof (Byte.to_N_bounded b). lia. Qed.

Lemma lor_bound a b n :
  0 <= n -> 0 <= a < 2 ^ n -> 0 <= b < 2 ^ n -> 0 <= Z.lor a b < 2 ^ n.
Proof.
  intros Hn Ha Hb.
  assert (Hnn : 0 <= Z.lor a b) by (apply Z.lor_nonneg; lia).
  split; [exact Hnn|].
  destruct (Z.eq_dec (Z.lor a b) 0) as [->|Hz]; [lia|].
  apply Z.log2_lt_pow2; [lia|].
  rewrite Z.log2_lor by lia.
  assert (Hlog : forall x, 0 <= x < 2 ^ n -> x <> 0 -> Z.log2 x < n)
    by (intros x Hx Hx0; apply Z.log2_lt_pow2; lia).
  destruct (Z.eq_dec a 0) as [->|Ha0]; destruct (Z.eq_dec b 0) as [->|Hb0];
    try (exfalso; apply Hz; reflexivity).
  - rewrite Z.lor_0_l in Hz. specialize (Hlog b Hb Hb0).
    pose proof (Z.log2_nonneg b). change (Z.log2 0) with 0. lia.
  - specialize (Hlog a Ha Ha0).
    pose proof (Z.log2_nonneg a). change (Z.log2 0) with 0. lia.
  - pose proof (Hlog a Ha Ha0). pose proof (Hlog b Hb Hb0). lia.
Qed.

Lemma shiftl_bound x k s :
  0 <= k -> 0 <= s -> 0 <= x < 2 ^ k -> 0 <= Z.shiftl x s < 2 ^ (k + s).
Proof.
  intros Hk Hs Hx. rewrite Z.shiftl_mul_pow2, Z.pow_add_r by lia.
  assert (0 < 2 ^ s) by (apply Z.pow_pos_nonneg; lia). nia.
Qed.

Lemma pow2_le_mono a b : 0 <= a <= b -> 2 ^ a <= 2 ^ b.
Proof. intros H. apply Z.pow_le_mono_r; lia. Qed.

Lemma le_uint_bound bs : 0 <= le_uint bs < 2 ^ (8 * Z.of_nat (length bs)).
Proof.
  induction bs as [|b bs IH]; [cbn; lia|].
  cbn [le_uint length]. apply lor_bound; [lia| |].
  - pose proof (byte_to_Z_range b) as Hb.
    pose proof (pow2_le_mono 8 (8 * Z.of_nat (S (length bs))) ltac:(lia)) as Hp.
    change (2 ^ 8) with 256 in Hp. lia.
  - replace (8 * Z.of_nat (S (length bs))) with (8 * Z.of_nat (length bs) + 8) by lia.
    apply shiftl_bound; [lia | lia | exact IH].
Qed.

Lemma be_uint_acc_bound bs : forall acc k,
  0 <= k -> 0 <= acc < 2 ^ k ->
  0 <= fold_left (fun acc b => Z.lor (Z.shiftl acc 8) (byte_to_Z b)) bs acc
    < 2 ^ (k + 8 * Z.of_nat (length bs)).
Proof.
  induction bs as [|b bs IH]; intros acc k Hk Hacc.
  - cbn [fold_left length]. replace (k + 8 * Z.of_nat 0) with k by lia. exact Hacc.
  - cbn [fold_left length].
    replace (k + 8 * Z.of_nat (S (length bs)))
      with ((k + 8) + 8 * Z.of_nat (length bs)) by lia.
    apply IH; [lia|]. apply lor_bound; [lia| |].
    + apply shiftl_bound; [lia | lia | exact Hacc].
    + pose proof (byte_to_Z_range b) as Hb.
      pose proof (pow2_le_mono 8 (k + 8) ltac:(lia)) as Hp.
      change (2 ^ 8) with 256 in Hp. lia.
Qed.

Lemma ByteOrder_Uint_range n bo b u :
  ByteOrder_Uint n bo b = Ok u -> 0 <= u < 2 ^ (8 * Z.of_nat n).
Proof.
  assert (Hle : 2 ^ (8 * Z.of_nat (length (firstn n b))) <= 2 ^ (8 * Z.of_nat n)).
  { apply pow2_le_mono. rewrite length_firstn. lia. }
  unfold ByteOrder_Uint, LittleEndian_Uint, BigEndian_Uint.
  destruct bo; [discriminate| |];
    (destruct (index (Z.of_nat n - 1) b); [|discriminate|discriminate]);
    cbn [res_bind]; intros H; injection H as <-.
  - pose proof (le_uint_bound (firstn n b)). lia.
  - pose proof (be_uint_acc_bound (firstn n b) 0 0 ltac:(lia) ltac:(cbn; lia)) as Hb.
    rewrite Z.add_0_l in Hb. unfold be_uint. lia.
Qed.

Lemma be_uint_acc_nonneg bs : forall acc,
  0 <= acc -> 0 <= fold_left (fun acc b => Z.lor (Z.shiftl acc 8) (byte_to_Z b)) bs acc.
Proof.
  induction bs as [|b bs IH]; intros acc Hacc; [exact Hacc|].
  cbn [fold_left]. apply IH. apply Z.lor_nonneg. split.
  - apply Z.shiftl_nonneg. exact Hacc.
  - unfold byte_to_Z. lia.
Qed.

Lemma ByteOrder_Uint_nonneg n bo b u : ByteOrder_Uint n bo b = Ok u -> 0 <= u.
Proof.
  unfold ByteOrder_Uint, LittleEndian_Uint, BigEndian_Uint.
  destruct bo; [discriminate| |];
    (destruct (index (Z.of_nat n - 1) b); [|discriminate|discriminate]);
    cbn [res_bind]; intros H; injection H as <-.
  - apply le_uint_nonneg.
  - apply be_uint_acc_nonneg. lia.
Qed.

(** The declared length of a normal tag is not negative. *)
Lemma decodeTag_length_nonneg bo tag dt L :
  length tag = 8%nat -> decodeTag bo tag = Ok (None, dt, L) -> 0 <= L.
Proof.
  intros Ht H. rewrite decodeTag_unfold in H by exact Ht.
  destruct (negb (lengthHalf bo tag =? 0)).
  - destruct (NumBytes (typeHalf bo tag)); try discriminate H. cbn [res_bind] in H.
    destruct (parseMulti _ _ _ _); discriminate H.
  - destruct (Uint32 bo (firstn 4 tag)); try discriminate H. cbn [res_bind] in H.
    destruct (Uint32 bo (skipn 4 tag)) as [u| |] eqn:Hu; try discriminate H.
    injection H as _ <-. eapply ByteOrder_Uint_nonneg. exact Hu.
Qed.

(** The declared length of a normal tag is a 32-bit number. *)
Lemma decodeTag_length_range bo tag dt L :
  length tag = 8%nat -> decodeTag bo tag = Ok (None, dt, L) -> 0 <= L < 2 ^ 32.
Proof.
  intros Ht H. rewrite decodeTag_unfold in H by exact Ht.
  destruct (negb (lengthHalf bo tag =? 0)).
  - destruct (NumBytes (typeHalf bo tag)); try discriminate H. cbn [res_bind] in H.
    destruct (parseMulti _ _ _ _); discriminate H.
  - destruct (Uint32 bo (firstn 4 tag)); try discriminate H. cbn [res_bind] in H.
    destruct (Uint32 bo (skipn 4 tag)) as [u| |] eqn:Hu; try discriminate H.
    injection H as _ <-. apply (ByteOrder_Uint_range 4) in Hu. exact Hu.
Qed.

Lemma padTo64Bit_nonneg p : 0 <= p < 2 ^ 32 -> 0 <= padTo64Bit p.
Proof. intros Hp. destruct (padTo64Bit_spec32 p Hp) as (_ & H & _). lia. Qed.

Section ElementShape.

Context {ZR : Type} {HZR : io_Reader ZR}.
Variable zlib_NewReader : list byte -> ZR + error.

(** What an element that was read has taken off the stream. *)
Lemma readElement_Ok_shape fuel bo r el r' :
  readElement zlib_NewReader fuel bo r = Some (Ok el, r') ->
  rd_err r' = rd_err r /\
  exists tag body,
    rd_buf r = tag ++ body ++ rd_buf r' /\ length tag = 8%nat /\
    match decodeTag bo tag with
    | Ok (Some s, _, _) => body = [] /\ el = PtrSmall (Some s)
    | Ok (None, dt, L) =>
        Z.of_nat (length body) =
          if (dt =? DTmiCOMPRESSED) || (dt =? DTmiMATRIX) then L else padTo64Bit L
    | _ => False
    end.
Proof.
  destruct fuel as [|fuel]; [discriminate|]. rewrite readElement_S.
  destruct (readTag bo r) as [[[[sde dt] p]|e|msg] r1] eqn:Ht; cbn [fuel_bind];
    try discriminate.
  apply readTag_inv in Ht as [He [(e & pre & Hout & _)|(tag & Hlen & Hbuf & Hdec)]];
    [discriminate Hout|].
  symmetry in Hdec.
  assert (Hshape : forall buf r2 (x : option (res Element * Reader)),
            readAllBytes
              (if (dt =? DTmiCOMPRESSED) || (dt =? DTmiMATRIX) then p else padTo64Bit p)
              r1 = (buf, None, r2) ->
            sde = None ->
            r2 = r' ->
            rd_err r' = rd_err r /\
            exists tag body,
              rd_buf r = tag ++ body ++ rd_buf r' /\ length tag = 8%nat /\
              match decodeTag bo tag with
              | Ok (Some s, _, _) => body = [] /\ el = PtrSmall (Some s)
              | Ok (None, dt, L) =>
                  Z.of_nat (length body) =
                    if (dt =? DTmiCOMPRESSED) || (dt =? DTmiMATRIX) then L
                    else padTo64Bit L
              | _ => False
              end).
  { intros buf r2 _ Hb -> <-.
    pose proof (decodeTag_length_range _ _ _ _ Hlen Hdec) as Hp.
    apply readAllBytes_Some in Hb as (Hb1 & Hb2 & Hb3).
    split; [congruence|]. exists tag, buf.
    split; [rewrite Hbuf, Hb1; reflexivity|]. split; [exact Hlen|].
    rewrite Hdec. rewrite Hb3.
    destruct ((dt =? DTmiCOMPRESSED) || (dt =? DTmiMATRIX)); [lia|].
    pose proof (padTo64Bit_nonneg p Hp). lia. }
  destruct sde as [s|].
  - intros H. injection H as <- <-. split; [exact He|].
    exists tag, []. split; [exact Hbuf|]. split; [exact Hlen|].
    rewrite Hdec. split; reflexivity.
  - destruct (dt =? DTmiCOMPRESSED) eqn:Hc; cbn [orb] in Hshape.
    { destruct (readAllBytes p r1) as [[buf err] r2] eqn:Hb.
      destruct err as [e|]; [discriminate|].
      intros H. apply (Hshape buf r2 None eq_refl eq_refl).
      destruct (zlib_NewReader buf) as [cr|e]; [|discriminate H].
      destruct (readAllElements_loop zlib_NewReader fuel bo cr [])
        as [[[[|el1 [|el2 els]]|e|msg] r3]|]; try discriminate H;
        injection H as _ H; exact H. }
    destruct (dt =? DTmiMATRIX) eqn:Hm.
    { destruct (readAllBytes p r1) as [[buf err] r2] eqn:Hb.
      destruct err as [e|]; [discriminate|].
      intros H. apply (Hshape buf r2 None eq_refl eq_refl).
      destruct (miMatrix zlib_NewReader fuel bo buf) as [m|]; [|discriminate H].
      injection H as _ H; exact H. }
    destruct (readAllBytes (padTo64Bit p) r1) as [[buf err] r2] eqn:Hb.
    destruct err as [e|]; [discriminate|].
    intros H. apply (Hshape buf r2 None eq_refl eq_refl).
    injection H as _ H; exact H.
Qed.

Lemma readElement_Ok_progress fuel bo r el r' :
  readElement zlib_NewReader fuel bo r = Some (Ok el, r') ->
  (8 + length (rd_buf r') <= length (rd_buf r))%nat.
Proof.
  intros H. apply readElement_Ok_shape in H as (_ & tag & body & Hb & Hl & _).
  rewrite Hb, !length_app. lia.
Qed.

(** An element that was read from a buffer which it used up is read alike
    in front of whatever follows it. *)
Lemma readElement_frame fuel bo enc el rest e :
  readElement zlib_NewReader fuel bo (mkReader enc e) = Some (Ok el, mkReader [] e) ->
  readElement zlib_NewReader fuel bo (mkReader (enc ++ rest) e) =
    Some (Ok el, mkReader rest e).
Proof.
  intros H.
  pose proof (readElement_Ok_shape _ _ _ _ _ H) as (_ & tag & body & Hb & Hl & Hd).
  cbn [rd_buf] in Hb. rewrite app_nil_r in Hb. subst enc.
  destruct fuel as [|fuel]; [discriminate|].
  rewrite <- app_assoc. rewrite readElement_S in H |- *.
  rewrite readTag_exact in H by exact Hl. rewrite readTag_exact by exact Hl.
  destruct (decodeTag bo tag) as [[[sde dt] p]|err|msg]; try contradiction.
  cbn [fuel_bind] in *.
  destruct sde as [s|]; [destruct Hd as [-> ->]; reflexivity|].
  rewrite <- (app_nil_r body) in H.
  destruct (dt =? DTmiCOMPRESSED); cbn [orb] in Hd.
  { rewrite readAllBytes_exact in H by exact Hd.
    rewrite readAllBytes_exact by exact Hd.
    destruct (zlib_NewReader body) as [cr|err]; [|discriminate H].
    destruct (readAllElements_loop zlib_NewReader fuel bo cr [])
      as [[[[|el1 [|el2 els]]|err|msg] r3]|]; try discriminate H.
    injection H as ->. reflexivity. }
  destruct (dt =? DTmiMATRIX).
  { rewrite readAllBytes_exact in H by exact Hd.
    rewrite readAllBytes_exact by exact Hd.
    destruct (miMatrix zlib_NewReader fuel bo body) as [[m|err|msg]|];
      try discriminate H.
    cbn [res_bind] in *. injection H as <-. reflexivity. }
  cbv zeta in *.
  rewrite readAllBytes_exact in H by exact Hd.
  rewrite readAllBytes_exact by exact Hd.
  destruct (parseContent dt bo body) as [content|err|msg]; try discriminate H.
  cbn [res_bind] in *. injection H as <-. reflexivity.
Qed.

(** X7.  On a normal tag of type matrix and declared length [L], the element
    reader takes exactly the next [L] bytes off the stream, without padding,
    and its outcome is the outcome of the matrix decoder on those bytes: what
    follows them in the stream plays no part and is left in place.  The
    outcome is the same with every larger budget. *)
Theorem readElement_matrix fuel bo tag data rest e L :
  length tag = 8%nat ->
  decodeTag bo tag = Ok (None, DTmiMATRIX, L) ->
  Z.of_nat (length data) = L ->
  let r := mkReader (tag ++ data ++ rest) e in
  match miMatrix zlib_NewReader fuel bo data with
  | None => readElement zlib_NewReader (S fuel) bo r = None
  | Some out =>
      forall fuel', (fuel < fuel')%nat ->
      readElement zlib_NewReader fuel' bo r =
        Some (match out with
              | Ok m => Ok (PtrMatrix m)
              | Error err => Error err
              | Panic msg => Panic msg
              end, mkReader rest e)
  end.
Proof.
  intros Ht Hd Hdata r.
  assert (Hrun : readElement zlib_NewReader (S fuel) bo r =
            match miMatrix zlib_NewReader fuel bo data with
            | None => None
            | Some m => Some (let* m := m in Ok (PtrMatrix m), mkReader rest e)
            end).
  { subst r. rewrite readElement_S.
    rewrite readTag_exact by exact Ht. rewrite Hd. cbn [fuel_bind].
    change (DTmiMATRIX =? DTmiCOMPRESSED) with false.
    change (DTmiMATRIX =? DTmiMATRIX) with true. cbn match.
    rewrite readAllBytes_exact by exact Hdata. reflexivity. }
  destruct (miMatrix zlib_NewReader fuel bo data) as [out|]; [|exact Hrun].
  intros fuel' Hfuel.
  apply (readElement_budget zlib_NewReader (S fuel) fuel'); [lia|].
  rewrite Hrun. destruct out; reflexivity.
Qed.

(** X8.  An element that was read has taken its eight-byte tag and its body
    off the stream, and nothing else: no body for a small element, the
    declared [L] bytes for a compressed or a matrix element, and [L] padded to
    a multiple of eight for every other type.  The stream has thus advanced
    by at least eight bytes. *)
Theorem readElement_consumed fuel bo r el r' :
  readElement zlib_NewReader fuel bo r = Some (Ok el, r') ->
  rd_err r' = rd_err r /\
  (8 + length (rd_buf r') <= length (rd_buf r))%nat /\
  exists tag body,
    rd_buf r = tag ++ body ++ rd_buf r' /\ length tag = 8%nat /\
    match decodeTag bo tag with
    | Ok (Some s, _, _) => body = [] /\ el = PtrSmall (Some s)
    | Ok (None, dt, L) =>
        Z.of_nat (length body) =
          if (dt =? DTmiCOMPRESSED) || (dt =? DTmiMATRIX) then L else padTo64Bit L
    | _ => False
    end.
Proof.
  intros H. split; [|split].
  - apply readElement_Ok_shape in H as [He _]. exact He.
  - eapply readElement_Ok_progress. exact H.
  - apply readElement_Ok_shape in H as [_ Hs]. exact Hs.
Qed.

End ElementShape.

Lemma readElement_matrix_witness :
  readElement zlib_verbatim 3 LittleEndian
    (mkReader (bytes_of [14; 0; 0; 0; 56; 0; 0; 0]%N ++ skipn 64 cell_children
               ++ bytes_of [7]%N) EOF) =
    Some (Ok (PtrMatrix matrix_123), mkReader (bytes_of [7]%N) EOF).
Proof.
  pose proof (readElement_matrix zlib_verbatim 1 LittleEndian
                (bytes_of [14; 0; 0; 0; 56; 0; 0; 0]%N) (skipn 64 cell_children)
                (bytes_of [7]%N) EOF 56 eq_refl
                ltac:(vm_compute; reflexivity) ltac:(vm_compute; reflexivity)) as H.
  cbv zeta in H.
  assert (Hm : miMatrix zlib_verbatim 1 LittleEndian (skipn 64 cell_children) =
                 Some (Ok matrix_123))
    by (vm_compute; reflexivity).
  rewrite Hm in H. exact (H 3%nat ltac:(lia)).
Defined.

Lemma readElement_consumed_witness :
  (8 + length (rd_buf (NewBuffer (bytes_of [1]%N))) <=
   length (rd_buf (NewBuffer
     (bytes_of [2; 0; 0; 0; 2; 0; 0; 0; 7; 9; 0; 0; 0; 0; 0; 0; 1]%N))))%nat.
Proof.
  assert (H : readElement zlib_verbatim 1 LittleEndian
                (NewBuffer (bytes_of [2; 0; 0; 0; 2; 0; 0; 0; 7; 9; 0; 0; 0; 0; 0; 0; 1]%N)) =
              Some (Ok (PtrSub (mkSub DTmiUINT8 (Vuint8 7))), NewBuffer (bytes_of [1]%N)))
    by (vm_compute; reflexivity).
  destruct (readElement_consumed zlib_verbatim _ _ _ _ _ H) as (_ & Hp & _).
  exact Hp.
Defined.

(** ** Runs of elements *)

Section ElementRuns.

Context {ZR : Type} {HZR : io_Reader ZR}.
Variable zlib_NewReader : list byte -> ZR + error.

(** The elements read so far are handed back in front of the later ones,
    and dropped when a later element fails. *)
Lemma readAllElements_loop_acc fuel {R : Type} {HR : io_Reader R} :
  forall bo (r : R) acc,
  readAllElements_loop zlib_NewReader fuel bo r acc =
    match readAllElements_loop zlib_NewReader fuel bo r [] with
    | Some (Ok els, r') => Some (Ok (acc ++ els), r')
    | x => x
    end.
Proof.
  induction fuel as [|fuel IH]; intros bo r acc; [reflexivity|].
  rewrite !readAllElements_loop_S.
  destruct (readElement zlib_NewReader fuel bo r) as [[[el|e|msg] r1]|];
    try reflexivity.
  - rewrite (IH bo r1 (acc ++ [el])), (IH bo r1 ([] ++ [el])).
    destruct (readAllElements_loop zlib_NewReader fuel bo r1 [])
      as [[[els|e|msg] r2]|]; try reflexivity.
    rewrite <- app_assoc. reflexivity.
  - destruct (String.eqb e "EOF"); [|reflexivity].
    rewrite app_nil_r. reflexivity.
Qed.

(** Whatever the outcome, the element reader only takes bytes off the front
    of the stream. *)
Lemma readElement_advanced fuel bo r out r' :
  readElement zlib_NewReader fuel bo r = Some (out, r') -> advanced r r'.
Proof.
  destruct fuel as [|fuel]; [discriminate|]. rewrite readElement_S.
  destruct (readTag bo r) as [[[[sde dt] p]|e|msg] r1] eqn:Ht; cbn [fuel_bind];
    apply readTag_advanced in Ht;
    try (intros H; injection H as _ <-; exact Ht).
  destruct sde as [s|]; [intros H; injection H as _ <-; exact Ht|].
  assert (Hstep : forall q buf err r2,
            readAllBytes q r1 = (buf, err, r2) -> r2 = r' -> advanced r r').
  { intros q buf err r2 Hb <-. apply readAllBytes_advanced in Hb.
    eapply advanced_trans; eassumption. }
  destruct (dt =? DTmiCOMPRESSED).
  { destruct (readAllBytes p r1) as [[buf err] r2] eqn:Hb.
    intros H. apply (Hstep _ _ _ _ Hb).
    destruct err as [e|]; [injection H as _ H; exact H|].
    destruct (zlib_NewReader buf) as [cr|e]; [|injection H as _ H; exact H].
    destruct (readAllElements_loop zlib_NewReader fuel bo cr [])
      as [[[[|el1 [|el2 els]]|e|msg] r3]|]; try discriminate H;
      injection H as _ H; exact H. }
  destruct (dt =? DTmiMATRIX).
  { destruct (readAllBytes p r1) as [[buf err] r2] eqn:Hb.
    intros H. apply (Hstep _ _ _ _ Hb).
    destruct err as [e|]; [injection H as _ H; exact H|].
    destruct (miMatrix zlib_NewReader fuel bo buf) as [m|]; [|discriminate H].
    injection H as _ H; exact H. }
  destruct (readAllBytes (padTo64Bit p) r1) as [[buf err] r2] eqn:Hb.
  intros H. apply (Hstep _ _ _ _ Hb).
  destruct err as [e|]; injection H as _ H; exact H.
Qed.

Lemma advanced_length r r' :
  advanced r r' -> (length (rd_buf r') <= length (rd_buf r))%nat.
Proof. intros [_ [pre ->]]. rewrite length_app. lia. Qed.

Lemma readAllElements_loop_count fuel : forall bo r acc els r',
  readAllElements_loop zlib_NewReader fuel bo r acc = Some (Ok els, r') ->
  rd_err r' = rd_err r /\
  exists new, els = acc ++ new /\
    (8 * length new + length (rd_buf r') <= length (rd_buf r))%nat.
Proof.
  induction fuel as [|fuel IH]; intros bo r acc els r'; [discriminate|].
  rewrite readAllElements_loop_S.
  destruct (readElement zlib_NewReader fuel bo r) as [[[el|e|msg] r1]|] eqn:Hel;
    try discriminate.
  - intros H. apply IH in H as (He & new & -> & Hcount).
    pose proof (readElement_Ok_progress _ _ _ _ _ _ Hel) as Hp.
    apply readElement_Ok_shape in Hel as [He1 _].
    split; [congruence|]. exists (el :: new).
    split; [rewrite <- app_assoc; reflexivity|]. cbn [length]. lia.
  - destruct (String.eqb e "EOF"); [|discriminate].
    intros H. injection H as <- <-.
    apply readElement_advanced in Hel. split; [apply Hel|].
    exists []. split; [now rewrite app_nil_r|].
    apply advanced_length in Hel. cbn [length]. lia.
Qed.

(** X9.  A run of elements is the first element followed by the run over
    the rest of the stream; when the rest of the run fails, the first
    element is dropped and the failure is the outcome of the whole run. *)
Theorem readAllElements_first_then_rest
    fuel {R : Type} {HR : io_Reader R} bo (r : R) el r1 out r2 :
  readElement zlib_NewReader fuel bo r = Some (Ok el, r1) ->
  readAllElements zlib_NewReader fuel bo r1 = Some (out, r2) ->
  readAllElements zlib_NewReader (S fuel) bo r =
    Some (match out with
          | Ok els => Ok (el :: els)
          | Error e => Error e
          | Panic msg => Panic msg
          end, r2).
Proof.
  unfold readAllElements. intros Hel Hrest.
  rewrite readAllElements_loop_S. rewrite Hel.
  rewrite readAllElements_loop_acc, Hrest. destruct out; reflexivity.
Qed.

(** X10.  Every element of a run that was read took at least eight bytes
    off the stream: a run over [n] bytes yields at most [n / 8] elements. *)
Theorem readAllElements_count fuel bo r els r' :
  readAllElements zlib_NewReader fuel bo r = Some (Ok els, r') ->
  (8 * length els + length (rd_buf r') <= length (rd_buf r))%nat.
Proof.
  unfold readAllElements. intros H.
  apply readAllElements_loop_count in H as (_ & new & Hnew & Hcount).
  cbn [app] in Hnew. subst new. exact Hcount.
Qed.

End ElementRuns.

Section Termination.

(** A zlib reader that is itself a queue of bytes. *)
Variable zlib_NewReader : list byte -> Reader + error.

(** The budget that a run needs is bounded by the length of the stream,
    when the zlib reader never hands back more bytes than it was given. *)
Lemma budget_bound :
  (forall raw cr, zlib_NewReader raw = inl cr ->
     (length (rd_buf cr) <= length raw)%nat) ->
  forall fuel,
  (forall bo r, (length (rd_buf r) < fuel)%nat ->
     exists x, readElement zlib_NewReader fuel bo r = Some x) /\
  (forall bo r acc, (length (rd_buf r) + 1 < fuel)%nat ->
     exists x, readAllElements_loop zlib_NewReader fuel bo r acc = Some x) /\
  (forall bo data, (length data < fuel)%nat ->
     exists x, miMatrix zlib_NewReader fuel bo data = Some x).
Proof.
  intros Hz. induction fuel as [|fuel (IHel & IHloop & IHmat)].
  - repeat split; intros; lia.
  - split; [|split].
    + intros bo r Hlen. rewrite readElement_S.
      destruct (readTag bo r) as [[[[sde dt] p]|e|msg] r1] eqn:Ht; cbn [fuel_bind];
        try (eexists; reflexivity).
      destruct sde as [s|]; [eexists; reflexivity|].
      apply readTag_inv in Ht as [_ [(e & pre & Hout & _)|(tag & Htag & Hbuf & _)]];
        [discriminate Hout|].
      assert (Hr1 : (8 + length (rd_buf r1) <= length (rd_buf r))%nat)
        by (rewrite Hbuf, length_app; lia).
      destruct (dt =? DTmiCOMPRESSED).
      { destruct (readAllBytes p r1) as [[buf err] r2] eqn:Hb.
        destruct err as [e|]; [eexists; reflexivity|].
        apply readAllBytes_Some in Hb as (Hb & _ & _).
        assert (Hbuf' : (length buf <= length (rd_buf r1))%nat)
          by (rewrite Hb, length_app; lia).
        destruct (zlib_NewReader buf) as [cr|e] eqn:Hcr; [|eexists; reflexivity].
        apply Hz in Hcr.
        destruct (IHloop bo cr []) as [[out r3] Hrun]; [lia|]. rewrite Hrun.
        destruct out as [[|el1 [|el2 els]]|e|msg]; eexists; reflexivity. }
      destruct (dt =? DTmiMATRIX).
      { destruct (readAllBytes p r1) as [[buf err] r2] eqn:Hb.
        destruct err as [e|]; [eexists; reflexivity|].
        apply readAllBytes_Some in Hb as (Hb & _ & _).
        assert (Hbuf' : (length buf <= length (rd_buf r1))%nat)
          by (rewrite Hb, length_app; lia).
        destruct (IHmat bo buf) as [m Hm]; [lia|]. rewrite Hm.
        eexists; reflexivity. }
      destruct (readAllBytes (padTo64Bit p) r1) as [[buf err] r2].
      destruct err; eexists; reflexivity.
    + intros bo r acc Hlen. rewrite readAllElements_loop_S.
      destruct (IHel bo r) as [[out r1] Hel]; [lia|]. rewrite Hel.
      destruct out as [el|e|msg].
      * apply readElement_Ok_progress in Hel. apply IHloop. lia.
      * destruct (String.eqb e "EOF"); eexists; reflexivity.
      * eexists; reflexivity.
    + intros bo data Hlen. rewrite miMatrix_S.
      destruct (arrayFlags bo (NewBuffer data)) as [[[fl class]|e|msg] r1] eqn:H1;
        cbn [fuel_bind option_map]; try (eexists; reflexivity).
      destruct (dimensionsArray bo r1) as [[dim|e|msg] r2] eqn:H2;
        cbn [fuel_bind option_map]; try (eexists; reflexivity).
      destruct (arrayName bo r2) as [[[name err]|e|msg] r3] eqn:H3;
        cbn [fuel_bind option_map]; try (eexists; reflexivity).
      destruct (not_EOF err); [eexists; reflexivity|].
      destruct (class =? mxSPARSE); [eexists; reflexivity|].
      destruct (class =? mxCELL).
      { assert (Hflags : (8 + length (rd_buf r1) <= length data)%nat).
        { unfold arrayFlags in H1.
          destruct (readTag bo (NewBuffer data)) as [[[[sde dt] p]|e|msg] r0] eqn:Ht;
            cbn [rd_bind] in H1; try discriminate H1.
          apply readTag_inv in Ht as [_ [(e & pre & Hout & _)|(tag & Htag & Hbuf & _)]];
            [discriminate Hout|].
          cbn [rd_buf NewBuffer] in Hbuf.
          assert (Hadv : advanced r0 r1).
          { destruct (negb (dt =? DTmiUINT32)); [discriminate H1|].
            destruct (negb (p =? 8)); [discriminate H1|].
            destruct (readAllBytes 8 r0) as [[buf err0] r4] eqn:Hb.
            apply readAllBytes_advanced in Hb.
            destruct err0; [discriminate H1|].
            injection H1 as _ <-. exact Hb. }
          apply advanced_length in Hadv. rewrite Hbuf, length_app. lia. }
        apply dimensionsArray_advanced, advanced_length in H2.
        apply arrayName_advanced, advanced_length in H3.
        destruct (IHloop bo r3 []) as [[out r4] Hrun]; [lia|]. rewrite Hrun.
        destruct out as [els|e|msg]; cbn [fuel_bind option_map];
          try destruct (cell_values els); cbn [fuel_bind option_map];
          eexists; reflexivity. }
      destruct (class =? mxSTRUCT); [eexists; reflexivity|].
      destruct (class =? mxOBJECT); [eexists; reflexivity|].
      match goal with
      | |- exists x, option_map fst (fuel_bind (Some ?c) _) = Some x =>
          destruct c as [[v|e|msg] r4]
      end; cbn [fuel_bind option_map]; eexists; reflexivity.
Qed.

(** X11.  The decoder terminates: when the zlib reader never hands back
    more bytes than it was given, a run of elements over a stream of [n]
    bytes returns with every budget above [n + 1]. *)
Theorem readAllElements_returns fuel bo r :
  (forall raw cr, zlib_NewReader raw = inl cr ->
     (length (rd_buf cr) <= length raw)%nat) ->
  (length (rd_buf r) + 1 < fuel)%nat ->
  exists out r', readAllElements zlib_NewReader fuel bo r = Some (out, r').
Proof.
  intros Hz Hfuel. destruct (budget_bound Hz fuel) as (_ & Hloop & _).
  destruct (Hloop bo r [] Hfuel) as [[out r'] H]. exists out, r'. exact H.
Qed.

End Termination.

Lemma readAllElements_first_then_rest_witness :
  readAllElements zlib_verbatim 4 LittleEndian (NewBuffer cell_children) =
    Some (Ok [PtrMatrix matrix_hi; PtrMatrix matrix_123], NewBuffer []).
Proof.
  assert (Hel : readElement zlib_verbatim 3 LittleEndian (NewBuffer cell_children) =
                  Some (Ok (PtrMatrix matrix_hi), NewBuffer (skipn 56 cell_children)))
    by (vm_compute; reflexivity).
  assert (Hrest : readAllElements zlib_verbatim 3 LittleEndian
                    (NewBuffer (skipn 56 cell_children)) =
                  Some (Ok [PtrMatrix matrix_123], NewBuffer []))
    by (vm_compute; reflexivity).
  exact (readAllElements_first_then_rest zlib_verbatim _ _ _ _ _ _ _ Hel Hrest).
Defined.

Lemma readAllElements_count_witness :
  (8 * length [PtrMatrix matrix_hi; PtrMatrix matrix_123]
   + length (rd_buf (NewBuffer [])) <= length (rd_buf (NewBuffer cell_children)))%nat.
Proof.
  assert (H : readAllElements zlib_verbatim 4 LittleEndian (NewBuffer cell_children) =
                Some (Ok [PtrMatrix matrix_hi; PtrMatrix matrix_123], NewBuffer []))
    by (vm_compute; reflexivity).
  exact (readAllElements_count zlib_verbatim _ _ _ _ _ H).
Defined.

Lemma readAllElements_returns_witness :
  exists out r',
    readAllElements zlib_verbatim 122 LittleEndian (NewBuffer cell_children) =
      Some (out, r').
Proof.
  apply readAllElements_returns.
  - intros raw cr H. injection H as <-. cbn [rd_buf NewBuffer]. lia.
  - cbn. lia.
Defined.

(** ** The end of the stream *)

Section EndOfStream.

Context {ZR : Type} {HZR : io_Reader ZR}.
Variable zlib_NewReader : list byte -> ZR + error.

(** The error of a read of [p] bytes from a buffer that holds fewer. *)
Lemma readAllBytes_short_error p data :
  Z.of_nat (length data) < p ->
  exists buf,
    readAllBytes p (NewBuffer data) =
      (buf,
       Some (match data with
             | [] => EOF
             | _ :: _ => "EOF reached but we're supposed to read "
                         +:+ fmt_d (p - Z.of_nat (length data)) +:+ " more bytes"
             end),
       NewBuffer []).
Proof.
  intros Hlen. unfold NewBuffer. destruct data as [|b data].
  - rewrite readAllBytes_drained by (simpl in Hlen; lia). eexists; reflexivity.
  - rewrite readAllBytes_truncated by (try discriminate; exact Hlen).
    eexists; reflexivity.
Qed.

(** X12.  On an empty buffer a run of elements yields no element and no
    error; on a buffer that holds one to seven bytes, too few for a tag, it
    fails with an error that names the number of missing bytes. *)
Theorem readAllElements_end_of_stream fuel bo data :
  (length data < 8)%nat ->
  readAllElements zlib_NewReader (S (S fuel)) bo (NewBuffer data) =
    Some (match data with
          | [] => Ok []
          | _ :: _ =>
              Error ("EOF reached but we're supposed to read "
                     +:+ fmt_d (8 - Z.of_nat (length data)) +:+ " more bytes")
          end, NewBuffer []).
Proof.
  intros Hlen. unfold readAllElements.
  rewrite readAllElements_loop_S, readElement_S. unfold readTag.
  destruct (readAllBytes_short_error 8 data ltac:(lia)) as [buf ->].
  cbn [fuel_bind]. destruct data; reflexivity.
Qed.

(** X13.  A stream that ends right behind the tag of an element with a body
    is accepted in silence: the run yields no element and no error.  A
    stream that ends inside the body fails with an error that names the
    number of missing bytes. *)
Theorem readAllElements_truncated_body fuel bo tag dt L part :
  length tag = 8%nat ->
  decodeTag bo tag = Ok (None, dt, L) ->
  Z.of_nat (length part) <
    (if (dt =? DTmiCOMPRESSED) || (dt =? DTmiMATRIX) then L else padTo64Bit L) ->
  readAllElements zlib_NewReader (S (S fuel)) bo (NewBuffer (tag ++ part)) =
    Some (match part with
          | [] => Ok []
          | _ :: _ =>
              Error ("EOF reached but we're supposed to read "
                     +:+ fmt_d ((if (dt =? DTmiCOMPRESSED) || (dt =? DTmiMATRIX)
                                 then L else padTo64Bit L)
                                - Z.of_nat (length part)) +:+ " more bytes")
          end, NewBuffer []).
Proof.
  intros Ht Hd Hlen. unfold readAllElements.
  rewrite readAllElements_loop_S, readElement_S. unfold NewBuffer at 1.
  rewrite readTag_exact by exact Ht. rewrite Hd. cbn [fuel_bind].
  change (mkReader part EOF) with (NewBuffer part).
  destruct (dt =? DTmiCOMPRESSED); cbn [orb] in *;
    [|destruct (dt =? DTmiMATRIX)];
    match goal with
    | H : Z.of_nat (length part) < ?q |- _ =>
        destruct (readAllBytes_short_error q part H) as [buf ->]
    end; destruct part; reflexivity.
Qed.

End EndOfStream.

Lemma readAllElements_end_of_stream_witness :
  readAllElements zlib_verbatim 2 LittleEndian (NewBuffer (bytes_of [14; 0; 0]%N)) =
    Some (Error "EOF reached but we're supposed to read 5 more bytes", NewBuffer []).
Proof.
  exact (readAllElements_end_of_stream zlib_verbatim 0 LittleEndian
           (bytes_of [14; 0; 0]%N) ltac:(cbn; lia)).
Defined.

Lemma readAllElements_truncated_body_witness :
  readAllElements zlib_verbatim 2 LittleEndian
    (NewBuffer (bytes_of [14; 0; 0; 0; 56; 0; 0; 0]%N ++ [])) =
    Some (Ok [], NewBuffer []).
Proof.
  exact (readAllElements_truncated_body zlib_verbatim 0 LittleEndian
           (bytes_of [14; 0; 0; 0; 56; 0; 0; 0]%N) DTmiMATRIX 56 [] eq_refl
           ltac:(vm_compute; reflexivity) ltac:(vm_compute; reflexivity)).
Defined.

(** ** Streams of whole elements *)

Section WholeElements.

Context {ZR : Type} {HZR : io_Reader ZR}.
Variable zlib_NewReader : list byte -> ZR + error.

Lemma readAllElements_nil fuel bo :
  readAllElements zlib_NewReader (S (S fuel)) bo (NewBuffer []) =
    Some (Ok [], NewBuffer []).
Proof.
  unfold readAllElements.
  rewrite readAllElements_loop_S, readElement_S. unfold readTag, NewBuffer.
  rewrite readAllBytes_drained by lia. reflexivity.
Qed.

(** A buffer that holds the encodings of elements one after the other, each
    of which is read on its own: the run yields those elements, all of them
    and in the order of the stream. *)
Lemma readAllElements_concat fuel bo (items : list (list byte * Element)) :
  Forall (fun it =>
            readElement zlib_NewReader fuel bo (NewBuffer (fst it)) =
              Some (Ok (snd it), NewBuffer [])) items ->
  readAllElements zlib_NewReader (length items + S (S fuel)) bo
    (NewBuffer (concat (List.map fst items))) =
    Some (Ok (List.map snd items), NewBuffer []).
Proof.
  induction 1 as [|[enc el] items Hel _ IH]; [apply readAllElements_nil|].
  cbn [fst snd] in Hel. cbn [List.map concat length fst snd Nat.add].
  unfold readAllElements in *. rewrite readAllElements_loop_S.
  unfold NewBuffer in *.
  rewrite (readElement_budget zlib_NewReader fuel _ bo _
             (Ok el, mkReader (concat (List.map fst items)) EOF));
    [| lia | apply readElement_frame; exact Hel].
  rewrite readAllElements_loop_acc, IH. reflexivity.
Qed.

(** A cell matrix whose payload holds, behind its three sub-elements, the
    encodings of matrix elements each of which is decoded on its own: the
    value is those matrices, all of them and in the order of the stream. *)
Lemma miMatrix_cell_children fuel bo subs flags r1 dim r2 name err
    (children : list (list byte * Matrix)) :
  let stream := concat (List.map fst children) in
  arrayFlags bo (NewBuffer (subs ++ stream)) = (Ok (flags, mxCELL), r1) ->
  dimensionsArray bo r1 = (Ok dim, r2) ->
  arrayName bo r2 = (Ok (name, err), NewBuffer stream) ->
  not_EOF err = None ->
  Forall (fun c =>
            readElement zlib_NewReader fuel bo (NewBuffer (fst c)) =
              Some (Ok (PtrMatrix (snd c)), NewBuffer [])) children ->
  miMatrix zlib_NewReader (length children + 3 + fuel) bo (subs ++ stream) =
    Some (Ok (mkMatrix name dim flags mxCELL (List.map VMatrix (List.map snd children)))).
Proof.
  intros stream. subst stream. intros Hflags Hdim Hname Herr Hall.
  pose proof (miMatrix_cell_run zlib_NewReader (length children + S (S fuel)) bo
                _ _ _ _ _ _ _ _ Hflags Hdim Hname Herr) as [_ H].
  assert (Hrun : readAllElements zlib_NewReader (length children + S (S fuel)) bo
                   (NewBuffer (concat (List.map fst children))) =
                 Some (Ok (List.map PtrMatrix (List.map snd children)), NewBuffer [])).
  { pose proof (readAllElements_concat fuel bo
                  (List.map (fun c => (fst c, PtrMatrix (snd c))) children)) as Hrun.
    rewrite length_map, !List.map_map in Hrun. cbn [fst snd] in Hrun.
    rewrite List.map_map. apply Hrun.
    clear -Hall. induction Hall as [|c children Hc _ IH]; constructor; assumption. }
  rewrite Hrun in H.
  destruct (H (length children + 3 + fuel)%nat ltac:(lia)) as [Hv _].
  apply Hv. reflexivity.
Qed.

End WholeElements.

(** The cell [Z] with the children 123, "hi" and 123. *)
Example miMatrix_cell_three_children :
  miMatrix zlib_verbatim 6 LittleEndian
    (cell_sub_elements ++ element_123 ++ element_hi ++ element_123) =
    Some (Ok (mkMatrix "Z" [1; 2] (mkFlags false false false) mxCELL
                [VMatrix matrix_123; VMatrix matrix_hi; VMatrix matrix_123])).
Proof.
  pose proof (miMatrix_cell_children zlib_verbatim 2 LittleEndian cell_sub_elements
                (mkFlags false false false)
                (NewBuffer (skipn 16 cell_sub_elements
                            ++ element_123 ++ element_hi ++ element_123))
                [1; 2]
                (NewBuffer (skipn 32 cell_sub_elements
                            ++ element_123 ++ element_hi ++ element_123))
                "Z" None
                [(element_123, matrix_123); (element_hi, matrix_hi);
                 (element_123, matrix_123)]) as H.
  cbv zeta in H. apply H; clear H.
  - vm_compute. reflexivity.
  - vm_compute. reflexivity.
  - vm_compute. reflexivity.
  - reflexivity.
  - repeat constructor; vm_compute; reflexivity.
Qed.

(** ** The sub-elements of a matrix *)

Lemma parseMulti_exact t bo w data n :
  NumBytes t = Ok w -> t <> DTmiUTF32 -> resolved bo -> 0 <= n ->
  n * w <= Z.of_nat (length data) ->
  exists vals,
    parseMulti t bo data n = Ok vals /\
    Z.of_nat (length vals) = n /\
    forall j v, nth_error vals j = Some v ->
      parseContent t bo
        (firstn (Z.to_nat w) (skipn (j * Z.to_nat w) data)) = Ok v.
Proof.
  intros Hw Ht Hbo Hn Hlen.
  pose proof (NumBytes_pos _ _ Hw) as Hpos.
  unfold parseMulti. destruct (Z.ltb_spec n 0); [lia|].
  destruct (parseMulti_from_ok t bo w data (Z.to_nat n) 0 Hw Ht Hbo ltac:(lia))
    as (vals & Hvals & Hl); [lia|].
  exists vals. split; [exact Hvals|]. split; [lia|].
  intros j v Hj.
  destruct (parseMulti_from_nth t bo w data (Z.to_nat n) 0 vals Hw Hvals) as [_ Hnth].
  destruct (Hnth j v Hj) as (chunk & Hs & Hv).
  assert (Hjn : (j < length vals)%nat) by (apply nth_error_Some; congruence).
  rewrite slice_ok in Hs by nia. injection Hs as <-.
  replace (Z.to_nat ((0 + Z.of_nat j + 1) * w - (0 + Z.of_nat j) * w))
    with (Z.to_nat w) in Hv by lia.
  replace (Z.to_nat ((0 + Z.of_nat j) * w)) with (j * Z.to_nat w)%nat in Hv by nia.
  exact Hv.
Qed.

Lemma quot_bound L w : 0 <= L -> 0 < w -> 0 <= Z.quot L w /\ Z.quot L w * w <= L.
Proof.
  intros HL Hw. pose proof (Z.quot_rem' L w) as Hq.
  pose proof (Z.rem_bound_pos L w HL Hw) as Hr.
  split; [apply Z.quot_pos; lia | lia].
Qed.

Lemma dimensions_loop_int32s bo : resolved bo ->
  forall k buf sBuf e,
  (4 * k <= length buf)%nat -> length sBuf = 4%nat ->
  dimensions_loop k bo (mkReader buf e) sBuf = Ok (firstn k (int32s bo buf)).
Proof.
  intros Hbo. induction k as [|k IH]; intros buf sBuf e Hlen Hs; [reflexivity|].
  destruct buf as [|a [|b [|c [|d buf]]]]; cbn [length] in Hlen; try lia.
  explode_list sBuf Hs.
  cbn [dimensions_loop]. change (@io_Read Reader Reader_io) with Read; unfold Read; cbn [rd_buf rd_err].
  change (Z.to_nat 4) with 4%nat. cbn [firstn skipn length app].
  rewrite !firstn_O, !skipn_O. cbn [length skipn app].
  rewrite Uint32_resolved by (try assumption; reflexivity). cbn [res_bind].
  rewrite IH by (try reflexivity; lia). cbn [res_bind int32s firstn].
  reflexivity.
Qed.

Lemma dimensionsArray_exact bo tag L block rest e :
  resolved bo -> length tag = 8%nat ->
  decodeTag bo tag = Ok (None, DTmiINT32, L) ->
  Z.of_nat (length block) = padTo64Bit L ->
  dimensionsArray bo (mkReader (tag ++ block ++ rest) e) =
    (Ok (firstn (Z.to_nat (Z.quot L 4)) (int32s bo block)), mkReader rest e).
Proof.
  intros Hbo Ht Hd Hb. unfold dimensionsArray.
  rewrite readTag_exact by exact Ht. rewrite Hd. cbn [rd_bind].
  change (negb (DTmiINT32 =? DTmiINT32)) with false. cbn match.
  rewrite readAllBytes_exact by exact Hb.
  pose proof (decodeTag_length_range _ _ _ _ Ht Hd) as HL32.
  destruct (padTo64Bit_spec32 L HL32) as (_ & Hle & _).
  pose proof (proj1 HL32) as HL.
  destruct (quot_bound L 4 HL ltac:(lia)) as [Hq1 Hq2].
  unfold NewBuffer. rewrite dimensions_loop_int32s; try assumption; try reflexivity.
  lia.
Qed.

Lemma byte_of_Z_to_signed b : byte_of_Z (to_signed 8 (byte_to_Z b)) = b.
Proof. destruct b; vm_compute; reflexivity. Qed.

Lemma arrayName_normal bo tag L block rest e :
  length tag = 8%nat ->
  decodeTag bo tag = Ok (None, DTmiINT8, L) ->
  Z.of_nat (length block) = padTo64Bit L ->
  arrayName bo (mkReader (tag ++ block ++ rest) e) =
    (Ok (string_of_bytes (firstn (Z.to_nat L) block), None), mkReader rest e).
Proof.
  intros Ht Hd Hb. unfold arrayName.
  rewrite readTag_exact by exact Ht. rewrite Hd.
  change (negb (DTmiINT8 =? DTmiINT8)) with false. cbn match.
  rewrite readAllBytes_exact by exact Hb.
  pose proof (decodeTag_length_range _ _ _ _ Ht Hd) as HL32.
  destruct (padTo64Bit_spec32 L HL32) as (_ & Hle & _).
  pose proof (proj1 HL32) as HL.
  rewrite slice_ok by lia. cbn [res_bind].
  rewrite Z.sub_0_r. change (Z.to_nat 0) with 0%nat. cbn [skipn]. reflexivity.
Qed.

Lemma arrayName_small bo tag rest e :
  length tag = 8%nat ->
  typeHalf bo tag = DTmiINT8 ->
  1 <= lengthHalf bo tag <= 4 ->
  arrayName bo (mkReader (tag ++ rest) e) =
    (Ok (string_of_bytes (firstn (Z.to_nat (lengthHalf bo tag)) (skipn 4 tag)), None),
     mkReader rest e).
Proof.
  intros Ht Hty Hn. unfold arrayName.
  rewrite readTag_exact by exact Ht. rewrite decodeTag_unfold by exact Ht.
  rewrite Hty. remember (lengthHalf bo tag) as n eqn:En. clear En Hty.
  explode_list tag Ht.
  assert (Hcases : n = 1 \/ n = 2 \/ n = 3 \/ n = 4) by lia.
  destruct Hcases as [-> | [-> | [-> | ->]]];
    cbv -[to_signed byte_of_Z byte_to_Z string_of_bytes];
    rewrite ?byte_of_Z_to_signed; reflexivity.
Qed.

Lemma readNumericalData_normal bo tag dt L data rest e :
  length tag = 8%nat ->
  decodeTag bo tag = Ok (None, dt, L) -> L <> 0 ->
  Z.of_nat (length data) = L ->
  readNumericalData bo (mkReader (tag ++ data ++ rest) e) =
    (let* w := NumBytes dt in
     let* multi := parseMulti dt bo data (Z.quot L w) in
     Ok (ValSmall (mkSmall dt (Vslice multi))), mkReader rest e).
Proof.
  intros Ht Hd HL Hdata. unfold readNumericalData.
  rewrite readTag_exact by exact Ht. rewrite Hd. cbn [rd_bind].
  destruct (Z.eqb_spec L 0); [contradiction|].
  rewrite readAllBytes_exact by exact Hdata. reflexivity.
Qed.

(** X14.  The dimensions sub-element, a normal tag of type [miINT32] and
    declared length [L] with its block padded to a multiple of eight, yields
    the first [L / 4] signed 32-bit integers of the block in the byte order
    of the file, and leaves the stream behind the padded block. *)
Theorem dimensionsArray_int32s bo tag L block rest e :
  resolved bo -> length tag = 8%nat ->
  decodeTag bo tag = Ok (None, DTmiINT32, L) ->
  Z.of_nat (length block) = padTo64Bit L ->
  dimensionsArray bo (mkReader (tag ++ block ++ rest) e) =
    (Ok (firstn (Z.to_nat (Z.quot L 4)) (int32s bo block)), mkReader rest e)
  /\ Z.of_nat (length (firstn (Z.to_nat (Z.quot L 4)) (int32s bo block)))
     = Z.quot L 4.
Proof.
  intros Hbo Ht Hd Hb. split; [apply dimensionsArray_exact; assumption|].
  pose proof (decodeTag_length_range _ _ _ _ Ht Hd) as HL32.
  destruct (padTo64Bit_spec32 L HL32) as (_ & Hle & _).
  pose proof (proj1 HL32) as HL.
  destruct (quot_bound L 4 HL ltac:(lia)) as [Hq1 Hq2].
  assert (Hlen : forall l : list byte, length (int32s bo l) = (length l / 4)%nat).
  { fix IH 1. intros [|a [|b [|c [|d l]]]]; try reflexivity.
    cbn [int32s length]. rewrite IH.
    change (S (S (S (S (length l))))) with (4 + length l)%nat.
    replace (4 + length l)%nat with (length l + 1 * 4)%nat by lia.
    rewrite Nat.div_add by lia. lia. }
  rewrite length_firstn, Hlen.
  assert (Z.to_nat (Z.quot L 4) <= length block / 4)%nat.
  { apply Nat.div_le_lower_bound; lia. }
  lia.
Qed.

Lemma dimensionsArray_int32s_witness :
  dimensionsArray LittleEndian
    (NewBuffer (bytes_of [5; 0; 0; 0; 8; 0; 0; 0; 1; 0; 0; 0; 2; 0; 0; 0; 9]%N)) =
    (Ok [1; 2], NewBuffer (bytes_of [9]%N)).
Proof.
  destruct (dimensionsArray_int32s LittleEndian (bytes_of [5; 0; 0; 0; 8; 0; 0; 0]%N) 8
              (bytes_of [1; 0; 0; 0; 2; 0; 0; 0]%N) (bytes_of [9]%N) EOF
              (or_introl eq_refl) eq_refl
              ltac:(vm_compute; reflexivity) ltac:(vm_compute; reflexivity))
    as [H _].
  vm_compute in H. vm_compute. exact H.
Defined.

(** X15.  The name of a matrix is the text of its bytes as they stand in
    the file, in both encodings: for a small element of type [miINT8] that
    holds one to four bytes, the bytes of the tag behind its two halves; for
    a normal tag of type [miINT8] and declared length [L], the first [L]
    bytes of the block, whose padding to a multiple of eight is skipped. *)
Theorem arrayName_text bo tag rest e :
  length tag = 8%nat ->
  (typeHalf bo tag = DTmiINT8 -> 1 <= lengthHalf bo tag <= 4 ->
   arrayName bo (mkReader (tag ++ rest) e) =
     (Ok (string_of_bytes (firstn (Z.to_nat (lengthHalf bo tag)) (skipn 4 tag)), None),
      mkReader rest e)) /\
  (forall L block rest',
   decodeTag bo tag = Ok (None, DTmiINT8, L) ->
   rest = block ++ rest' -> Z.of_nat (length block) = padTo64Bit L ->
   arrayName bo (mkReader (tag ++ rest) e) =
     (Ok (string_of_bytes (firstn (Z.to_nat L) block), None), mkReader rest' e)).
Proof.
  intros Ht. split.
  - intros Hty Hn. apply arrayName_small; assumption.
  - intros L block rest' Hd -> Hb. apply arrayName_normal; assumption.
Qed.

Lemma arrayName_text_witness :
  arrayName LittleEndian
    (NewBuffer (bytes_of [1; 0; 2; 0; 104; 105; 0; 0; 7]%N)) =
    (Ok ("hi", None), NewBuffer (bytes_of [7]%N)) /\
  arrayName LittleEndian
    (NewBuffer (bytes_of [1; 0; 0; 0; 2; 0; 0; 0; 104; 105; 0; 0; 0; 0; 0; 0; 7]%N)) =
    (Ok ("hi", None), NewBuffer (bytes_of [7]%N)).
Proof.
  split.
  - destruct (arrayName_text LittleEndian (bytes_of [1; 0; 2; 0; 104; 105; 0; 0]%N)
                (bytes_of [7]%N) EOF eq_refl) as [Hsmall _].
    assert (Hty : typeHalf LittleEndian (bytes_of [1; 0; 2; 0; 104; 105; 0; 0]%N)
                  = DTmiINT8) by (vm_compute; reflexivity).
    assert (Hn : 1 <= lengthHalf LittleEndian
                        (bytes_of [1; 0; 2; 0; 104; 105; 0; 0]%N) <= 4)
      by (vm_compute; split; discriminate).
    specialize (Hsmall Hty Hn). vm_compute in Hsmall. vm_compute. exact Hsmall.
  - destruct (arrayName_text LittleEndian (bytes_of [1; 0; 0; 0; 2; 0; 0; 0]%N)
                (bytes_of [104; 105; 0; 0; 0; 0; 0; 0; 7]%N) EOF eq_refl)
      as [_ Hnormal].
    assert (Hd : decodeTag LittleEndian (bytes_of [1; 0; 0; 0; 2; 0; 0; 0]%N)
                 = Ok (None, DTmiINT8, 2)) by (vm_compute; reflexivity).
    specialize (Hnormal 2 (bytes_of [104; 105; 0; 0; 0; 0; 0; 0]%N) (bytes_of [7]%N)
                  Hd eq_refl ltac:(vm_compute; reflexivity)).
    vm_compute in Hnormal. vm_compute. exact Hnormal.
Defined.

(** X16.  The data sub-element of a numeric matrix, a normal tag of a
    fixed-width type and declared length [L > 0], yields the [L / w] scalars
    of its [L] bytes, group by group; the padding that follows the [L] bytes
    in the file is not skipped, and stays in the stream. *)
Theorem readNumericalData_scalars bo tag dt L w data rest e :
  resolved bo -> length tag = 8%nat ->
  decodeTag bo tag = Ok (None, dt, L) -> 0 < L ->
  NumBytes dt = Ok w -> dt <> DTmiUTF32 ->
  Z.of_nat (length data) = L ->
  exists vals,
    readNumericalData bo (mkReader (tag ++ data ++ rest) e) =
      (Ok (ValSmall (mkSmall dt (Vslice vals))), mkReader rest e) /\
    Z.of_nat (length vals) = Z.quot L w /\
    forall j v, nth_error vals j = Some v ->
      parseContent dt bo
        (firstn (Z.to_nat w) (skipn (j * Z.to_nat w) data)) = Ok v.
Proof.
  intros Hbo Ht Hd HL Hw Hdt Hdata.
  pose proof (NumBytes_pos _ _ Hw) as Hpos.
  destruct (quot_bound L w ltac:(lia) Hpos) as [Hq1 Hq2].
  destruct (parseMulti_exact dt bo w data (Z.quot L w) Hw Hdt Hbo Hq1 ltac:(lia))
    as (vals & Hvals & Hlen & Hnth).
  exists vals. split; [|split; assumption].
  rewrite (readNumericalData_normal bo tag dt L data rest e Ht Hd ltac:(lia) Hdata).
  rewrite Hw. cbn [res_bind]. rewrite Hvals. reflexivity.
Qed.

Lemma readNumericalData_scalars_witness :
  readNumericalData BigEndian
    (NewBuffer (bytes_of [0; 0; 0; 4; 0; 0; 0; 4; 1; 2; 0; 7; 0; 0; 0; 0]%N)) =
    (Ok (ValSmall (mkSmall DTmiUINT16 (Vslice [Vuint16 258; Vuint16 7]))),
     NewBuffer (bytes_of [0; 0; 0; 0]%N)).
Proof.
  destruct (readNumericalData_scalars BigEndian (bytes_of [0; 0; 0; 4; 0; 0; 0; 4]%N)
              DTmiUINT16 4 2 (bytes_of [1; 2; 0; 7]%N) (bytes_of [0; 0; 0; 0]%N) EOF
              (or_intror eq_refl) eq_refl ltac:(vm_compute; reflexivity)
              ltac:(lia) eq_refl ltac:(discriminate) ltac:(vm_compute; reflexivity))
    as (vals & Hread & _ & Hnth).
  pose proof (Hread) as Hrun. vm_compute in Hrun.
  injection Hrun as Hvals. subst vals. vm_compute. vm_compute in Hread. exact Hread.
Defined.

(** ** Numeric matrices *)

Section NumericMatrix.

Context {ZR : Type} {HZR : io_Reader ZR}.
Variable zlib_NewReader : list byte -> ZR + error.

(** The first three sub-elements of a matrix payload: the array flags, the
    dimensions, and the name under a normal tag. *)
Ltac matrix_head Hbo Hft Hfp Hfd Hdt Hdd Hdb Hnt Hnd Hnb :=
  rewrite miMatrix_S; unfold NewBuffer;
  rewrite (arrayFlags_exact _ _ _ _ _ Hft Hfp Hfd); cbn [fuel_bind];
  rewrite (dimensionsArray_exact _ _ _ _ _ _ Hbo Hdt Hdd Hdb); cbn [fuel_bind];
  rewrite (arrayName_normal _ _ _ _ _ _ Hnt Hnd Hnb); cbn [fuel_bind not_EOF].

(** X17.  The payload of a matrix of a numeric or character class is laid
    out as four sub-elements: the array flags, the dimensions, the name and
    the data.  The matrix that is decoded has the class and the flags of the
    flags word, the dimensions and the name of their blocks, and as its value
    the scalars of the data bytes, decoded by the type of the data tag and
    not by the class.  With the complex flag the next sub-element is read as
    well and thrown away; whatever else follows is not looked at. *)
Theorem miMatrix_numeric fuel bo ftag fpayload dtag dblock Ld ntag nblock Ln
    vtag vdata dt Lv w rest :
  resolved bo ->
  length ftag = 8%nat -> length fpayload = 8%nat ->
  decodeTag bo ftag = Ok (None, DTmiUINT32, 8) ->
  Z.land (flagsAndClass bo fpayload) 0xFF <> mxSPARSE ->
  Z.land (flagsAndClass bo fpayload) 0xFF <> mxCELL ->
  Z.land (flagsAndClass bo fpayload) 0xFF <> mxSTRUCT ->
  Z.land (flagsAndClass bo fpayload) 0xFF <> mxOBJECT ->
  length dtag = 8%nat -> decodeTag bo dtag = Ok (None, DTmiINT32, Ld) ->
  Z.of_nat (length dblock) = padTo64Bit Ld ->
  length ntag = 8%nat -> decodeTag bo ntag = Ok (None, DTmiINT8, Ln) ->
  Z.of_nat (length nblock) = padTo64Bit Ln ->
  length vtag = 8%nat -> decodeTag bo vtag = Ok (None, dt, Lv) -> 0 < Lv ->
  NumBytes dt = Ok w -> dt <> DTmiUTF32 ->
  Z.of_nat (length vdata) = Lv ->
  ((Z.shiftr (flagsAndClass bo fpayload) 11 =? 1) = true ->
   match fst (readNumericalData bo (NewBuffer rest)) with
   | Ok _ => True
   | Error err => err = EOF
   | Panic _ => False
   end) ->
  exists vals,
    miMatrix zlib_NewReader (S fuel) bo
      (ftag ++ fpayload ++ dtag ++ dblock ++ ntag ++ nblock ++ vtag ++ vdata ++ rest) =
      Some (Ok (mkMatrix
                  (string_of_bytes (firstn (Z.to_nat Ln) nblock))
                  (firstn (Z.to_nat (Z.quot Ld 4)) (int32s bo dblock))
                  (mkFlags (Z.shiftr (flagsAndClass bo fpayload) 9 =? 1)
                           (Z.shiftr (flagsAndClass bo fpayload) 11 =? 1)
                           (Z.shiftr (flagsAndClass bo fpayload) 10 =? 1))
                  (Z.land (flagsAndClass bo fpayload) 0xFF)
                  vals)) /\
    parseMulti dt bo vdata (Z.quot Lv w) = Ok vals /\
    Z.of_nat (length vals) = Z.quot Lv w.
Proof.
  intros Hbo Hft Hfp Hfd Hc1 Hc2 Hc3 Hc4 Hdt Hdd Hdb Hnt Hnd Hnb Hvt Hvd HLv Hw
    Hne Hvdata Himag.
  pose proof (NumBytes_pos _ _ Hw) as Hpos.
  destruct (quot_bound Lv w ltac:(lia) Hpos) as [Hq1 Hq2].
  destruct (parseMulti_exact dt bo w vdata (Z.quot Lv w) Hw Hne Hbo Hq1 ltac:(lia))
    as (vals & Hvals & Hlen & _).
  exists vals. split; [|split; assumption].
  matrix_head Hbo Hft Hfp Hfd Hdt Hdd Hdb Hnt Hnd Hnb.
  rewrite (proj2 (Z.eqb_neq _ _) Hc1), (proj2 (Z.eqb_neq _ _) Hc2),
    (proj2 (Z.eqb_neq _ _) Hc3), (proj2 (Z.eqb_neq _ _) Hc4).
  rewrite (readNumericalData_normal bo vtag dt Lv vdata rest EOF Hvt Hvd ltac:(lia) Hvdata).
  rewrite Hw. cbn [res_bind]. rewrite Hvals. cbn [res_bind rd_bind isComplex].
  destruct (Z.shiftr (flagsAndClass bo fpayload) 11 =? 1).
  - specialize (Himag eq_refl). unfold NewBuffer in Himag.
    destruct (readNumericalData bo (mkReader rest EOF)) as [[pr|err|msg] r5];
      cbn [fst] in Himag; [reflexivity | subst err; reflexivity | contradiction].
  - reflexivity.
Qed.

(** X18.  A matrix of a numeric or character class whose data sub-element
    has a normal tag of declared length zero, as an empty array has, makes
    the matrix decoder panic: [readNumericalData] hands back a nil pointer
    to a small element, and the call of its [Value] method, declared on the
    value, is the panic of the run time for a value method called through a
    nil pointer, whose text names the method behind the import path under
    which the package was built (shown for a flags word that does not report
    the complex flag). *)
Theorem miMatrix_empty_data_panics fuel bo ftag fpayload dtag dblock Ld ntag nblock Ln
    vtag dt rest :
  resolved bo ->
  length ftag = 8%nat -> length fpayload = 8%nat ->
  decodeTag bo ftag = Ok (None, DTmiUINT32, 8) ->
  Z.land (flagsAndClass bo fpayload) 0xFF <> mxSPARSE ->
  Z.land (flagsAndClass bo fpayload) 0xFF <> mxCELL ->
  Z.land (flagsAndClass bo fpayload) 0xFF <> mxSTRUCT ->
  Z.land (flagsAndClass bo fpayload) 0xFF <> mxOBJECT ->
  (Z.shiftr (flagsAndClass bo fpayload) 11 =? 1) = false ->
  length dtag = 8%nat -> decodeTag bo dtag = Ok (None, DTmiINT32, Ld) ->
  Z.of_nat (length dblock) = padTo64Bit Ld ->
  length ntag = 8%nat -> decodeTag bo ntag = Ok (None, DTmiINT8, Ln) ->
  Z.of_nat (length nblock) = padTo64Bit Ln ->
  length vtag = 8%nat -> decodeTag bo vtag = Ok (None, dt, 0) ->
  exists pkg,
    miMatrix zlib_NewReader (S fuel) bo
      (ftag ++ fpayload ++ dtag ++ dblock ++ ntag ++ nblock ++ vtag ++ rest) =
      Some (Panic ("value method " +:+ pkg +:+ ".smallDataElement.Value"
                   +:+ " called using nil *smallDataElement pointer")).
Proof.
  intros Hbo Hft Hfp Hfd Hc1 Hc2 Hc3 Hc4 Hcomplex Hdt Hdd Hdb Hnt Hnd Hnb Hvt Hvd.
  exists import_path.
  matrix_head Hbo Hft Hfp Hfd Hdt Hdd Hdb Hnt Hnd Hnb.
  rewrite (proj2 (Z.eqb_neq _ _) Hc1), (proj2 (Z.eqb_neq _ _) Hc2),
    (proj2 (Z.eqb_neq _ _) Hc3), (proj2 (Z.eqb_neq _ _) Hc4).
  unfold readNumericalData. rewrite readTag_exact by exact Hvt. rewrite Hvd.
  cbn [rd_bind Z.eqb isComplex]. rewrite Hcomplex. reflexivity.
Qed.

End NumericMatrix.

(** Settles the premises of [H] by evaluation. *)
Ltac discharge H :=
  repeat match type of H with
  | ?A -> _ =>
      let a := fresh in
      assert (a : A)
        by first [ left; reflexivity | vm_compute; reflexivity
                 | vm_compute; discriminate | vm_compute; intros; discriminate ];
      specialize (H a); clear a
  end.

Lemma miMatrix_numeric_witness :
  miMatrix zlib_verbatim 1 LittleEndian
    (bytes_of [6; 0; 0; 0; 8; 0; 0; 0]%N ++ bytes_of [6; 0; 0; 0; 0; 0; 0; 0]%N ++
     bytes_of [5; 0; 0; 0; 8; 0; 0; 0]%N ++ bytes_of [1; 0; 0; 0; 1; 0; 0; 0]%N ++
     bytes_of [1; 0; 0; 0; 0; 0; 0; 0]%N ++ [] ++
     bytes_of [9; 0; 0; 0; 8; 0; 0; 0]%N ++ bytes_of [0; 0; 0; 0; 0; 192; 94; 64]%N ++
     []) = Some (Ok matrix_123).
Proof.
  pose proof (miMatrix_numeric zlib_verbatim 0 LittleEndian
              (bytes_of [6; 0; 0; 0; 8; 0; 0; 0]%N) (bytes_of [6; 0; 0; 0; 0; 0; 0; 0]%N)
              (bytes_of [5; 0; 0; 0; 8; 0; 0; 0]%N) (bytes_of [1; 0; 0; 0; 1; 0; 0; 0]%N) 8
              (bytes_of [1; 0; 0; 0; 0; 0; 0; 0]%N) [] 0
              (bytes_of [9; 0; 0; 0; 8; 0; 0; 0]%N)
              (bytes_of [0; 0; 0; 0; 0; 192; 94; 64]%N) DTmiDOUBLE 8 8 []) as H.
  discharge H. destruct H as (vals & Hrun & Hvals & _).
  vm_compute in Hvals. injection Hvals as <-.
  vm_compute in Hrun. vm_compute. exact Hrun.
Defined.

Lemma miMatrix_empty_data_panics_witness :
  exists pkg,
    miMatrix zlib_verbatim 1 LittleEndian empty_double_payload =
      Some (Panic ("value method " +:+ pkg +:+ ".smallDataElement.Value"
                   +:+ " called using nil *smallDataElement pointer")).
Proof.
  pose proof (miMatrix_empty_data_panics zlib_verbatim 0 LittleEndian
              (bytes_of [6; 0; 0; 0; 8; 0; 0; 0]%N) (bytes_of [6; 0; 0; 0; 0; 0; 0; 0]%N)
              (bytes_of [5; 0; 0; 0; 8; 0; 0; 0]%N) (bytes_of [0; 0; 0; 0; 0; 0; 0; 0]%N) 8
              (bytes_of [1; 0; 0; 0; 1; 0; 0; 0]%N)
              (bytes_of [120; 0; 0; 0; 0; 0; 0; 0]%N) 1
              (bytes_of [9; 0; 0; 0; 0; 0; 0; 0]%N) DTmiDOUBLE []) as H.
  discharge H. destruct H as [pkg H]. exists pkg.
  vm_compute in H. vm_compute. exact H.
Defined.

(** Built under the import path of the readme. *)
Example miMatrix_empty_data_panic_text :
  miMatrix zlib_verbatim 1 LittleEndian empty_double_payload =
    Some (Panic "value method github.com/daniellowtw/matlab.smallDataElement.Value called using nil *smallDataElement pointer").
Proof. vm_compute. reflexivity. Qed.

(** ** Opening a file *)

Lemma bufio_ReadBytes_split delim br : forall line br',
  bufio_ReadBytes delim br = (line, None, br') -> br = line ++ br'.
Proof.
  induction br as [|b br IH]; intros line br' H; [discriminate H|].
  cbn [bufio_ReadBytes] in H. destruct (Byte.eqb b delim).
  - injection H as <- <-. reflexivity.
  - destruct (bufio_ReadBytes delim br) as [[line0 err] br0].
    injection H as <- -> <-. cbn [app]. f_equal. apply IH. reflexivity.
Qed.

Lemma bytes_Equal_eq a : forall b, bytes_Equal a b = true -> a = b.
Proof.
  induction a as [|x a IH]; intros [|y b] H; try discriminate H; [reflexivity|].
  cbn [bytes_Equal] in H. apply andb_prop in H as [Hxy Hab].
  apply Byte.byte_dec_bl in Hxy. subst y. f_equal. apply IH. exact Hab.
Qed.

(** A description text that is accepted starts with "MATLAB " and names
    level 5.0. *)
Lemma readDescription_Ok Time zero parse trim buf (h h' : Header Time) :
  readDescription zero parse trim buf h = (Ok tt, h') ->
  Level h' = "5.0" /\
  exists after, buf = bytes_of_string "MATLAB " ++ after.
Proof.
  unfold readDescription.
  destruct (bufio_ReadBytes " "%byte buf) as [[prefix err] br] eqn:Hp.
  destruct err as [e|]; [discriminate|].
  destruct (bytes_Equal prefix (bytes_of_string "MATLAB ")) eqn:Heq;
    cbn [negb]; [|discriminate].
  apply bytes_Equal_eq in Heq. subst prefix.
  apply bufio_ReadBytes_split in Hp.
  destruct (bufio_ReadString " "%byte br) as [[level err] br2].
  destruct err as [e|]; [discriminate|].
  cbn [Level set_Level].
  destruct (String.eqb (trim level) "5.0") eqn:Hlevel; cbn [negb]; [|discriminate].
  apply String.eqb_eq in Hlevel.
  repeat match goal with
         | |- context [let '(_, _) := ?x in _] => destruct x
         | |- context [match ?x with _ => _ end] => destruct x
         end;
    intros H; inversion H; subst; cbn [Level set_Level set_Platform set_Created];
    (split; [exact Hlevel | eexists; reflexivity]).
Qed.

(** X19.  A file that was opened has had exactly the 128 bytes of the
    header taken off its stream, which began with "MATLAB "; its level is
    5.0, its byte order is resolved, it is unread, and its mapping is empty. *)
Theorem NewFileFromReader_opened Time (zero : Time) parse trim r f :
  NewFileFromReader zero parse trim r = (Ok tt, f) ->
  hasReadAll f = false /\ vars f = ∅ /\
  resolved (Endianess (File_Header f)) /\ Level (File_Header f) = "5.0" /\
  rd_err (File_r f) = rd_err r /\
  exists header,
    rd_buf r = header ++ rd_buf (File_r f) /\ Z.of_nat (length header) = headerLen /\
    firstn 7 header = bytes_of_string "MATLAB ".
Proof.
  unfold NewFileFromReader, readHeader.
  cbn [set_Header set_r File_r File_Header hasReadAll vars].
  destruct (readAllBytes headerTextLen r) as [[text err] r1] eqn:H1.
  destruct err as [e|]; [discriminate|].
  destruct (readDescription zero parse trim text (mkHeader "" "" zero NilByteOrder))
    as [[[]|e|msg] h] eqn:Hd; try discriminate.
  cbn [set_Header set_r File_r File_Header hasReadAll vars].
  destruct (readAllBytes headerSubsystemOffsetLen r1) as [[sub err] r2] eqn:H2.
  destruct err as [e|]; [discriminate|].
  cbn [set_Header set_r File_r File_Header hasReadAll vars].
  destruct (readAllBytes headerFlagLen r2) as [[flag err] r3] eqn:H3.
  destruct err as [e|]; [discriminate|].
  cbn [set_Header set_r File_r File_Header hasReadAll vars].
  apply readAllBytes_Some in H1 as (Hb1 & He1 & Hl1).
  apply readAllBytes_Some in H2 as (Hb2 & He2 & Hl2).
  apply readAllBytes_Some in H3 as (Hb3 & He3 & Hl3).
  pose proof (readDescription_Endianess _ _ _ _ _ _ _ _ Hd) as Hbo.
  apply readDescription_Ok in Hd as (Hlevel & after & Htext).
  assert (Hshape : forall bo,
            resolved bo ->
            hasReadAll (mkFile (set_Endianess bo h) r3 false ∅) = false /\
            vars (mkFile (set_Endianess bo h) r3 false ∅) = ∅ /\
            resolved (Endianess (File_Header (mkFile (set_Endianess bo h) r3 false ∅))) /\
            Level (File_Header (mkFile (set_Endianess bo h) r3 false ∅)) = "5.0" /\
            rd_err (File_r (mkFile (set_Endianess bo h) r3 false ∅)) = rd_err r /\
            exists header,
              rd_buf r = header ++ rd_buf (File_r (mkFile (set_Endianess bo h) r3 false ∅))
              /\ Z.of_nat (length header) = headerLen
              /\ firstn 7 header = bytes_of_string "MATLAB ").
  { intros bo Hres. cbn [hasReadAll vars File_Header File_r Endianess Level set_Endianess].
    split; [reflexivity|]. split; [reflexivity|]. split; [exact Hres|].
    split; [exact Hlevel|]. split; [congruence|].
    exists (text ++ sub ++ flag). split; [|split].
    - rewrite Hb1, Hb2, Hb3, <- !app_assoc. reflexivity.
    - rewrite !length_app, !Nat2Z.inj_add, Hl1, Hl2, Hl3. reflexivity.
    - rewrite Htext, <- app_assoc. reflexivity. }
  destruct (slice 2 4 flag) as [marker|e|msg]; try discriminate.
  destruct (String.eqb (string_of_bytes marker) "MI").
  - intros H. injection H as <-. apply Hshape. right; reflexivity.
  - destruct (String.eqb (string_of_bytes marker) "IM"); [|discriminate].
    intros H. injection H as <-. apply Hshape. left; reflexivity.
Qed.

Lemma NewFileFromReader_opened_witness :
  resolved (Endianess (File_Header (snd
    (NewFileFromReader "" time_text trim_blanks
       (NewBuffer (qm7_description ++ bytes_of [0; 0; 0; 0; 0; 0; 0; 0]%N
                   ++ bytes_of [0; 1; 73; 77]%N ++ bytes_of [15]%N)))))).
Proof.
  assert (H : NewFileFromReader "" time_text trim_blanks
                (NewBuffer (qm7_description ++ bytes_of [0; 0; 0; 0; 0; 0; 0; 0]%N
                            ++ bytes_of [0; 1; 73; 77]%N ++ bytes_of [15]%N)) =
              (Ok tt, snd (NewFileFromReader "" time_text trim_blanks
                (NewBuffer (qm7_description ++ bytes_of [0; 0; 0; 0; 0; 0; 0; 0]%N
                            ++ bytes_of [0; 1; 73; 77]%N ++ bytes_of [15]%N)))))
    by (vm_compute; reflexivity).
  destruct (NewFileFromReader_opened string "" time_text trim_blanks _ _ H)
    as (_ & _ & Hres & _).
  exact Hres.
Defined.

(** ** The registry *)

Section RegistryContents.

Context {ZR : Type} {HZR : io_Reader ZR}.
Variable zlib_NewReader : list byte -> ZR + error.
Variable Time : Type.
Implicit Type f : File Time.

Lemma readAll_register_matrices ms : forall f,
  readAll_register (List.map PtrMatrix ms) f =
    (Ok tt, set_vars (register_all ms (vars f)) f).
Proof.
  induction ms as [|m ms IH]; intros f.
  - destruct f; reflexivity.
  - cbn [List.map readAll_register Element_Type assert_Matrix].
    change (negb (DTmiMATRIX =? DTmiMATRIX)) with false. cbn match.
    rewrite IH. destruct f; reflexivity.
Qed.

Lemma register_all_other ms : forall (m : gmap string Matrix) n,
  (forall x, In x ms -> Name x <> n) -> register_all ms m !! n = m !! n.
Proof.
  induction ms as [|x ms IH]; intros m n Hn; [reflexivity|].
  unfold register_all in *. cbn [fold_left].
  rewrite IH by (intros y Hy; apply Hn; right; exact Hy).
  apply lookup_insert_ne. apply Hn. left; reflexivity.
Qed.

Lemma register_all_last ms1 : forall (m : gmap string Matrix) x ms2,
  (forall y, In y ms2 -> Name y <> Name x) ->
  register_all (ms1 ++ x :: ms2) m !! Name x = Some x.
Proof.
  induction ms1 as [|z ms1 IH]; intros m x ms2 Hlast.
  - unfold register_all. cbn [app fold_left].
    fold (register_all ms2 (<[Name x := x]> m)).
    rewrite register_all_other by exact Hlast. apply lookup_insert_eq.
  - unfold register_all in *. cbn [app fold_left]. apply IH. exact Hlast.
Qed.

(** X20.  When the stream of an unread file decodes to matrices, the pass
    sets the flag, keeps the reader where the run left it, and registers the
    matrices by name in the order of the stream: a name that occurs more
    than once is bound to its last matrix, and a name that does not occur
    keeps its old binding. *)
Theorem readAll_registers fuel f ms r' :
  hasReadAll f = false ->
  readAllElements zlib_NewReader fuel (Endianess (File_Header f)) (File_r f) =
    Some (Ok (List.map PtrMatrix ms), r') ->
  readAll zlib_NewReader fuel f =
    Some (Ok tt, mkFile (File_Header f) r' true (register_all ms (vars f))) /\
  (forall ms1 x ms2, ms = ms1 ++ x :: ms2 ->
     (forall y, In y ms2 -> Name y <> Name x) ->
     register_all ms (vars f) !! Name x = Some x) /\
  (forall n, (forall x, In x ms -> Name x <> n) ->
     register_all ms (vars f) !! n = vars f !! n).
Proof.
  intros Hf Hrun. split; [|split].
  - unfold readAll. rewrite Hf.
    cbn [set_hasReadAll File_Header File_r hasReadAll vars].
    rewrite Hrun. rewrite readAll_register_matrices. reflexivity.
  - intros ms1 x ms2 -> Hlast. apply register_all_last. exact Hlast.
  - intros n Hn. apply register_all_other. exact Hn.
Qed.

Lemma elem_of_names (m : gmap string Matrix) n :
  n ∈ (map_to_list m).*1 <-> is_Some (m !! n).
Proof.
  rewrite list_elem_of_fmap. split.
  - intros [[k v] [-> Hkv]]. apply elem_of_map_to_list in Hkv. cbn. eauto.
  - intros [v Hv]. exists (n, v). split; [reflexivity|].
    apply elem_of_map_to_list. exact Hv.
Qed.

(** X21.  The names that [GetVarsNames] lists are the names that [GetVar]
    finds: for a file that is read, or unread with an empty mapping as a
    file is when it is opened, the list holds no name twice, and a later
    lookup of a name finds a matrix exactly when the name is in the list. *)
Theorem GetVarsNames_GetVar fuel f names f' :
  (hasReadAll f = false -> vars f = ∅) ->
  GetVarsNames zlib_NewReader fuel f = Some (Ok names, f') ->
  NoDup names /\ hasReadAll f' = true /\
  forall fuel' n,
    GetVar zlib_NewReader fuel' f' n =
      Some (Ok (vars f' !! n, bool_decide (n ∈ names)), f').
Proof.
  intros Hfresh. unfold GetVarsNames.
  assert (Hread : forall g : File Time,
            hasReadAll g = true ->
            NoDup (map_to_list (vars g)).*1 /\ hasReadAll g = true /\
            forall fuel' n,
              GetVar zlib_NewReader fuel' g n =
                Some (Ok (vars g !! n, bool_decide (n ∈ (map_to_list (vars g)).*1)), g)).
  { intros g Hg. split; [apply NoDup_fst_map_to_list|]. split; [exact Hg|].
    intros fuel' n. rewrite GetVar_read by exact Hg. do 4 f_equal.
    apply bool_decide_ext. symmetry. apply elem_of_names. }
  destruct (hasReadAll f) eqn:Hf; cbn [negb].
  - intros H. injection H as <- <-. apply Hread. exact Hf.
  - destruct (readAll zlib_NewReader fuel f) as [[[[]|e|msg] f1]|] eqn:Hall;
      try discriminate.
    + intros H. injection H as <- <-. apply Hread.
      eapply readAll_marks. exact Hall.
    + intros H. injection H as <- <-.
      destruct (readAll_Error zlib_NewReader Time fuel f e f1 Hf Hall)
        as (Hmark & Hvars & _).
      split; [constructor|]. split; [exact Hmark|].
      intros fuel' n. rewrite GetVar_read by exact Hmark.
      rewrite Hvars, (Hfresh eq_refl), lookup_empty. reflexivity.
Qed.

End RegistryContents.

Lemma readAll_registers_witness :
  let f := mkFile (mkHeader "5.0" "posix" tt LittleEndian)
             (NewBuffer cell_children) false (∅ : gmap string Matrix) in
  readAll zlib_verbatim 4 f =
    Some (Ok tt, mkFile (mkHeader "5.0" "posix" tt LittleEndian) (NewBuffer []) true
                   (register_all [matrix_hi; matrix_123] ∅)) /\
  register_all [matrix_hi; matrix_123] ∅ !! Name matrix_123 = Some matrix_123.
Proof.
  intros f.
  assert (Hrun : readAllElements zlib_verbatim 4 (Endianess (File_Header f)) (File_r f) =
                   Some (Ok (List.map PtrMatrix [matrix_hi; matrix_123]), NewBuffer []))
    by (vm_compute; reflexivity).
  destruct (readAll_registers zlib_verbatim unit 4 f _ _ eq_refl Hrun)
    as (Hall & Hlast & _).
  split; [exact Hall|].
  apply (Hlast [matrix_hi] matrix_123 [] eq_refl). intros y [].
Defined.

Lemma GetVarsNames_GetVar_witness :
  let f := mkFile (mkHeader "5.0" "posix" tt LittleEndian)
             (NewBuffer cell_children) false (∅ : gmap string Matrix) in
  let f' := mkFile (mkHeader "5.0" "posix" tt LittleEndian) (NewBuffer []) true
              (register_all [matrix_hi; matrix_123] ∅) in
  GetVarsNames zlib_verbatim 4 f = Some (Ok [EmptyString], f') /\
  GetVar zlib_verbatim 0 f' EmptyString = Some (Ok (Some matrix_123, true), f').
Proof.
  intros f f'.
  assert (Hnames : GetVarsNames zlib_verbatim 4 f = Some (Ok [EmptyString], f'))
    by (vm_compute; reflexivity).
  destruct (GetVarsNames_GetVar zlib_verbatim unit 4 f _ f' (fun _ => eq_refl) Hnames)
    as (_ & _ & Hget).
  split; [exact Hnames|].
  specialize (Hget 0%nat EmptyString). vm_compute in Hget. vm_compute. exact Hget.
Defined.

(** ** What the array flags accept *)

Lemma decodeTag_small_type bo tag s dt p :
  length tag = 8%nat -> decodeTag bo tag = Ok (Some s, dt, p) ->
  dt = DataTypeUnknown /\ p = 0.
Proof.
  intros Ht H. rewrite decodeTag_unfold in H by exact Ht.
  destruct (negb (lengthHalf bo tag =? 0)).
  - destruct (NumBytes (typeHalf bo tag)); try discriminate H. cbn [res_bind] in H.
    destruct (parseMulti _ _ _ _); try discriminate H.
    injection H as _ <- <-. split; reflexivity.
  - destruct (Uint32 bo (firstn 4 tag)); try discriminate H. cbn [res_bind] in H.
    destruct (Uint32 bo (skipn 4 tag)); discriminate H.
Qed.

(** X22.  The array flags are accepted only from a normal tag of type
    [miUINT32] and declared length 8, never from a small element; sixteen
    bytes are then taken off the stream, the class is the low byte of the
    flags word, a number below 256, and each flag is the test that the word
    shifted right by the position of its bit equals one. *)
Theorem arrayFlags_accepts bo r fl class r' :
  arrayFlags bo r = (Ok (fl, class), r') ->
  rd_err r' = rd_err r /\
  exists tag payload,
    rd_buf r = tag ++ payload ++ rd_buf r' /\
    length tag = 8%nat /\ length payload = 8%nat /\
    decodeTag bo tag = Ok (None, DTmiUINT32, 8) /\
    class = Z.land (flagsAndClass bo payload) 0xFF /\ 0 <= class < 256 /\
    fl = mkFlags (Z.shiftr (flagsAndClass bo payload) 9 =? 1)
                 (Z.shiftr (flagsAndClass bo payload) 11 =? 1)
                 (Z.shiftr (flagsAndClass bo payload) 10 =? 1).
Proof.
  intros H. pose proof H as H0. unfold arrayFlags in H0.
  destruct (readTag bo r) as [[[[sde dt] p]|e|msg] r1] eqn:Ht; cbn [rd_bind] in H0;
    try discriminate H0.
  destruct (Z.eqb_spec dt DTmiUINT32) as [->|]; cbn [negb] in H0; [|discriminate H0].
  destruct (Z.eqb_spec p 8) as [->|]; cbn [negb] in H0; [|discriminate H0].
  destruct (readAllBytes 8 r1) as [[buf err] r2] eqn:Hb.
  destruct err as [e|]; [discriminate H0|].
  injection H0 as _ <-.
  apply readTag_inv in Ht as [He [(e & pre & Hout & _)|(tag & Htag & Hbuf & Hdec)]];
    [discriminate Hout|].
  apply readAllBytes_Some in Hb as (Hb1 & Hb2 & Hb3).
  symmetry in Hdec.
  assert (Hsde : sde = None).
  { destruct sde as [s|]; [|reflexivity].
    destruct (decodeTag_small_type _ _ _ _ _ Htag Hdec) as [Hdt _]. discriminate Hdt. }
  subst sde.
  assert (Hlen : length buf = 8%nat) by lia.
  destruct r as [l e]. cbn [rd_buf rd_err] in *. subst l. rewrite Hb1 in H.
  rewrite (arrayFlags_exact bo tag buf (rd_buf r2) e Htag Hlen Hdec) in H.
  injection H as <- <- _.
  split; [congruence|]. exists tag, buf.
  split; [rewrite Hb1; reflexivity|].
  split; [exact Htag|]. split; [exact Hlen|]. split; [exact Hdec|].
  split; [reflexivity|]. split; [|reflexivity].
  change 255 with (Z.ones 8). rewrite Z.land_ones by lia.
  apply Z.mod_pos_bound. reflexivity.
Qed.

Lemma arrayFlags_accepts_witness :
  exists tag payload,
    bytes_of [6; 0; 0; 0; 8; 0; 0; 0; 9; 6; 0; 0; 0; 0; 0; 0; 1]%N =
      tag ++ payload ++ bytes_of [1]%N /\
    length tag = 8%nat /\ length payload = 8%nat /\ 0 <= 9 < 256.
Proof.
  assert (H : arrayFlags LittleEndian
                (NewBuffer (bytes_of [6; 0; 0; 0; 8; 0; 0; 0; 9; 6; 0; 0; 0; 0; 0; 0; 1]%N)) =
              (Ok (mkFlags false false true, 9), NewBuffer (bytes_of [1]%N)))
    by (vm_compute; reflexivity).
  destruct (arrayFlags_accepts _ _ _ _ _ H)
    as (_ & tag & payload & Hbuf & Htag & Hpayload & _ & _ & Hclass & _).
  exists tag, payload. split; [exact Hbuf|]. split; [exact Htag|].
  split; [exact Hpayload | exact Hclass].
Defined.

(** ** The range of a decoded scalar *)

Lemma land_ones_bound x k : 0 <= k -> 0 <= Z.land x (Z.ones k) < 2 ^ k.
Proof.
  intros Hk. rewrite Z.land_ones by exact Hk.
  apply Z.mod_pos_bound. apply Z.pow_pos_nonneg; lia.
Qed.

Lemma rune_part x k s : 0 <= k -> 0 <= s -> k + s <= 21 ->
  0 <= Z.shiftl (Z.land x (Z.ones k)) s < 2 ^ 21.
Proof.
  intros Hk Hs Hks.
  pose proof (shiftl_bound _ k s Hk Hs (land_ones_bound x k Hk)) as H.
  pose proof (pow2_le_mono (k + s) 21 ltac:(lia)). lia.
Qed.

Lemma rune_low x k : 0 <= k <= 21 -> 0 <= Z.land x (Z.ones k) < 2 ^ 21.
Proof.
  intros Hk. pose proof (land_ones_bound x k ltac:(lia)).
  pose proof (pow2_le_mono k 21 ltac:(lia)). lia.
Qed.

Ltac rune_bits :=
  lazymatch goal with
  | |- _ <= Z.lor _ _ < _ => apply lor_bound; [lia | rune_bits | rune_bits]
  | |- _ <= Z.shiftl (Z.land _ ?m) ?s < _ =>
      let k := eval vm_compute in (Z.log2 m + 1) in
      apply (rune_part _ k s); lia
  | |- _ <= Z.land _ ?m < _ =>
      let k := eval vm_compute in (Z.log2 m + 1) in
      apply (rune_low _ k); lia
  end.

(** A rune of [utf8.DecodeRune] has at most 21 bits. *)
Lemma DecodeRune_range p : 0 <= DecodeRune p < 2 ^ 21.
Proof.
  unfold DecodeRune.
  assert (Herr : 0 <= RuneError < 2 ^ 21)
    by (unfold RuneError; change (2 ^ 21) with 2097152; lia).
  destruct p as [|c0 p]; cbn [List.map]; [exact Herr|].
  pose proof (byte_to_Z_range c0) as H0.
  assert (Hb0 : 0 <= byte_to_Z c0 < 2 ^ 21) by (change (2 ^ 21) with 2097152; lia).
  repeat match goal with
         | |- context [if ?c then _ else _] => destruct c
         | |- context [match List.map byte_to_Z ?l with _ => _ end] =>
             destruct l; cbn [List.map]
         end;
    first [ exact Herr | exact Hb0 | rune_bits ].
Qed.

Lemma to_signed_range bits x :
  0 < bits -> 0 <= x < 2 ^ bits ->
  - 2 ^ (bits - 1) <= to_signed bits x < 2 ^ (bits - 1).
Proof.
  intros Hbits Hx. unfold to_signed.
  assert (Hpow : 2 ^ bits = 2 * 2 ^ (bits - 1)).
  { replace bits with (1 + (bits - 1)) at 1 by lia.
    rewrite Z.pow_add_r by lia. reflexivity. }
  destruct (Z.ltb_spec x (2 ^ (bits - 1))); lia.
Qed.

Lemma parseContent_in_range t bo data v :
  parseContent t bo data = Ok v -> in_range v.
Proof.
  unfold parseContent.
  destruct t as [|p|p]; try discriminate;
  do 5 (try destruct p as [p|p|]; try discriminate);
  intros H;
  try match type of H with
      | res_bind ?m _ = Ok _ =>
          destruct m as [u| |] eqn:E; try discriminate H; cbn [res_bind] in H
      end;
  injection H as <-; cbn [in_range];
  try (apply (ByteOrder_Uint_range 2) in E; change (2 ^ (8 * Z.of_nat 2)) with (2 ^ 16) in E);
  try (apply (ByteOrder_Uint_range 4) in E; change (2 ^ (8 * Z.of_nat 4)) with (2 ^ 32) in E);
  try (apply (ByteOrder_Uint_range 8) in E; change (2 ^ (8 * Z.of_nat 8)) with (2 ^ 64) in E);
  try exact E;
  try (apply (to_signed_range 16); [lia | exact E]);
  try (apply (to_signed_range 32); [lia | exact E]);
  try (apply (to_signed_range 64); [lia | exact E]).
  - unfold utf16_Decode1, RuneError. change (2 ^ 31) with 2147483648.
    change (2 ^ 16) with 65536 in E.
    destruct (between 55296 57343 u); lia.
  - pose proof (DecodeRune_range data) as Hr.
    change (2 ^ 21) with 2097152 in Hr. change (2 ^ 31) with 2147483648. lia.
  - pose proof (byte_to_Z_range u). change (2 ^ 8) with 256. lia.
  - apply (to_signed_range 8); [lia|]. pose proof (byte_to_Z_range u).
    change (2 ^ 8) with 256. lia.
Qed.

Lemma parseMulti_from_in_range t bo data k : forall i vals,
  parseMulti_from k i t bo data = Ok vals -> List.Forall in_range vals.
Proof.
  induction k as [|k IH]; intros i vals H.
  - injection H as <-. constructor.
  - cbn [parseMulti_from] in H.
    destruct (NumBytes t) as [w| |]; try discriminate H. cbn [res_bind] in H.
    destruct (slice (i * w) ((i + 1) * w) data) as [chunk| |]; try discriminate H.
    cbn [res_bind] in H.
    destruct (parseContent t bo chunk) as [v| |] eqn:Hv; try discriminate H.
    cbn [res_bind] in H.
    destruct (parseMulti_from k (i + 1) t bo data) as [rest| |] eqn:Hrest;
      try discriminate H.
    injection H as <-. constructor.
    + eapply parseContent_in_range. exact Hv.
    + eapply IH. exact Hrest.
Qed.

(** X23.  Every scalar that the payload decoder yields lies in the range of
    the Go type it is decoded to: a signed integer of [N] bits between
    [-2^(N-1)] and [2^(N-1) - 1], an unsigned one and the bit pattern of a
    float below [2^N], a rune in the range of [int32].  The same holds for
    every scalar of a run. *)
Theorem parseContent_range t bo data :
  (forall v, parseContent t bo data = Ok v -> in_range v) /\
  (forall n vals, parseMulti t bo data n = Ok vals -> List.Forall in_range vals).
Proof.
  split.
  - intros v. apply parseContent_in_range.
  - intros n vals. unfold parseMulti. destruct (n <? 0); [discriminate|].
    apply parseMulti_from_in_range.
Qed.

(** ** Compact data in a matrix of class double *)

Lemma parseContent_float64 t bo data b :
  parseContent t bo data = Ok (Vfloat64 b) -> t = DTmiDOUBLE.
Proof.
  unfold parseContent.
  destruct t as [|p|p]; try discriminate;
  do 5 (try destruct p as [p|p|]; try discriminate);
  intros H; try reflexivity;
  match type of H with
  | res_bind ?m _ = Ok _ =>
      destruct m as [u| |]; try discriminate H; cbn [res_bind] in H
  | _ => idtac
  end; discriminate H.
Qed.

(** X24.  [DoubleArray] is decided by the type under which the data was
    stored and not by the class alone: on a matrix of class double whose
    scalars were decoded from a data tag of any type other than [miDOUBLE],
    as MATLAB stores whole-numbered doubles, it panics at the first scalar. *)
Theorem DoubleArray_compact_data dt bo data n vals name dims fl :
  parseMulti dt bo data n = Ok vals -> vals <> [] -> dt <> DTmiDOUBLE ->
  DoubleArray (mkMatrix name dims fl mxDOUBLE vals) = Panic interface_conversion.
Proof.
  intros Hrun Hne Hdt. unfold DoubleArray. cbn [Class value].
  destruct vals as [|v vals]; [contradiction|].
  assert (Hv : exists chunk, parseContent dt bo chunk = Ok v).
  { unfold parseMulti in Hrun. destruct (n <? 0); [discriminate|].
    destruct (Z.to_nat n) as [|k]; [discriminate Hrun|].
    cbn [parseMulti_from] in Hrun.
    destruct (NumBytes dt) as [w| |]; try discriminate Hrun. cbn [res_bind] in Hrun.
    destruct (slice (0 * w) ((0 + 1) * w) data) as [chunk| |]; try discriminate Hrun.
    cbn [res_bind] in Hrun.
    destruct (parseContent dt bo chunk) as [v0| |] eqn:Hv0; try discriminate Hrun.
    cbn [res_bind] in Hrun.
    destruct (parseMulti_from k (0 + 1) dt bo data); try discriminate Hrun.
    injection Hrun as <- _. exists chunk. exact Hv0. }
  destruct Hv as [chunk Hv]. cbn [DoubleArray_loop].
  destruct v; try reflexivity.
  exfalso. apply Hdt. eapply parseContent_float64. exact Hv.
Qed.

Lemma DoubleArray_compact_data_witness :
  DoubleArray (mkMatrix "x" [1; 2] (mkFlags false false false) mxDOUBLE
                 [Vuint8 1; Vuint8 2]) = Panic interface_conversion.
Proof.
  assert (Hrun : parseMulti DTmiUINT8 LittleEndian (bytes_of [1; 2]%N) 2 =
                   Ok [Vuint8 1; Vuint8 2]) by (vm_compute; reflexivity).
  exact (DoubleArray_compact_data DTmiUINT8 LittleEndian _ _ _ "x" [1; 2]
           (mkFlags false false false) Hrun ltac:(discriminate) ltac:(discriminate)).
Defined.
